(** * ghostWriter: the WASAPI loopback capture-and-encode pipeline

  A shallow embedding of
    - [audio_capture.cpp]   (class [AudioCapture]: start/stop, the capture
                             thread and its sample conversion), and
    - [wasapi_loopback.cpp] (class [WasapiLoopback]: the accumulation
                             buffer, [Start] and [SaveToWav]),
  together with the properties of the pipeline that the specification
  states about them.

  Conventions.  A C++ integer of width w is a [Z] with its conversion
  (wrap-around) written out; [float] and [double] are IEEE-754 binary32 and
  binary64 values of the Standard Library's [spec_float], computed with its
  round-to-nearest-even operations; [std::vector<int16_t>] is a [list Z];
  raw bytes are [byte]s.  What C++ leaves undefined for a conversion or an
  out-of-range vector access is the result [None]; inside the capture
  thread, where a packet is converted whatever it holds, the sample that
  an undefined conversion yields is a parameter of the model, and [None]
  is an exception thrown by the vector. *)

From Stdlib Require Import ZArith Lia List Bool String QArith Qround DecimalString.
From Stdlib Require Import Floats.SpecFloat.
From coqutil Require Import Byte Word.LittleEndianList.
From stdpp Require Import base option list strings gmap.

Local Open Scope Z_scope.

(* ===================================================================== *)
(** * Fixed-width integers *)
(* ===================================================================== *)

Module Int.

(** Conversion to an unsigned type of [w] bits. *)
Definition to_unsigned (w : Z) (z : Z) : Z := z mod 2 ^ w.

(** Conversion to a signed (two's complement) type of [w] bits. *)
Definition to_signed (w : Z) (z : Z) : Z :=
  (z + 2 ^ (w - 1)) mod 2 ^ w - 2 ^ (w - 1).

Definition to_int16 : Z -> Z := to_signed 16.
Definition to_int32 : Z -> Z := to_signed 32.
Definition to_uint16 : Z -> Z := to_unsigned 16.
Definition to_uint32 : Z -> Z := to_unsigned 32.

Definition is_int16 (z : Z) : Prop := -32768 <= z <= 32767.
Definition is_int32 (z : Z) : Prop := -2147483648 <= z <= 2147483647.

Definition is_int16b (z : Z) : bool := (-32768 <=? z) && (z <=? 32767).

End Int.

(* ===================================================================== *)
(** * IEEE-754 arithmetic: [float] (binary32) and [double] (binary64) *)
(* ===================================================================== *)

(** The value of a finite float, truncated toward zero: what a C++
  floating-to-integer conversion computes before it checks that the
  destination type can hold it. *)
Definition SFtrunc (x : spec_float) : option Z :=
  match x with
  | S754_zero _ => Some 0
  | S754_finite s m e => Some (cond_Zopp s (Z.shiftl (Z.pos m) e))
  | S754_infinity _ | S754_nan => None
  end.

(** [(int16_t) x]: undefined unless the truncated value is an [int16_t]. *)
Definition SF_to_int16 (x : spec_float) : option Z :=
  match SFtrunc x with
  | Some z => if Int.is_int16b z then Some z else None
  | None => None
  end.

(** [(size_t) x] on a 64-bit target: undefined unless the truncated value
  is in [0, 2^64). *)
Definition SF_to_size_t (x : spec_float) : option nat :=
  match SFtrunc x with
  | Some z => if (0 <=? z) && (z <? 2 ^ 64) then Some (Z.to_nat z) else None
  | None => None
  end.

Definition SF_is_nan (x : spec_float) : bool :=
  match x with S754_nan => true | _ => false end.

Module F32.
Definition prec : Z := 24.
Definition emax : Z := 128.
Definition of_Z (z : Z) : spec_float := binary_normalize prec emax z 0 false.
Definition mul : spec_float -> spec_float -> spec_float := SFmul prec emax.
Definition ltb : spec_float -> spec_float -> bool := SFltb.
Definition valid : spec_float -> bool := valid_binary prec emax.

Definition one : spec_float := S754_finite false 8388608 (-23).
Definition minus_one : spec_float := S754_finite true 8388608 (-23).
(** [32767.0f] *)
Definition c32767 : spec_float := S754_finite false 16776704 (-9).

(** The float stored in a 32-bit word (sign, 8 exponent bits, 23 fraction
    bits), as [*(float* )p] reads it. *)
Definition of_bits (w : Z) : spec_float :=
  let s := Z.testbit w 31 in
  let e := Z.land (Z.shiftr w 23) 255 in
  let f := Z.land w 8388607 in
  if e =? 0 then
    match f with
    | Z.pos m => S754_finite s m (-149)
    | _ => S754_zero s
    end
  else if e =? 255 then
    (if f =? 0 then S754_infinity s else S754_nan)
  else
    match f + 8388608 with
    | Z.pos m => S754_finite s m (e - 150)
    | _ => S754_nan
    end.
End F32.

Module F64.
Definition prec : Z := 53.
Definition emax : Z := 1024.
Definition of_Z (z : Z) : spec_float := binary_normalize prec emax z 0 false.
Definition add : spec_float -> spec_float -> spec_float := SFadd prec emax.
Definition sub : spec_float -> spec_float -> spec_float := SFsub prec emax.
Definition mul : spec_float -> spec_float -> spec_float := SFmul prec emax.
Definition div : spec_float -> spec_float -> spec_float := SFdiv prec emax.

(** [1.0] *)
Definition one : spec_float := S754_finite false 4503599627370496 (-52).
End F64.

(* ===================================================================== *)
(** * Vectors and counted loops *)
(* ===================================================================== *)

(** [v.resize(n)] on an empty vector of integers: [n] zeroes. *)
Definition resize0 (n : nat) : list Z := replicate n 0.

(** [for (i = 0; i < n; i++) v[i] = f(i);] *)
Definition fill_loop {A} (f : nat -> A) (n : nat) (v : list A) : list A :=
  foldl (fun v i => <[i := f i]> v) v (seq 0 n).

(** The same loop when evaluating [f(i)] may be undefined: the first
    undefined iteration makes the whole loop undefined. *)
Definition fill_loop_opt {A} (f : nat -> option A) (n : nat) (v : list A)
  : option (list A) :=
  foldl (fun ov i => v ← ov; x ← f i; Some (<[i := x]> v)) (Some v) (seq 0 n).

(* ===================================================================== *)
(** * audio_capture.cpp *)
(* ===================================================================== *)

Module AudioCapture.

(** ** Windows SDK constants and types used by the file *)

(** [mmreg.h]: the format tags. *)
Definition WAVE_FORMAT_PCM : Z := 1.
Definition WAVE_FORMAT_IEEE_FLOAT : Z := 3.
Definition WAVE_FORMAT_EXTENSIBLE : Z := 65534.

(** [audioclient.h]: the flag of a packet that carries silence. *)
Definition AUDCLNT_BUFFERFLAGS_SILENT : Z := 2.

(** Sub-format of a [WAVEFORMATEXTENSIBLE] (its [SubFormat] GUID). *)
Inductive subformat :=
| KSDATAFORMAT_SUBTYPE_PCM
| KSDATAFORMAT_SUBTYPE_IEEE_FLOAT
| KSDATAFORMAT_SUBTYPE_other (guid : Z).

(** [WAVEFORMATEX], with the sub-format that follows it in memory when the
    tag is [WAVE_FORMAT_EXTENSIBLE]. *)
Record WAVEFORMATEX := {
  wFormatTag : Z;
  nChannels : Z;
  nSamplesPerSec : Z;
  wBitsPerSample : Z;
  SubFormat : subformat
}.

Definition HRESULT := Z.
Definition FAILED (hr : HRESULT) : bool := hr <? 0.
Definition S_OK : HRESULT := 0.

(** What [IAudioCaptureClient::GetBuffer] hands out: the frame count, the
    flags, and the memory [data] points to, given as the byte found at each
    offset from the pointer. *)
Record packet := {
  numFramesAvailable : Z;
  data : nat -> byte;
  flags : Z
}.

(** [flags & AUDCLNT_BUFFERFLAGS_SILENT] *)
Definition silent (p : packet) : bool :=
  negb (Z.land (flags p) AUDCLNT_BUFFERFLAGS_SILENT =? 0).

(** ** Sample conversion (in [CaptureThread], lines 194-216) *)

(** [floatData[i]] for [float* floatData = (float* )data]. *)
Definition floatData (d : nat -> byte) (i : nat) : spec_float :=
  F32.of_bits (le_combine [d (4 * i)%nat; d (4 * i + 1)%nat;
                           d (4 * i + 2)%nat; d (4 * i + 3)%nat]).

(** [pcmData[i]] for [int16_t* pcmData = (int16_t* )data]. *)
Definition pcmData (d : nat -> byte) (i : nat) : Z :=
  Int.to_int16 (le_combine [d (2 * i)%nat; d (2 * i + 1)%nat]).

(** [if (sample > 1.0f) sample = 1.0f; if (sample < -1.0f) sample = -1.0f;] *)
Definition clamp (sample : spec_float) : spec_float :=
  let sample := if F32.ltb F32.one sample then F32.one else sample in
  let sample := if F32.ltb sample F32.minus_one then F32.minus_one else sample in
  sample.

(** [(int16_t)(sample * 32767.0f)] after the clamp.  [None]: the conversion
    is undefined (the product is not a number). *)
Definition float_to_int16 (sample : spec_float) : option Z :=
  SF_to_int16 (F32.mul (clamp sample) F32.c32767).

(** [int numSamples = numFramesAvailable * m_channels;] with
    [UINT32 numFramesAvailable] and [int m_channels]: the product is taken
    in [unsigned int] and converted to [int]. *)
Definition numSamples (frames channels : Z) : Z :=
  Int.to_int32 (Int.to_uint32 (Int.to_uint32 frames * Int.to_uint32 channels)).

Section Capture.

(** The [int16_t] that converting a not-a-number yields on the machine at
    hand; C++ does not define it. *)
Variable indefinite : Z.

Definition float_sample (d : nat -> byte) (i : nat) : Z :=
  default (Int.to_int16 indefinite) (float_to_int16 (floatData d i)).

(** [samples.resize(numSamples)] on the empty [samples], with
    [int numSamples]: the count is converted to [size_type], so that a
    negative one (the product having reached 2^31) is a count above
    [max_size()] and [resize] throws [std::length_error].  [None]: the
    exception.  (Running out of memory is not modelled.) *)
Definition resize (numSamples : Z) : option (list Z) :=
  if numSamples <? 0 then None else Some (resize0 (Z.to_nat numSamples)).

(** The float branch: [samples.resize(numSamples)] and the loop over it. *)
Definition convert_float (d : nat -> byte) (n : Z) : option (list Z) :=
  samples ← resize n;
  Some (fill_loop (float_sample d) (Z.to_nat n) samples).

(** The 16-bit branch: [samples.assign(pcmData, pcmData + numSamples)].
    With a negative [numSamples] the range has a negative length, which
    the library takes as a count above [max_size()]: it throws
    [std::length_error] as well. *)
Definition convert_pcm16 (d : nat -> byte) (n : Z) : option (list Z) :=
  if n <? 0 then None else Some (map (pcmData d) (seq 0 (Z.to_nat n))).

(** The [std::vector<int16_t> samples] built for one packet; [None] when
    building it throws. *)
Definition convert (fmt : WAVEFORMATEX) (channels : Z) (p : packet)
  : option (list Z) :=
  if (wFormatTag fmt =? WAVE_FORMAT_IEEE_FLOAT)
     || (wFormatTag fmt =? WAVE_FORMAT_EXTENSIBLE) then
    convert_float (data p) (numSamples (numFramesAvailable p) channels)
  else if wBitsPerSample fmt =? 16 then
    convert_pcm16 (data p) (numSamples (numFramesAvailable p) channels)
  else Some [].

(** ** The object and its methods *)

(** The object the callback's closure captured, of type [Host]. *)
Context {Host : Type}.

(** [AudioDataCallback]: samples, sample rate, channels. *)
Definition AudioDataCallback : Type := list Z -> Z -> Z -> Host -> Host.

(** The members of [AudioCapture] the methods below use.  An interface
    pointer is [true] when it is not null; [m_captureThread] is [true] when
    the thread is joinable. *)
Record AudioCapture := {
  m_audioClient : bool;
  m_captureClient : bool;
  m_waveFormat : WAVEFORMATEX;
  m_isCapturing : bool;
  m_captureThread : bool;
  m_callback : option AudioDataCallback;
  m_sampleRate : Z;
  m_channels : Z;
  m_lastError : string
}.

Definition set_lastError (s : string) (c : AudioCapture) : AudioCapture :=
  {| m_audioClient := m_audioClient c; m_captureClient := m_captureClient c;
     m_waveFormat := m_waveFormat c; m_isCapturing := m_isCapturing c;
     m_captureThread := m_captureThread c; m_callback := m_callback c;
     m_sampleRate := m_sampleRate c; m_channels := m_channels c;
     m_lastError := s |}.

Definition set_isCapturing (b : bool) (c : AudioCapture) : AudioCapture :=
  {| m_audioClient := m_audioClient c; m_captureClient := m_captureClient c;
     m_waveFormat := m_waveFormat c; m_isCapturing := b;
     m_captureThread := m_captureThread c; m_callback := m_callback c;
     m_sampleRate := m_sampleRate c; m_channels := m_channels c;
     m_lastError := m_lastError c |}.

Definition set_callback (cb : AudioDataCallback) (c : AudioCapture) : AudioCapture :=
  {| m_audioClient := m_audioClient c; m_captureClient := m_captureClient c;
     m_waveFormat := m_waveFormat c; m_isCapturing := m_isCapturing c;
     m_captureThread := m_captureThread c; m_callback := Some cb;
     m_sampleRate := m_sampleRate c; m_channels := m_channels c;
     m_lastError := m_lastError c |}.

Definition set_captureThread (b : bool) (c : AudioCapture) : AudioCapture :=
  {| m_audioClient := m_audioClient c; m_captureClient := m_captureClient c;
     m_waveFormat := m_waveFormat c; m_isCapturing := m_isCapturing c;
     m_captureThread := b; m_callback := m_callback c;
     m_sampleRate := m_sampleRate c; m_channels := m_channels c;
     m_lastError := m_lastError c |}.

Definition IsCapturing (c : AudioCapture) : bool := m_isCapturing c.
Definition GetLastError (c : AudioCapture) : string := m_lastError c.

(** [bool AudioCapture::Start(AudioDataCallback callback)].  [client_start]
    is what [m_audioClient->Start()] returns if the call is reached. *)
Definition Start (callback : AudioDataCallback) (client_start : HRESULT)
    (c : AudioCapture) : bool * AudioCapture :=
  if m_isCapturing c then
    (false, set_lastError "Already capturing" c)
  else if negb (m_audioClient c) then
    (false, set_lastError "Audio client not initialized" c)
  else
    let c := set_isCapturing true (set_callback callback c) in
    if FAILED client_start then
      (false, set_lastError "Failed to start audio client" (set_isCapturing false c))
    else
      (true, set_captureThread true c).

(** ** The capture thread *)

(** The world the thread runs in: the capture client's three calls, the
    passing of time in [Sleep], and what a read of the atomic
    [m_isCapturing] returns (another thread clears it in [Stop]). *)
Context {World : Type}.

Record Session := {
  GetNextPacketSize : World -> HRESULT * Z * World;
  GetBuffer : World -> HRESULT * packet * World;
  ReleaseBuffer : Z -> World -> HRESULT * World;
  Sleep : Z -> World -> World;
  read_isCapturing : World -> bool
}.

Variable session : Session.

(** Lines 193-221: convert the packet and hand it to the callback.
    [None]: the conversion threw.  (The lines are reached through a
    [m_captureClient] that is not null, and [m_waveFormat] is not null
    wherever that is: [InitializeWASAPI] sets it first, [Cleanup] clears
    both.) *)
Definition process_packet (c : AudioCapture) (p : packet) (h : Host)
  : option Host :=
  match m_callback c with
  | Some callback =>
      if 0 <? numFramesAvailable p then
        samples ← convert (m_waveFormat c) (m_channels c) p;
        if negb (bool_decide (samples = [])) && negb (silent p) then
          Some (callback samples (m_sampleRate c) (m_channels c) h)
        else Some h
      else Some h
  | None => Some h
  end.

(** Where the thread stands, with the object, the host data and the world
    at that moment:
    - [Polling]: at the test of the outer loop, [while (m_isCapturing)];
    - [Draining]: at the test of the inner loop,
      [while (packetLength != 0)], with the value of [packetLength];
    - [Exited]: [CaptureThread] has returned;
    - [Terminated]: an exception has left the thread function, which
      nothing catches: [std::terminate] ends the process;
    - [Undefined]: the thread has dereferenced a null [m_captureClient]. *)
Inductive thread_state :=
| Polling (c : AudioCapture) (h : Host) (w : World)
| Draining (c : AudioCapture) (packetLength : Z) (h : Host) (w : World)
| Exited (c : AudioCapture) (h : Host) (w : World)
| Terminated (c : AudioCapture) (h : Host) (w : World)
| Undefined (c : AudioCapture) (h : Host) (w : World).

(** One turn of a loop of [CaptureThread]: from the test of the outer loop
    to the first test of the inner one, or one iteration of the inner
    loop.  Every [break] in the inner loop leaves that loop only, for the
    [Sleep(10)] that follows it. *)
Definition step (t : thread_state) : thread_state :=
  match t with
  | Polling c h w =>
      if negb (read_isCapturing session w) then Exited c h w else
      if negb (m_captureClient c) then Undefined c h w else
      let '(hr, packetLength, w) := GetNextPacketSize session w in
      if FAILED hr then Exited c h w else
      Draining c packetLength h w
  | Draining c packetLength h w =>
      if packetLength =? 0 then Polling c h (Sleep session 10 w) else
      let '(hr, p, w) := GetBuffer session w in
      if FAILED hr then Polling c h (Sleep session 10 w) else
      match process_packet c p h with
      | None => Terminated c h w
      | Some h =>
          let '(hr, w) := ReleaseBuffer session (numFramesAvailable p) w in
          if FAILED hr then Polling c h (Sleep session 10 w) else
          let '(hr, packetLength, w) := GetNextPacketSize session w in
          if FAILED hr then Polling c h (Sleep session 10 w) else
          Draining c packetLength h w
      end
  | Exited _ _ _ | Terminated _ _ _ | Undefined _ _ _ => t
  end.

Fixpoint run (fuel : nat) (t : thread_state) : thread_state :=
  match fuel with
  | O => t
  | S fuel => run fuel (step t)
  end.

(** [void AudioCapture::CaptureThread()]: where the thread stands after
    [fuel] turns of its loops. *)
Definition CaptureThread (fuel : nat) (c : AudioCapture) (h : Host) (w : World)
  : thread_state :=
  run fuel (Polling c h w).

(** The packet that [GetBuffer] hands out in the turn taken from [t], if
    that turn calls it and the call succeeds. *)
Definition delivery (t : thread_state) : option packet :=
  match t with
  | Draining c packetLength h w =>
      if packetLength =? 0 then None else
      let '(hr, p, _) := GetBuffer session w in
      if FAILED hr then None else Some p
  | _ => None
  end.

(** The packets handed out during the first [fuel] turns from [t], in the
    order of their delivery. *)
Fixpoint deliveries (fuel : nat) (t : thread_state) : list packet :=
  match fuel with
  | O => []
  | S fuel => option_list (delivery t) ++ deliveries fuel (step t)
  end.

(** The object and the host data the thread has reached. *)
Definition thread_capture (t : thread_state) : AudioCapture :=
  match t with
  | Polling c _ _ | Draining c _ _ _ | Exited c _ _
  | Terminated c _ _ | Undefined c _ _ => c
  end.

Definition thread_host (t : thread_state) : Host :=
  match t with
  | Polling _ h _ | Draining _ _ h _ | Exited _ h _
  | Terminated _ h _ | Undefined _ h _ => h
  end.

Definition has_exited (t : thread_state) : bool :=
  match t with Exited _ _ _ => true | _ => false end.

End Capture.

Arguments AudioCapture : clear implicits.
Arguments AudioDataCallback : clear implicits.
Arguments Session : clear implicits.
Arguments thread_state : clear implicits.

End AudioCapture.

(* ===================================================================== *)
(** * wasapi_loopback.cpp *)
(* ===================================================================== *)

Module WasapiLoopback.

(** ** The object *)

(** The members the capture callback writes: [m_audioBuffer],
    [m_capturedSampleRate] and [m_capturedChannels] (guarded by
    [m_bufferMutex]). *)
Record Accumulation := {
  m_audioBuffer : list Z;
  m_capturedSampleRate : Z;
  m_capturedChannels : Z
}.

Record WasapiLoopback := {
  m_capture : AudioCapture.AudioCapture Accumulation;
  m_accumulation : Accumulation
}.

(** [m_audioBuffer.clear()] *)
Definition clear (a : Accumulation) : Accumulation :=
  {| m_audioBuffer := [];
     m_capturedSampleRate := m_capturedSampleRate a;
     m_capturedChannels := m_capturedChannels a |}.

(** The lambda passed to [m_capture->Start] (lines 81-86). *)
Definition accumulate : AudioCapture.AudioDataCallback Accumulation :=
  fun samples sampleRate channels a =>
    {| m_audioBuffer := m_audioBuffer a ++ samples;
       m_capturedSampleRate := sampleRate;
       m_capturedChannels := channels |}.

(** [Napi::Value WasapiLoopback::Start]: the returned boolean and the
    object afterwards. *)
Definition Start (client_start : AudioCapture.HRESULT) (l : WasapiLoopback)
  : bool * WasapiLoopback :=
  let a := clear (m_accumulation l) in
  let '(result, c) := AudioCapture.Start accumulate client_start (m_capture l) in
  (result, {| m_capture := c; m_accumulation := a |}).

(** ** Export: downmix *)

(** Lines 150-156: [monoSamples.resize(samples.size() / 2)] and the loop;
    [left] and [right] are [int32_t]. *)
Definition downmix (samples : list Z) : list Z :=
  let n := (length samples / 2)%nat in
  fill_loop
    (fun i =>
       let left := Int.to_int32 (samples !!! (i * 2)%nat) in
       let right := Int.to_int32 (samples !!! (i * 2 + 1)%nat) in
       Int.to_int16 (Z.quot (Int.to_int32 (left + right)) 2))
    n (resize0 n).

Definition monoSamples (sourceChannels : Z) (samples : list Z) : list Z :=
  if sourceChannels =? 2 then downmix samples else samples.

(** ** Export: resampling *)

(** The body of the loop at lines 169-182 for one index [i], every
    operation rounded on its own (no fused multiply-add).  [None]: an
    undefined conversion or a read past the end of [monoSamples]. *)
Definition resample_at (ratio : spec_float) (mono : list Z) (i : nat) : option Z :=
  let srcIndex := F64.mul (F64.of_Z (Z.of_nat i)) ratio in
  srcIndexInt ← SF_to_size_t srcIndex;
  let frac := F64.sub srcIndex (F64.of_Z (Z.of_nat srcIndexInt)) in
  if (srcIndexInt + 1 <? length mono)%nat then
    a ← mono !! srcIndexInt;
    b ← mono !! (srcIndexInt + 1)%nat;
    SF_to_int16 (F64.add (F64.mul (F64.of_Z a) (F64.sub F64.one frac))
                         (F64.mul (F64.of_Z b) frac))
  else mono !! srcIndexInt.

(** [double ratio = (double)sourceSampleRate / targetSampleRate;] *)
Definition ratio (sourceSampleRate targetSampleRate : Z) : spec_float :=
  F64.div (F64.of_Z sourceSampleRate) (F64.of_Z targetSampleRate).

(** [size_t newSize = (size_t)(monoSamples.size() / ratio);] *)
Definition newSize (r : spec_float) (mono : list Z) : option nat :=
  SF_to_size_t (F64.div (F64.of_Z (Z.of_nat (length mono))) r).

(** Lines 162-185. *)
Definition resample (sourceSampleRate targetSampleRate : Z) (mono : list Z)
  : option (list Z) :=
  if negb (sourceSampleRate =? targetSampleRate) then
    let r := ratio sourceSampleRate targetSampleRate in
    n ← newSize r mono;
    fill_loop_opt (resample_at r mono) n (resize0 n)
  else Some mono.

(** ** Export: the WAV container *)

(** [file.write((char* )&x, n)] for an integer [x] of [n] bytes, on the
    little-endian machines Windows runs on. *)
Definition write_int (n : nat) (x : Z) : list byte := le_split n x.

Definition write_tag (s : string) : list byte := list_byte_of_string s.

(** [uint32_t dataSize = resampledSamples.size() * sizeof(int16_t);] *)
Definition dataSize (resampled : list Z) : Z :=
  Int.to_uint32 (Z.of_nat (length resampled) * 2).

(** The 44 bytes written at lines 194-221. *)
Definition wav_header (resampled : list Z) (targetSampleRate : Z) : list byte :=
  let fileSize := Int.to_uint32 (36 + dataSize resampled) in
  let audioFormat := Int.to_uint16 1 in
  let numChannels := Int.to_uint16 1 in
  let sampleRate := Int.to_uint32 targetSampleRate in
  let byteRate := Int.to_uint32 (sampleRate * numChannels * 2) in
  let blockAlign := Int.to_uint16 (numChannels * 2) in
  let bitsPerSample := Int.to_uint16 16 in
  let fmtChunkSize := Int.to_uint32 16 in
  write_tag "RIFF" ++ write_int 4 fileSize ++ write_tag "WAVE" ++
  write_tag "fmt " ++ write_int 4 fmtChunkSize ++
  write_int 2 audioFormat ++ write_int 2 numChannels ++
  write_int 4 sampleRate ++ write_int 4 byteRate ++
  write_int 2 blockAlign ++ write_int 2 bitsPerSample ++
  write_tag "data" ++ write_int 4 (dataSize resampled).

(** [file.write((char* )resampledSamples.data(), dataSize)]: the first
    [dataSize] bytes of the vector's storage. *)
Definition wav_data (resampled : list Z) : list byte :=
  take (Z.to_nat (dataSize resampled)) (flat_map (write_int 2) resampled).

Definition wav_file (resampled : list Z) (targetSampleRate : Z) : list byte :=
  wav_header resampled targetSampleRate ++ wav_data resampled.

(** ** Export: [SaveToWav] *)

(** A JavaScript argument: a string, a number (given by its
    [Int32Value()]), or anything else. *)
Inductive js_value :=
| JsString (s : string)
| JsNumber (int32 : Z)
| JsOther.

(** What the method returns to JavaScript: a boolean, or [null] with a
    pending [TypeError]. *)
Inductive napi_value :=
| Boolean (b : bool)
| Null_TypeError (message : string).

(** The files, and whether [std::ofstream file(path, std::ios::binary)]
    opens a given path. *)
Record FileSystem := {
  opens : string -> bool;
  files : gmap string (list byte)
}.

Definition write_file (path : string) (content : list byte) (fs : FileSystem)
  : FileSystem :=
  {| opens := opens fs; files := <[path := content]> (files fs) |}.

(** [Napi::Value WasapiLoopback::SaveToWav]: the returned value, the object
    and the files afterwards.  [None]: the resampling ran into undefined
    behaviour. *)
Definition SaveToWav (info : list js_value) (fs : FileSystem) (l : WasapiLoopback)
  : option (napi_value * WasapiLoopback * FileSystem) :=
  match info with
  | JsString filePath :: rest =>
      let targetSampleRate :=
        match rest with
        | JsNumber v :: _ => v
        | _ => 16000
        end in
      (* the critical section: snapshot, then clear *)
      let samples := m_audioBuffer (m_accumulation l) in
      let sourceSampleRate := m_capturedSampleRate (m_accumulation l) in
      let sourceChannels := m_capturedChannels (m_accumulation l) in
      let l := {| m_capture := m_capture l;
                  m_accumulation := clear (m_accumulation l) |} in
      if bool_decide (samples = []) then Some (Boolean false, l, fs) else
      let mono := monoSamples sourceChannels samples in
      resampled ← resample sourceSampleRate targetSampleRate mono;
      if negb (opens fs filePath) then Some (Boolean false, l, fs) else
      Some (Boolean true, l,
            write_file filePath (wav_file resampled targetSampleRate) fs)
  | _ => Some (Null_TypeError "String expected for file path", l, fs)
  end.

End WasapiLoopback.

(* ===================================================================== *)
(** * A scripted capture session *)
(* ===================================================================== *)

Module Demo.
Import AudioCapture.

(** [AUDCLNT_E_DEVICE_INVALIDATED] *)
Definition E_DEVICE_INVALIDATED : HRESULT := -2004287484.

Definition bytes (l : list Z) : nat -> byte := fun i => byte.of_Z (nth i l 0).

(** One stereo frame of 16-bit samples, [7] and [9]. *)
Definition frame_7_9 : packet :=
  {| numFramesAvailable := 1; data := bytes [7; 0; 9; 0]; flags := 0 |}.

(** A session whose world is the number of calls made so far.  The first
    poll announces a packet, but [GetBuffer] fails (call 1); the next poll
    announces a packet again, which is delivered and released (calls 2 to
    4); then the queue is empty (call 5) and [Stop] clears [m_isCapturing]. *)
Definition session : Session nat :=
  {| GetNextPacketSize := fun w => (S_OK, if (w =? 5)%nat then 0 else 1, S w);
     GetBuffer := fun w =>
       (if (w =? 1)%nat then E_DEVICE_INVALIDATED else S_OK, frame_7_9, S w);
     ReleaseBuffer := fun _ w => (S_OK, S w);
     Sleep := fun _ w => w;
     read_isCapturing := fun w => (w <? 6)%nat |}.

(** A device that has been lost while capture is still requested: every
    poll announces a packet, and every [GetBuffer] fails. *)
Definition lost_device : Session nat :=
  {| GetNextPacketSize := fun w => (S_OK, 1, S w);
     GetBuffer := fun w => (E_DEVICE_INVALIDATED, frame_7_9, S w);
     ReleaseBuffer := fun _ w => (S_OK, S w);
     Sleep := fun _ w => w;
     read_isCapturing := fun _ => true |}.

(** One stereo frame of 32-bit floats, [0.75f] and [-1.0f]
    ([3F400000] and [BF800000], least significant byte first). *)
Definition frame_floats : packet :=
  {| numFramesAvailable := 1;
     data := bytes [0; 0; 64; 63; 0; 0; 128; 191];
     flags := 0 |}.

Definition pcm16_stereo : WAVEFORMATEX :=
  {| wFormatTag := WAVE_FORMAT_PCM; nChannels := 2; nSamplesPerSec := 48000;
     wBitsPerSample := 16; SubFormat := KSDATAFORMAT_SUBTYPE_PCM |}.

(** An extensible descriptor whose sub-format is 16-bit signed PCM. *)
Definition extensible_pcm16 : WAVEFORMATEX :=
  {| wFormatTag := WAVE_FORMAT_EXTENSIBLE; nChannels := 2; nSamplesPerSec := 48000;
     wBitsPerSample := 16; SubFormat := KSDATAFORMAT_SUBTYPE_PCM |}.

(** An initialized object right after a successful [Start]. *)
Definition capturing (fmt : WAVEFORMATEX)
  : AudioCapture WasapiLoopback.Accumulation :=
  {| m_audioClient := true; m_captureClient := true; m_waveFormat := fmt;
     m_isCapturing := true; m_captureThread := true;
     m_callback := Some WasapiLoopback.accumulate;
     m_sampleRate := nSamplesPerSec fmt; m_channels := nChannels fmt;
     m_lastError := EmptyString |}.

Definition buffer (samples : list Z) (rate channels : Z)
  : WasapiLoopback.Accumulation :=
  {| WasapiLoopback.m_audioBuffer := samples;
     WasapiLoopback.m_capturedSampleRate := rate;
     WasapiLoopback.m_capturedChannels := channels |}.

(** A running capture that has accumulated [samples]. *)
Definition loopback (samples : list Z) : WasapiLoopback.WasapiLoopback :=
  {| WasapiLoopback.m_capture := capturing pcm16_stereo;
     WasapiLoopback.m_accumulation := buffer samples 48000 1 |}.

(** A disk on which no file can be opened for writing. *)
Definition read_only : WasapiLoopback.FileSystem :=
  {| WasapiLoopback.opens := fun _ => false; WasapiLoopback.files := ∅ |}.

Definition writable : WasapiLoopback.FileSystem :=
  {| WasapiLoopback.opens := fun _ => true; WasapiLoopback.files := ∅ |}.

End Demo.

(* ===================================================================== *)
(** * The specification's reference formulas *)
(* ===================================================================== *)

(** The [n] bytes of a file at offset [off]. *)
Definition bytes_at (off n : nat) (file : list byte) : list byte :=
  take n (drop off file).

(** The unsigned little-endian integer in the [n] bytes at offset [off]. *)
Definition uint_at (off n : nat) (file : list byte) : Z :=
  le_combine (bytes_at off n file).

Module Spec.

(** Downmix as the specification words it: for stereo input
    [(L0,R0), (L1,R1), ...] the mono output is
    [(L0+R0)/2, (L1+R1)/2, ...], each quotient truncated. *)
Fixpoint downmix (samples : list Z) : list Z :=
  match samples with
  | l :: r :: rest => Z.quot (l + r) 2 :: downmix rest
  | _ => []
  end.

(** The resampler's output length as the specification words it, over the
    real numbers: [floor(inputLength / ratio)] with
    [ratio = sourceRate / targetRate]. *)
Definition resample_length (inputLength : nat) (sourceRate targetRate : Z) : Z :=
  Qfloor (inject_Z (Z.of_nat inputLength)
          / (inject_Z sourceRate / inject_Z targetRate))%Q.

(** The blend of two neighbouring samples as the specification words it,
    [input[idx] * (1 - frac) + input[idx+1] * frac], each operation in
    double precision. *)
Definition blend (a b : Z) (frac : spec_float) : spec_float :=
  F64.add (F64.mul (F64.of_Z a) (F64.sub F64.one frac))
          (F64.mul (F64.of_Z b) frac).

(** Loop termination as the specification words it, for the retrieval of a
    packet: once [GetBuffer] fails the capture thread terminates, with
    what was accumulated before the fault, and the last-error message has
    changed to report it. *)
Definition retrieval_failure_terminates {Host World : Type} (indefinite : Z)
    (session : AudioCapture.Session World) : Prop :=
  forall (c : AudioCapture.AudioCapture Host) (h : Host) (w : World),
    AudioCapture.m_captureClient c = true ->
    AudioCapture.read_isCapturing session w = true ->
    let '(hr, packetLength, w1) := AudioCapture.GetNextPacketSize session w in
    let '(hr', _, w2) := AudioCapture.GetBuffer session w1 in
    AudioCapture.FAILED hr = false -> packetLength <> 0 ->
    AudioCapture.FAILED hr' = true ->
    exists fuel c',
      AudioCapture.CaptureThread indefinite session fuel c h w
      = AudioCapture.Exited c' h w2
      /\ AudioCapture.GetLastError c' <> AudioCapture.GetLastError c.

(** A 32-bit IEEE-754 float as the standard lays it out, read from four
    bytes, least significant first: the sign is the top bit of the last
    byte, the exponent the eight bits below it, the fraction the remaining
    23 bits; the value is [(-1)^sign * 2^(exponent-127) * (1 + fraction /
    2^23)], or [(-1)^sign * 2^(-126) * (fraction / 2^23)] when the exponent
    field is zero, an infinity or a NaN when it is 255. *)
Definition binary32 (b0 b1 b2 b3 : byte) : spec_float :=
  let sign := 128 <=? byte.unsigned b3 in
  let exponent := (byte.unsigned b3 mod 128) * 2 + byte.unsigned b2 / 128 in
  let fraction :=
    (byte.unsigned b2 mod 128) * 65536 + byte.unsigned b1 * 256 + byte.unsigned b0 in
  if exponent =? 0 then
    (if fraction =? 0 then S754_zero sign
     else S754_finite sign (Z.to_pos fraction) (-149))
  else if exponent =? 255 then
    (if fraction =? 0 then S754_infinity sign else S754_nan)
  else S754_finite sign (Z.to_pos (8388608 + fraction)) (exponent - 150).

(** The container as the specification words it: a 44-byte header, "RIFF",
    the little-endian [fileSize = 36 + dataByteCount], "WAVE", the "fmt "
    sub-chunk (size 16, audioFormat 1, numChannels 1, sampleRate, byteRate =
    sampleRate * 2, blockAlign 2, bitsPerSample 16) and the "data" sub-chunk
    (size = sampleCount * 2) followed by the raw little-endian 16-bit
    samples. *)
Definition canonical_wav (samples : list Z) (sampleRate : Z) (file : list byte)
  : Prop :=
  let n := Z.of_nat (length samples) in
  length file = (44 + 2 * length samples)%nat
  /\ bytes_at 0 4 file = list_byte_of_string "RIFF"
  /\ uint_at 4 4 file = 36 + 2 * n
  /\ bytes_at 8 4 file = list_byte_of_string "WAVE"
  /\ bytes_at 12 4 file = list_byte_of_string "fmt "
  /\ uint_at 16 4 file = 16
  /\ uint_at 20 2 file = 1
  /\ uint_at 22 2 file = 1
  /\ uint_at 24 4 file = sampleRate
  /\ uint_at 28 4 file = sampleRate * 2
  /\ uint_at 32 2 file = 2
  /\ uint_at 34 2 file = 16
  /\ bytes_at 36 4 file = list_byte_of_string "data"
  /\ uint_at 40 4 file = 2 * n
  /\ (forall i x, samples !! i = Some x ->
        bytes_at (44 + 2 * i) 2 file = le_split 2 x)
  /\ drop 44 file = flat_map (le_split 2) samples.

End Spec.

(* ===================================================================== *)
(** * audio_capture.cpp: initialization, stop and cleanup *)
(* ===================================================================== *)

Module Lifecycle.
Import AudioCapture.

(** The members of [AudioCapture] that only [InitializeWASAPI] and
    [Cleanup] touch; a pointer is [true] when it is not null. *)
Record Interfaces := {
  m_deviceEnumerator : bool;
  m_device : bool;
  m_waveFormat_allocated : bool;
  m_bufferFrameCount : Z
}.

(** What the audio subsystem answers to the calls of [InitializeWASAPI],
    in the order the function makes them.  A call that fails leaves its
    out-pointer null, as the COM contract of each says;
    [GetBufferSize] that fails leaves [m_bufferFrameCount] as it was. *)
Record Endpoint := {
  hr_CoCreateInstance : HRESULT;
  hr_GetDefaultAudioEndpoint : HRESULT;
  hr_Activate : HRESULT;
  hr_GetMixFormat : HRESULT;
  mixFormat : WAVEFORMATEX;
  hr_Initialize : HRESULT;
  hr_GetBufferSize : HRESULT;
  bufferSize : Z;
  hr_GetService : HRESULT
}.

Section Object.
Context {Host : Type}.

(** The whole object: the members used by [Start] and the thread, and the
    rest. *)
Definition Object : Type := (AudioCapture Host * Interfaces)%type.

Definition set_audioClient (b : bool) (c : AudioCapture Host) : AudioCapture Host :=
  {| m_audioClient := b; m_captureClient := m_captureClient c;
     m_waveFormat := m_waveFormat c; m_isCapturing := m_isCapturing c;
     m_captureThread := m_captureThread c; m_callback := m_callback c;
     m_sampleRate := m_sampleRate c; m_channels := m_channels c;
     m_lastError := m_lastError c |}.

Definition set_captureClient (b : bool) (c : AudioCapture Host) : AudioCapture Host :=
  {| m_audioClient := m_audioClient c; m_captureClient := b;
     m_waveFormat := m_waveFormat c; m_isCapturing := m_isCapturing c;
     m_captureThread := m_captureThread c; m_callback := m_callback c;
     m_sampleRate := m_sampleRate c; m_channels := m_channels c;
     m_lastError := m_lastError c |}.

(** [GetMixFormat(&m_waveFormat)] that succeeded, followed by
    [m_sampleRate = m_waveFormat->nSamplesPerSec] (a [DWORD] stored in an
    [int]) and [m_channels = m_waveFormat->nChannels]. *)
Definition set_format (fmt : WAVEFORMATEX) (c : AudioCapture Host) : AudioCapture Host :=
  {| m_audioClient := m_audioClient c; m_captureClient := m_captureClient c;
     m_waveFormat := fmt; m_isCapturing := m_isCapturing c;
     m_captureThread := m_captureThread c; m_callback := m_callback c;
     m_sampleRate := Int.to_int32 (nSamplesPerSec fmt);
     m_channels := nChannels fmt;
     m_lastError := m_lastError c |}.

Definition set_deviceEnumerator (b : bool) (i : Interfaces) : Interfaces :=
  {| m_deviceEnumerator := b; m_device := m_device i;
     m_waveFormat_allocated := m_waveFormat_allocated i;
     m_bufferFrameCount := m_bufferFrameCount i |}.

Definition set_device (b : bool) (i : Interfaces) : Interfaces :=
  {| m_deviceEnumerator := m_deviceEnumerator i; m_device := b;
     m_waveFormat_allocated := m_waveFormat_allocated i;
     m_bufferFrameCount := m_bufferFrameCount i |}.

Definition set_waveFormat_allocated (b : bool) (i : Interfaces) : Interfaces :=
  {| m_deviceEnumerator := m_deviceEnumerator i; m_device := m_device i;
     m_waveFormat_allocated := b;
     m_bufferFrameCount := m_bufferFrameCount i |}.

Definition set_bufferFrameCount (n : Z) (i : Interfaces) : Interfaces :=
  {| m_deviceEnumerator := m_deviceEnumerator i; m_device := m_device i;
     m_waveFormat_allocated := m_waveFormat_allocated i;
     m_bufferFrameCount := n |}.

(** [std::to_string(hr)] for the [long] that an [HRESULT] is. *)
Definition to_string (hr : HRESULT) : string :=
  NilEmpty.string_of_int (Z.to_int hr).

(** [bool AudioCapture::InitializeWASAPI()] (lines 29-118). *)
Definition InitializeWASAPI (e : Endpoint) (o : Object) : bool * Object :=
  let '(c, i) := o in
  (* create device enumerator *)
  let i := set_deviceEnumerator (negb (FAILED (hr_CoCreateInstance e))) i in
  if FAILED (hr_CoCreateInstance e) then
    (false, (set_lastError "Failed to create device enumerator" c, i))
  else
  (* default render endpoint *)
  let i := set_device (negb (FAILED (hr_GetDefaultAudioEndpoint e))) i in
  if FAILED (hr_GetDefaultAudioEndpoint e) then
    (false, (set_lastError "Failed to get default audio endpoint" c, i))
  else
  (* activate audio client *)
  let c := set_audioClient (negb (FAILED (hr_Activate e))) c in
  if FAILED (hr_Activate e) then
    (false, (set_lastError "Failed to activate audio client" c, i))
  else
  (* mix format *)
  let i := set_waveFormat_allocated (negb (FAILED (hr_GetMixFormat e))) i in
  if FAILED (hr_GetMixFormat e) then
    (false, (set_lastError "Failed to get mix format" c, i))
  else
  let c := set_format (mixFormat e) c in
  (* initialize for loopback *)
  if FAILED (hr_Initialize e) then
    (false,
     (set_lastError
        ("Failed to initialize audio client for loopback. Error: "
         ++ to_string (hr_Initialize e)) c, i))
  else
  (* buffer size *)
  if FAILED (hr_GetBufferSize e) then
    (false, (set_lastError "Failed to get buffer size" c, i))
  else
  let i := set_bufferFrameCount (bufferSize e) i in
  (* capture client *)
  let c := set_captureClient (negb (FAILED (hr_GetService e))) c in
  if FAILED (hr_GetService e) then
    (false, (set_lastError "Failed to get capture client" c, i))
  else
    (true, (c, i)).

(** [bool AudioCapture::Initialize()] *)
Definition Initialize (e : Endpoint) (o : Object) : bool * Object :=
  InitializeWASAPI e o.

(** [void AudioCapture::Stop()]: the object after the call has returned,
    that is, after the thread has been joined and the audio client
    stopped. *)
Definition Stop (c : AudioCapture Host) : AudioCapture Host :=
  if negb (m_isCapturing c) then c
  else set_captureThread false (set_isCapturing false c).

(** [void AudioCapture::Cleanup()] *)
Definition Cleanup (o : Object) : Object :=
  let '(c, i) := o in
  (set_audioClient false (set_captureClient false c),
   set_waveFormat_allocated false
     (set_deviceEnumerator false (set_device false i))).

(** A newly constructed object: the default member initializers of
    [audio_capture.h]. *)
Definition fresh (fmt : WAVEFORMATEX) : Object :=
  ({| m_audioClient := false; m_captureClient := false; m_waveFormat := fmt;
      m_isCapturing := false; m_captureThread := false; m_callback := None;
      m_sampleRate := 0; m_channels := 0; m_lastError := EmptyString |},
   {| m_deviceEnumerator := false; m_device := false;
      m_waveFormat_allocated := false; m_bufferFrameCount := 0 |}).

End Object.

Arguments Object : clear implicits.

(** The packets whose samples reach the callback: some frames, and the
    silent flag clear. *)
Definition audible (p : packet) : bool :=
  (0 <? numFramesAvailable p) && negb (silent p).

(** An endpoint on which every call succeeds. *)
Definition healthy (fmt : WAVEFORMATEX) : Endpoint :=
  {| hr_CoCreateInstance := S_OK; hr_GetDefaultAudioEndpoint := S_OK;
     hr_Activate := S_OK; hr_GetMixFormat := S_OK; mixFormat := fmt;
     hr_Initialize := S_OK; hr_GetBufferSize := S_OK; bufferSize := 48000;
     hr_GetService := S_OK |}.

(** [AUDCLNT_E_UNSUPPORTED_FORMAT] from [IAudioClient::Initialize]. *)
Definition rejects_format (fmt : WAVEFORMATEX) : Endpoint :=
  {| hr_CoCreateInstance := S_OK; hr_GetDefaultAudioEndpoint := S_OK;
     hr_Activate := S_OK; hr_GetMixFormat := S_OK; mixFormat := fmt;
     hr_Initialize := -2004287480; hr_GetBufferSize := S_OK; bufferSize := 48000;
     hr_GetService := S_OK |}.

(** A session that always has a packet ready and never fails; only the
    very first read of [m_isCapturing] sees [true]. *)
Definition busy : Session nat :=
  {| GetNextPacketSize := fun w => (S_OK, 480, S w);
     GetBuffer := fun w => (S_OK, Demo.frame_7_9, S w);
     ReleaseBuffer := fun _ w => (S_OK, S w);
     Sleep := fun _ w => w;
     read_isCapturing := fun w => (w =? 0)%nat |}.

End Lifecycle.

(* ===================================================================== *)
(** * wasapi_loopback.cpp: the remaining methods *)
(* ===================================================================== *)

Module Loopback.
Import WasapiLoopback.

(** [WasapiLoopback::Stop]: [m_capture->Stop()]. *)
Definition Stop (l : WasapiLoopback) : WasapiLoopback :=
  {| m_capture := Lifecycle.Stop (m_capture l);
     m_accumulation := m_accumulation l |}.

(** [WasapiLoopback::IsCapturing], [GetLastError], [GetSampleRate] and
    [GetChannels]: what [m_capture] answers. *)
Definition IsCapturing (l : WasapiLoopback) : bool :=
  AudioCapture.IsCapturing (m_capture l).

Definition GetLastError (l : WasapiLoopback) : string :=
  AudioCapture.GetLastError (m_capture l).

Definition GetSampleRate (l : WasapiLoopback) : Z :=
  AudioCapture.m_sampleRate (m_capture l).

Definition GetChannels (l : WasapiLoopback) : Z :=
  AudioCapture.m_channels (m_capture l).

(** The object once the capture thread has brought the accumulated data
    to [a]. *)
Definition captured (a : Accumulation) (l : WasapiLoopback) : WasapiLoopback :=
  {| m_capture := m_capture l; m_accumulation := a |}.

(** A sequence of callback invocations, each with its samples, sample rate
    and channel count. *)
Definition accumulate_all (calls : list (list Z * Z * Z)) (a : Accumulation)
  : Accumulation :=
  foldl (fun a call => accumulate (fst (fst call)) (snd (fst call)) (snd call) a)
        a calls.

End Loopback.

(* ===================================================================== *)
(** * Facts about integers and loops *)
(* ===================================================================== *)

Lemma is_int16b_spec z : Int.is_int16b z = true <-> Int.is_int16 z.
Proof.
  unfold Int.is_int16b, Int.is_int16.
  rewrite andb_true_iff, !Z.leb_le. tauto.
Qed.

Lemma to_int16_id z : Int.is_int16 z -> Int.to_int16 z = z.
Proof.
  unfold Int.is_int16, Int.to_int16, Int.to_signed. intros Hz.
  change (2 ^ (16 - 1)) with 32768. change (2 ^ 16) with 65536.
  rewrite Z.mod_small by lia. lia.
Qed.

Lemma to_int32_id z : Int.is_int32 z -> Int.to_int32 z = z.
Proof.
  unfold Int.is_int32, Int.to_int32, Int.to_signed. intros Hz.
  change (2 ^ (32 - 1)) with 2147483648. change (2 ^ 32) with 4294967296.
  rewrite Z.mod_small by lia. lia.
Qed.

Lemma to_int16_range z : Int.is_int16 (Int.to_int16 z).
Proof.
  unfold Int.is_int16, Int.to_int16, Int.to_signed.
  change (2 ^ (16 - 1)) with 32768. change (2 ^ 16) with 65536.
  pose proof (Z.mod_pos_bound (z + 32768) 65536). lia.
Qed.

Lemma to_uint32_id z : 0 <= z < 4294967296 -> Int.to_uint32 z = z.
Proof. intros Hz. unfold Int.to_uint32, Int.to_unsigned. now apply Z.mod_small. Qed.

Section Loops.
Context {A : Type}.
Implicit Types (v : list A) (f : nat -> A) (g : nat -> option A).

(** Iterations [a, a+k) of the loop overwrite exactly that slice. *)
Lemma fill_from f k : forall a v,
  (a + k <= length v)%nat ->
  foldl (fun v i => <[i := f i]> v) v (seq a k)
  = take a v ++ map f (seq a k) ++ drop (a + k) v.
Proof.
  induction k as [|k IH]; intros a v Hlen; simpl.
  - rewrite Nat.add_0_r. now rewrite take_drop.
  - rewrite IH by (rewrite length_insert; lia).
    rewrite (take_S_r (<[a:=f a]> v) a (f a))
      by (apply list_lookup_insert_eq; lia).
    rewrite take_insert_ge by lia.
    rewrite drop_insert_lt by lia.
    rewrite <- app_assoc. simpl.
    now replace (a + S k)%nat with (S (a + k)) by lia.
Qed.

Lemma fill_loop_map f n v : length v = n -> fill_loop f n v = map f (seq 0 n).
Proof.
  intros Hlen. unfold fill_loop. rewrite fill_from by (simpl; lia).
  rewrite take_0, drop_ge by (simpl; lia). simpl. apply app_nil_r.
Qed.

Lemma foldl_undefined g (l : list nat) :
  foldl (fun ov i => v ← ov; x ← g i; Some (<[i := x]> v)) (@None (list A)) l
  = None.
Proof. induction l as [|i l IH]; simpl; auto. Qed.

Lemma fill_opt_from g k : forall a v,
  (a + k <= length v)%nat ->
  foldl (fun ov i => v ← ov; x ← g i; Some (<[i := x]> v)) (Some v) (seq a k)
  = xs ← mapM g (seq a k); Some (take a v ++ xs ++ drop (a + k) v).
Proof.
  induction k as [|k IH]; intros a v Hlen; simpl.
  - rewrite Nat.add_0_r. now rewrite take_drop.
  - destruct (g a) as [x|] eqn:Hga; simpl.
    + rewrite IH by (rewrite length_insert; lia).
      destruct (mapM g (seq (S a) k)) as [xs|]; simpl; [|reflexivity].
      rewrite (take_S_r (<[a:=x]> v) a x) by (apply list_lookup_insert_eq; lia).
      rewrite take_insert_ge by lia.
      rewrite drop_insert_lt by lia.
      rewrite <- app_assoc. simpl.
      now replace (a + S k)%nat with (S (a + k)) by lia.
    + apply foldl_undefined.
Qed.

Lemma fill_loop_opt_mapM g n v :
  length v = n -> fill_loop_opt g n v = mapM g (seq 0 n).
Proof.
  intros Hlen. unfold fill_loop_opt. rewrite fill_opt_from by (simpl; lia).
  destruct (mapM g (seq 0 n)) as [xs|]; simpl; [|reflexivity].
  rewrite drop_ge by lia. now rewrite app_nil_r.
Qed.

End Loops.

(* ===================================================================== *)
(** * Export: downmix *)
(* ===================================================================== *)

Lemma list_pair_ind {A} (P : list A -> Prop) :
  P [] -> (forall x, P [x]) -> (forall x y l, P l -> P (x :: y :: l)) ->
  forall l, P l.
Proof.
  intros Hnil Hone Hstep l.
  assert (H : P l /\ forall x, P (x :: l)).
  { induction l as [|y l [IH1 IH2]]; split; auto. }
  apply H.
Qed.

Lemma quot2_bounds z lo hi : 2 * lo <= z <= 2 * hi + 1 -> lo <= 0 <= hi ->
  lo <= Z.quot z 2 <= hi.
Proof.
  intros Hz Hlh. destruct (Z_le_gt_dec 0 z) as [Hpos|Hneg].
  - rewrite Z.quot_div_nonneg by lia.
    pose proof (Z.div_mod z 2). pose proof (Z.mod_pos_bound z 2). lia.
  - replace z with (- (- z)) by lia. rewrite Z.quot_opp_l by lia.
    rewrite Z.quot_div_nonneg by lia.
    pose proof (Z.div_mod (- z) 2). pose proof (Z.mod_pos_bound (- z) 2). lia.
Qed.

(** One iteration of the downmix loop on 16-bit inputs: neither the 32-bit
    sum nor the conversion back to 16 bits wraps. *)
Lemma downmix_step_exact l r : Int.is_int16 l -> Int.is_int16 r ->
  Int.to_int16 (Z.quot (Int.to_int32 (Int.to_int32 l + Int.to_int32 r)) 2)
  = Z.quot (l + r) 2.
Proof.
  unfold Int.is_int16. intros Hl Hr.
  rewrite (to_int32_id l), (to_int32_id r) by (unfold Int.is_int32; lia).
  rewrite to_int32_id by (unfold Int.is_int32; lia).
  apply to_int16_id. unfold Int.is_int16.
  apply quot2_bounds; lia.
Qed.

Lemma half_length_SS {A} (x y : A) l :
  (length (x :: y :: l) / 2 = S (length l / 2))%nat.
Proof.
  simpl length. replace (S (S (length l))) with (length l + 1 * 2)%nat by lia.
  rewrite Nat.div_add by lia. lia.
Qed.

Lemma downmix_unfold samples :
  WasapiLoopback.downmix samples
  = map (fun i =>
           Int.to_int16
             (Z.quot (Int.to_int32 (Int.to_int32 (samples !!! (i * 2)%nat)
                                    + Int.to_int32 (samples !!! (i * 2 + 1)%nat))) 2))
        (seq 0 (length samples / 2)).
Proof.
  unfold WasapiLoopback.downmix. apply fill_loop_map.
  unfold resize0. apply length_replicate.
Qed.

Lemma downmix_refines samples :
  Forall Int.is_int16 samples -> WasapiLoopback.downmix samples = Spec.downmix samples.
Proof.
  rewrite downmix_unfold. revert samples.
  refine (list_pair_ind _ _ _ _); [reflexivity|reflexivity|].
  intros l r rest IH Hall.
  inversion Hall as [|? ? Hl Hall']; subst.
  inversion Hall' as [|? ? Hr Hrest]; subst.
  rewrite half_length_SS. cbn [seq map Spec.downmix].
  f_equal.
  - change ((l :: r :: rest) !!! (0 * 2)%nat) with l.
    change ((l :: r :: rest) !!! (0 * 2 + 1)%nat) with r.
    now apply downmix_step_exact.
  - rewrite <- IH by assumption. rewrite <- seq_shift, map_map.
    apply map_ext. intros i.
    now replace (S i * 2)%nat with (S (S (i * 2))) by lia.
Qed.

Lemma spec_downmix_lookup samples : forall i l r,
  samples !! (2 * i)%nat = Some l -> samples !! (2 * i + 1)%nat = Some r ->
  Spec.downmix samples !! i = Some (Z.quot (l + r) 2).
Proof.
  revert samples. refine (list_pair_ind _ _ _ _).
  - intros i l r H. discriminate.
  - intros x i l r _ H. replace (2 * i + 1)%nat with (S (2 * i)) in H by lia.
    discriminate.
  - intros x y rest IH [|i] l r Hl Hr.
    + simpl in Hl, Hr. now inversion Hl; inversion Hr; subst.
    + replace (2 * S i)%nat with (S (S (2 * i))) in Hl by lia.
      replace (2 * S i + 1)%nat with (S (S (2 * i + 1))) in Hr by lia.
      simpl in Hl, Hr. simpl. now apply IH.
Qed.

Lemma spec_downmix_length samples :
  length (Spec.downmix samples) = (length samples / 2)%nat.
Proof.
  revert samples. refine (list_pair_ind _ _ _ _); [reflexivity|reflexivity|].
  intros x y l IH. rewrite half_length_SS. simpl. now rewrite IH.
Qed.

(** C5.  A two-channel snapshot is downmixed to one sample per frame, the
    truncated mean [(left + right) / 2] taken in 32-bit arithmetic and
    stored as 16 bits (which, on 16-bit inputs, is the exact truncated
    mean): [(100, -50)] gives [25] and [(32767, 32767)] gives [32767].
    With any other channel count the samples pass through unchanged. *)
Theorem downmix_stereo_mean (samples : list Z) :
  Forall Int.is_int16 samples ->
  WasapiLoopback.monoSamples 2 samples = Spec.downmix samples
  /\ length (WasapiLoopback.monoSamples 2 samples) = (length samples / 2)%nat
  /\ (forall i l r,
        samples !! (2 * i)%nat = Some l -> samples !! (2 * i + 1)%nat = Some r ->
        WasapiLoopback.monoSamples 2 samples !! i
        = Some (Int.to_int16 (Z.quot (Int.to_int32 (l + r)) 2))
        /\ Int.to_int16 (Z.quot (Int.to_int32 (l + r)) 2) = Z.quot (l + r) 2)
  /\ (forall channels, channels <> 2 ->
        WasapiLoopback.monoSamples channels samples = samples)
  /\ WasapiLoopback.monoSamples 2 [100; -50] = [25]
  /\ WasapiLoopback.monoSamples 2 [32767; 32767] = [32767].
Proof.
  intros Hall.
  assert (Hmono : WasapiLoopback.monoSamples 2 samples = Spec.downmix samples).
  { unfold WasapiLoopback.monoSamples. simpl. now apply downmix_refines. }
  assert (Hexact : forall i l r,
    samples !! (2 * i)%nat = Some l -> samples !! (2 * i + 1)%nat = Some r ->
    Int.to_int16 (Z.quot (Int.to_int32 (l + r)) 2) = Z.quot (l + r) 2).
  { intros i l r Hl Hr. rewrite Forall_lookup in Hall.
    pose proof (Hall _ _ Hl) as Hl16. pose proof (Hall _ _ Hr) as Hr16.
    rewrite <- (downmix_step_exact l r Hl16 Hr16).
    rewrite (to_int32_id l), (to_int32_id r); auto;
      unfold Int.is_int16, Int.is_int32 in *; lia. }
  split; [exact Hmono|].
  split; [rewrite Hmono; apply spec_downmix_length|].
  split.
  { intros i l r Hl Hr. split; [|now apply (Hexact i)].
    rewrite Hmono, (spec_downmix_lookup samples i l r) by assumption.
    f_equal. symmetry. now apply (Hexact i). }
  split; [|split; reflexivity].
  intros channels Hch. unfold WasapiLoopback.monoSamples.
  destruct (Z.eqb_spec channels 2); [contradiction|reflexivity].
Qed.

Lemma downmix_stereo_mean_witness :
  WasapiLoopback.monoSamples 2 [100; -50; 32767; 32767; -3; 0; 7]
  = Spec.downmix [100; -50; 32767; 32767; -3; 0; 7].
Proof.
  apply (downmix_stereo_mean [100; -50; 32767; 32767; -3; 0; 7]).
  repeat constructor; unfold Int.is_int16; lia.
Defined.

(* ===================================================================== *)
(** * Export: resampling at equal rates *)
(* ===================================================================== *)

(** C9.  When the snapshot's sample rate equals the target rate the
    resampling stage is the identity: it is defined and its output is the
    input sequence itself. *)
Theorem resample_identity (rate : Z) (mono : list Z) :
  WasapiLoopback.resample rate rate mono = Some mono.
Proof.
  unfold WasapiLoopback.resample. now rewrite Z.eqb_refl.
Qed.

(* ===================================================================== *)
(** * Start while capturing *)
(* ===================================================================== *)

Lemma AudioCapture_Start_running {Host} (callback : AudioCapture.AudioDataCallback Host)
    (hr : AudioCapture.HRESULT) (c : AudioCapture.AudioCapture Host) :
  AudioCapture.IsCapturing c = true ->
  AudioCapture.Start callback hr c
  = (false, AudioCapture.set_lastError "Already capturing" c).
Proof.
  unfold AudioCapture.IsCapturing, AudioCapture.Start. now intros ->.
Qed.

(** C3.  A start request made while capture is running returns failure and
    records "Already capturing"; the capture object is otherwise untouched,
    but the samples accumulated so far are discarded, because
    [WasapiLoopback::Start] clears [m_audioBuffer] before it asks
    [AudioCapture::Start]. *)
Theorem Start_while_running_clears_buffer
    (hr : AudioCapture.HRESULT) (l : WasapiLoopback.WasapiLoopback) :
  AudioCapture.IsCapturing (WasapiLoopback.m_capture l) = true ->
  WasapiLoopback.Start hr l
  = (false,
     {| WasapiLoopback.m_capture :=
          AudioCapture.set_lastError "Already capturing" (WasapiLoopback.m_capture l);
        WasapiLoopback.m_accumulation :=
          WasapiLoopback.clear (WasapiLoopback.m_accumulation l) |})
  /\ WasapiLoopback.m_audioBuffer
       (WasapiLoopback.m_accumulation (snd (WasapiLoopback.Start hr l))) = []
  /\ AudioCapture.IsCapturing
       (WasapiLoopback.m_capture (snd (WasapiLoopback.Start hr l))) = true.
Proof.
  intros Hrun. unfold WasapiLoopback.Start.
  rewrite AudioCapture_Start_running by exact Hrun.
  repeat split. exact Hrun.
Qed.

Lemma Start_while_running_clears_buffer_witness :
  WasapiLoopback.m_audioBuffer
    (WasapiLoopback.m_accumulation (Demo.loopback [1; 2; 3])) = [1; 2; 3]
  /\ fst (WasapiLoopback.Start AudioCapture.S_OK (Demo.loopback [1; 2; 3])) = false
  /\ WasapiLoopback.m_audioBuffer
       (WasapiLoopback.m_accumulation
          (snd (WasapiLoopback.Start AudioCapture.S_OK (Demo.loopback [1; 2; 3])))) = [].
Proof.
  split; [reflexivity|].
  destruct (Start_while_running_clears_buffer AudioCapture.S_OK
              (Demo.loopback [1; 2; 3]) eq_refl) as (Heq & Hbuf & _).
  split; [now rewrite Heq | exact Hbuf].
Defined.

(* ===================================================================== *)
(** * Export and the live buffer *)
(* ===================================================================== *)

(** C1.  An export whose destination cannot be opened returns [false] and
    leaves the files alone, but the live buffer has been emptied all the
    same: [SaveToWav] clears [m_audioBuffer] inside the critical section
    that takes the snapshot, before it tries to open the file. *)
Theorem SaveToWav_write_failure_clears_buffer
    (filePath : string) (rest : list WasapiLoopback.js_value)
    (fs : WasapiLoopback.FileSystem) (l : WasapiLoopback.WasapiLoopback)
    (targetSampleRate : Z) (resampled : list Z) :
  targetSampleRate
    = match rest with WasapiLoopback.JsNumber v :: _ => v | _ => 16000 end ->
  WasapiLoopback.m_audioBuffer (WasapiLoopback.m_accumulation l) <> [] ->
  WasapiLoopback.resample
    (WasapiLoopback.m_capturedSampleRate (WasapiLoopback.m_accumulation l))
    targetSampleRate
    (WasapiLoopback.monoSamples
       (WasapiLoopback.m_capturedChannels (WasapiLoopback.m_accumulation l))
       (WasapiLoopback.m_audioBuffer (WasapiLoopback.m_accumulation l)))
    = Some resampled ->
  WasapiLoopback.opens fs filePath = false ->
  WasapiLoopback.SaveToWav (WasapiLoopback.JsString filePath :: rest) fs l
  = Some (WasapiLoopback.Boolean false,
          {| WasapiLoopback.m_capture := WasapiLoopback.m_capture l;
             WasapiLoopback.m_accumulation :=
               WasapiLoopback.clear (WasapiLoopback.m_accumulation l) |},
          fs).
Proof.
  intros Hrate Hbuf Hres Hopen. unfold WasapiLoopback.SaveToWav.
  rewrite <- Hrate. rewrite bool_decide_eq_false_2 by exact Hbuf.
  rewrite Hres. simpl. now rewrite Hopen.
Qed.

Lemma SaveToWav_write_failure_clears_buffer_witness :
  WasapiLoopback.SaveToWav [WasapiLoopback.JsString "out.wav"] Demo.read_only
    (Demo.loopback [1; 2; 3; 4; 5; 6])
  = Some (WasapiLoopback.Boolean false,
          {| WasapiLoopback.m_capture := Demo.capturing Demo.pcm16_stereo;
             WasapiLoopback.m_accumulation := Demo.buffer [] 48000 1 |},
          Demo.read_only).
Proof.
  apply (SaveToWav_write_failure_clears_buffer "out.wav" [] Demo.read_only
           (Demo.loopback [1; 2; 3; 4; 5; 6]) 16000 [1; 4]).
  - reflexivity.
  - discriminate.
  - vm_compute. reflexivity.
  - reflexivity.
Defined.

(** Whatever a call with a path argument returns, the live buffer is empty
    afterwards. *)
Lemma SaveToWav_always_clears filePath rest fs l r l' fs' :
  WasapiLoopback.SaveToWav (WasapiLoopback.JsString filePath :: rest) fs l
    = Some (r, l', fs') ->
  WasapiLoopback.m_audioBuffer (WasapiLoopback.m_accumulation l') = [].
Proof.
  unfold WasapiLoopback.SaveToWav. intros H.
  repeat match type of H with
  | context [bool_decide ?P] => destruct (bool_decide P)
  | context [WasapiLoopback.resample ?a ?b ?c] =>
      destruct (WasapiLoopback.resample a b c); simpl in H
  | context [negb ?b] => destruct b; simpl in H
  end; inversion H; reflexivity.
Qed.

(* ===================================================================== *)
(** * The capture thread *)
(* ===================================================================== *)

(** Take the turn from [t] apart, call by call. *)
Ltac by_turn indefinite session t :=
  let tc := fresh "tc" in let th := fresh "th" in let tw := fresh "tw" in
  let tlen := fresh "tlen" in
  destruct t as [tc th tw|tc tlen th tw|tc th tw|tc th tw|tc th tw];
  cbn [AudioCapture.step AudioCapture.delivery AudioCapture.thread_host
       AudioCapture.thread_capture AudioCapture.has_exited];
  [ destruct (AudioCapture.read_isCapturing session tw) eqn:Hread; cbn [negb];
    [ destruct (AudioCapture.m_captureClient tc) eqn:Hclient; cbn [negb];
      [ destruct (AudioCapture.GetNextPacketSize session tw) as [[hr len] w1] eqn:Hpoll;
        destruct (AudioCapture.FAILED hr) eqn:Hhr | ] | ]
  | destruct (tlen =? 0) eqn:Hlen;
    [ | destruct (AudioCapture.GetBuffer session tw) as [[hr p] w1] eqn:Hget;
        destruct (AudioCapture.FAILED hr) eqn:Hhr;
        [ | destruct (AudioCapture.process_packet indefinite tc p th) as [h1|] eqn:Hproc;
            [ destruct (AudioCapture.ReleaseBuffer session
                          (AudioCapture.numFramesAvailable p) w1) as [hr2 w2] eqn:Hrel;
              destruct (AudioCapture.FAILED hr2) eqn:Hhr2;
              [ | destruct (AudioCapture.GetNextPacketSize session w2)
                    as [[hr3 len'] w3] eqn:Hpoll;
                  destruct (AudioCapture.FAILED hr3) eqn:Hhr3 ] | ] ] ]
  | | | ];
  cbn [AudioCapture.thread_host AudioCapture.thread_capture
       AudioCapture.has_exited option_list default].

Section CaptureFacts.
Context {Host World : Type}.
Variable indefinite : Z.
Variable session : AudioCapture.Session World.
Implicit Types (c : AudioCapture.AudioCapture Host) (h : Host) (w : World)
  (t : AudioCapture.thread_state Host World).

(** Building the samples of a packet throws only when the sample count,
    as an [int], is negative. *)
Lemma convert_throws fmt channels p :
  AudioCapture.convert indefinite fmt channels p = None ->
  AudioCapture.numSamples (AudioCapture.numFramesAvailable p) channels < 0.
Proof.
  unfold AudioCapture.convert, AudioCapture.convert_float,
    AudioCapture.convert_pcm16, AudioCapture.resize.
  destruct (_ || _).
  - destruct (Z.ltb_spec (AudioCapture.numSamples
                            (AudioCapture.numFramesAvailable p) channels) 0);
      [auto|discriminate].
  - destruct (_ =? 16); [|discriminate].
    destruct (Z.ltb_spec (AudioCapture.numSamples
                            (AudioCapture.numFramesAvailable p) channels) 0);
      [auto|discriminate].
Qed.

Lemma process_packet_silent c p h :
  AudioCapture.silent p = true ->
  (forall h', AudioCapture.process_packet indefinite c p h = Some h' -> h' = h)
  /\ (0 <= AudioCapture.numSamples (AudioCapture.numFramesAvailable p)
            (AudioCapture.m_channels c) ->
      AudioCapture.process_packet indefinite c p h = Some h).
Proof.
  intros Hs. unfold AudioCapture.process_packet. rewrite Hs.
  destruct (AudioCapture.m_callback c); [|split; [congruence|reflexivity]].
  destruct (0 <? AudioCapture.numFramesAvailable p);
    [|split; [congruence|reflexivity]].
  destruct (AudioCapture.convert indefinite _ _ p) as [samples|] eqn:Hc; simpl.
  - rewrite andb_false_r. split; [congruence|reflexivity].
  - split; [discriminate|]. apply convert_throws in Hc. lia.
Qed.

(** The thread never assigns a member of the object, [m_lastError]
    included. *)
Lemma step_capture t :
  AudioCapture.thread_capture (AudioCapture.step indefinite session t)
  = AudioCapture.thread_capture t.
Proof. by_turn indefinite session t; reflexivity. Qed.

Lemma run_capture : forall fuel t,
  AudioCapture.thread_capture (AudioCapture.run indefinite session fuel t)
  = AudioCapture.thread_capture t.
Proof.
  induction fuel as [|fuel IH]; intros t; simpl; [reflexivity|].
  now rewrite IH, step_capture.
Qed.

Lemma CaptureThread_capture c fuel h w :
  AudioCapture.thread_capture
    (AudioCapture.CaptureThread indefinite session fuel c h w) = c.
Proof. unfold AudioCapture.CaptureThread. now rewrite run_capture. Qed.

(** A turn changes the host data only by handing the packet it was
    delivered to [process_packet]. *)
Lemma step_host t :
  AudioCapture.thread_host (AudioCapture.step indefinite session t)
  = foldl (fun h p => default h (AudioCapture.process_packet indefinite
                                   (AudioCapture.thread_capture t) p h))
      (AudioCapture.thread_host t) (option_list (AudioCapture.delivery session t)).
Proof. by_turn indefinite session t; simpl; rewrite ?Hproc; reflexivity. Qed.

(** The host data a run has reached: the packets delivered during the run,
    handed to [process_packet] one after the other. *)
Lemma run_host : forall fuel t,
  AudioCapture.thread_host (AudioCapture.run indefinite session fuel t)
  = foldl (fun h p => default h (AudioCapture.process_packet indefinite
                                   (AudioCapture.thread_capture t) p h))
      (AudioCapture.thread_host t)
      (AudioCapture.deliveries indefinite session fuel t).
Proof.
  induction fuel as [|fuel IH]; intros t; simpl; [reflexivity|].
  now rewrite IH, foldl_app, step_capture, step_host.
Qed.

(** Every delivered packet is one that [GetBuffer] returned. *)
Lemma deliveries_origin (P : AudioCapture.packet -> Prop)
    (HP : forall w, P (snd (fst (AudioCapture.GetBuffer session w)))) :
  forall fuel t, Forall P (AudioCapture.deliveries indefinite session fuel t).
Proof.
  induction fuel as [|fuel IH]; intros t; simpl; [apply Forall_nil_2|].
  apply Forall_app. split; [|apply IH].
  destruct t as [c h w|c len h w|c h w|c h w|c h w]; simpl;
    try apply Forall_nil_2.
  destruct (len =? 0); [apply Forall_nil_2|].
  pose proof (HP w) as Hp.
  destruct (AudioCapture.GetBuffer session w) as [[hr p] w1]. simpl in Hp.
  destruct (AudioCapture.FAILED hr); [apply Forall_nil_2|].
  apply Forall_cons_2; [exact Hp|apply Forall_nil_2].
Qed.

(** Packets that [process_packet] leaves the host data alone for. *)
Lemma foldl_inert c h (ps : list AudioCapture.packet) :
  Forall (fun p => forall h',
            AudioCapture.process_packet indefinite c p h = Some h' -> h' = h) ps ->
  foldl (fun h p => default h (AudioCapture.process_packet indefinite c p h)) h ps
  = h.
Proof.
  induction 1 as [|p ps Hp _ IH]; simpl; [reflexivity|].
  destruct (AudioCapture.process_packet indefinite c p h) as [h'|] eqn:Hh; simpl.
  - now rewrite (Hp h' eq_refl).
  - exact IH.
Qed.

Lemma CaptureThread_silent c
    (Hsilent : forall w, AudioCapture.silent
                           (snd (fst (AudioCapture.GetBuffer session w))) = true) :
  forall fuel h w,
    AudioCapture.thread_host
      (AudioCapture.CaptureThread indefinite session fuel c h w) = h.
Proof.
  intros fuel h w. unfold AudioCapture.CaptureThread. rewrite run_host. simpl.
  apply foldl_inert.
  apply (deliveries_origin
           (fun p => forall h', AudioCapture.process_packet indefinite c p h = Some h'
                                -> h' = h)).
  intros w'. now apply process_packet_silent.
Qed.

(** A property that every turn keeps holds throughout a run. *)
Lemma run_invariant (P : AudioCapture.thread_state Host World -> Prop)
    (Hstep : forall t, P t -> P (AudioCapture.step indefinite session t)) :
  forall fuel t, P t -> P (AudioCapture.run indefinite session fuel t).
Proof.
  induction fuel as [|fuel IH]; intros t Ht; simpl; [exact Ht|].
  apply IH, Hstep, Ht.
Qed.

(** While the device stays lost and capture stays requested, the thread
    goes round its loops with nothing changed, and does not return. *)
Lemma lost_device_spins c h
    (Hnonnull : AudioCapture.m_captureClient c = true)
    (Hlost : forall w,
       AudioCapture.read_isCapturing session w = true
       /\ AudioCapture.FAILED (fst (fst (AudioCapture.GetNextPacketSize session w)))
          = false
       /\ snd (fst (AudioCapture.GetNextPacketSize session w)) <> 0
       /\ AudioCapture.FAILED (fst (fst (AudioCapture.GetBuffer session w))) = true) :
  forall fuel w,
    AudioCapture.has_exited
      (AudioCapture.CaptureThread indefinite session fuel c h w) = false
    /\ AudioCapture.thread_host
         (AudioCapture.CaptureThread indefinite session fuel c h w) = h.
Proof.
  intros fuel w. unfold AudioCapture.CaptureThread.
  set (P := fun t : AudioCapture.thread_state Host World =>
              match t with
              | AudioCapture.Polling c' h' _ => c' = c /\ h' = h
              | AudioCapture.Draining c' len h' _ => c' = c /\ h' = h /\ len <> 0
              | _ => False
              end).
  assert (HP : P (AudioCapture.run indefinite session fuel (AudioCapture.Polling c h w))).
  { apply run_invariant; [|split; reflexivity].
    intros t Ht. by_turn indefinite session t; simpl in Ht; try contradiction;
      (destruct Ht as (-> & -> & Hne) || destruct Ht as [-> ->]);
      pose proof (Hlost tw) as (Hrun & Hok & Hne' & Hf);
      rewrite ?Hpoll, ?Hget in *; simpl in *;
      try congruence; try (apply Z.eqb_eq in Hlen; contradiction); auto. }
  destruct (AudioCapture.run indefinite session fuel (AudioCapture.Polling c h w));
    simpl in HP; try contradiction; simpl; intuition.
Qed.

End CaptureFacts.

(** C7.  A packet whose silent flag is set hands nothing to the callback,
    whatever its frame count and raw bytes and whatever the stream format:
    if the packet is processed at all, the accumulation buffer is the same
    before and after, and it is processed whenever its sample count has
    not wrapped to a negative [int] (it otherwise ends the process, with
    nothing appended either).  Hence a capture run during which the
    session delivers only silent packets has, at every turn, the buffer it
    started with. *)
Theorem silent_packet_not_appended
    (indefinite : Z) (c : AudioCapture.AudioCapture WasapiLoopback.Accumulation)
    (frames : Z) (raw : nat -> byte) (flags : Z) (a : WasapiLoopback.Accumulation) :
  Z.land flags AudioCapture.AUDCLNT_BUFFERFLAGS_SILENT <> 0 ->
  (forall a',
     AudioCapture.process_packet indefinite c
       {| AudioCapture.numFramesAvailable := frames;
          AudioCapture.data := raw;
          AudioCapture.flags := flags |} a = Some a' -> a' = a)
  /\ (0 <= AudioCapture.numSamples frames (AudioCapture.m_channels c) ->
      AudioCapture.process_packet indefinite c
        {| AudioCapture.numFramesAvailable := frames;
           AudioCapture.data := raw;
           AudioCapture.flags := flags |} a = Some a)
  /\ forall (World : Type) (session : AudioCapture.Session World),
       (forall w, AudioCapture.silent
                    (snd (fst (AudioCapture.GetBuffer session w))) = true) ->
       forall fuel w,
         WasapiLoopback.m_audioBuffer
           (AudioCapture.thread_host
              (AudioCapture.CaptureThread indefinite session fuel c a w))
         = WasapiLoopback.m_audioBuffer a.
Proof.
  intros Hflag.
  assert (Hs : AudioCapture.silent
                 {| AudioCapture.numFramesAvailable := frames;
                    AudioCapture.data := raw;
                    AudioCapture.flags := flags |} = true).
  { unfold AudioCapture.silent. simpl.
    destruct (Z.eqb_spec (Z.land flags AudioCapture.AUDCLNT_BUFFERFLAGS_SILENT) 0);
      [contradiction|reflexivity]. }
  destruct (process_packet_silent indefinite c _ a Hs) as [Hsame Hreturns].
  split; [exact Hsame|]. split; [exact Hreturns|].
  intros World session Hsilent fuel w.
  now rewrite CaptureThread_silent.
Qed.

Lemma silent_packet_not_appended_witness :
  AudioCapture.process_packet 0 (Demo.capturing Demo.pcm16_stereo)
    {| AudioCapture.numFramesAvailable := 1;
       AudioCapture.data := Demo.bytes [7; 0; 9; 0];
       AudioCapture.flags := 2 |} (Demo.buffer [1; 2] 48000 2)
  = Some (Demo.buffer [1; 2] 48000 2).
Proof.
  apply (silent_packet_not_appended 0 (Demo.capturing Demo.pcm16_stereo) 1
           (Demo.bytes [7; 0; 9; 0]) 2 (Demo.buffer [1; 2] 48000 2)).
  - vm_compute. discriminate.
  - vm_compute. discriminate.
Defined.

(** The same packet without the flag is appended. *)
Example audible_packet_appended :
  AudioCapture.process_packet 0 (Demo.capturing Demo.pcm16_stereo)
    Demo.frame_7_9 (Demo.buffer [1; 2] 48000 2)
  = Some (Demo.buffer [1; 2; 7; 9] 48000 2).
Proof. reflexivity. Qed.

(** In the scripted session [GetBuffer] fails on the first packet, yet the
    thread goes on polling: it later appends the packet [7, 9] and returns
    only once [m_isCapturing] is cleared; and the last-error message is as
    empty as before. *)
Example scripted_session_outlives_failure :
  AudioCapture.FAILED (fst (fst (AudioCapture.GetBuffer Demo.session 1%nat))) = true
  /\ AudioCapture.CaptureThread 0 Demo.session 6
       (Demo.capturing Demo.pcm16_stereo) (Demo.buffer [] 0 0) 0%nat
     = AudioCapture.Exited (Demo.capturing Demo.pcm16_stereo)
         (Demo.buffer [7; 9] 48000 2) 6%nat
  /\ AudioCapture.GetLastError (Demo.capturing Demo.pcm16_stereo) = EmptyString.
Proof. split; [reflexivity|]. split; reflexivity. Qed.

(** C8.  What the code does on a retrieval failure is not what the claim
    says.  When [GetBuffer] fails, the [break] leaves the inner loop only:
    after the poll and the failed retrieval the thread is back at the test
    of its outer loop, with the accumulated data as it was; no run of the
    thread, however long, changes the last-error message; and while the
    fault lasts and capture stays requested the thread never returns: it
    polls, fails and sleeps again and again.  So the loop does not
    terminate on the fault, and the fault is not surfaced. *)
Theorem retrieval_failure_retried_unreported
    {Host World : Type} (indefinite : Z) (session : AudioCapture.Session World)
    (c : AudioCapture.AudioCapture Host) (h : Host) (w : World) :
  AudioCapture.m_captureClient c = true ->
  AudioCapture.read_isCapturing session w = true ->
  let '(hr, packetLength, w1) := AudioCapture.GetNextPacketSize session w in
  let '(hr', _, w2) := AudioCapture.GetBuffer session w1 in
  AudioCapture.FAILED hr = false -> packetLength <> 0 ->
  AudioCapture.FAILED hr' = true ->
  AudioCapture.CaptureThread indefinite session 2 c h w
    = AudioCapture.Polling c h (AudioCapture.Sleep session 10 w2)
  /\ (forall fuel,
        AudioCapture.GetLastError
          (AudioCapture.thread_capture
             (AudioCapture.CaptureThread indefinite session fuel c h w))
        = AudioCapture.GetLastError c)
  /\ ((forall w',
         AudioCapture.read_isCapturing session w' = true
         /\ AudioCapture.FAILED
              (fst (fst (AudioCapture.GetNextPacketSize session w'))) = false
         /\ snd (fst (AudioCapture.GetNextPacketSize session w')) <> 0
         /\ AudioCapture.FAILED (fst (fst (AudioCapture.GetBuffer session w'))) = true) ->
      forall fuel,
        AudioCapture.has_exited
          (AudioCapture.CaptureThread indefinite session fuel c h w) = false
        /\ AudioCapture.thread_host
             (AudioCapture.CaptureThread indefinite session fuel c h w) = h)
  /\ ~ Spec.retrieval_failure_terminates (Host := Host) indefinite session.
Proof.
  intros Hclient Hrun.
  destruct (AudioCapture.GetNextPacketSize session w) as [[hr len] w1] eqn:Hpoll.
  destruct (AudioCapture.GetBuffer session w1) as [[hr' p] w2] eqn:Hget.
  intros Hok Hlen Hfail.
  assert (Hsame : forall fuel,
            AudioCapture.GetLastError
              (AudioCapture.thread_capture
                 (AudioCapture.CaptureThread indefinite session fuel c h w))
            = AudioCapture.GetLastError c).
  { intros fuel. now rewrite CaptureThread_capture. }
  split; [|split; [exact Hsame|split]].
  - unfold AudioCapture.CaptureThread. cbn [AudioCapture.run AudioCapture.step].
    rewrite Hrun, Hclient. cbn [negb]. rewrite Hpoll, Hok.
    cbn [AudioCapture.step].
    destruct (Z.eqb_spec len 0) as [|_]; [contradiction|].
    now rewrite Hget, Hfail.
  - intros Hlost fuel. now apply lost_device_spins.
  - intros Hclaim. specialize (Hclaim c h w Hclient Hrun).
    rewrite Hpoll, Hget in Hclaim.
    destruct (Hclaim Hok Hlen Hfail) as (fuel & c' & Hexit & Hreported).
    apply Hreported. rewrite <- (Hsame fuel), Hexit. reflexivity.
Qed.

Lemma retrieval_failure_retried_unreported_witness :
  AudioCapture.CaptureThread 0 Demo.lost_device 2
    (Demo.capturing Demo.pcm16_stereo) (Demo.buffer [1; 2] 48000 2) 0%nat
  = AudioCapture.Polling (Demo.capturing Demo.pcm16_stereo)
      (Demo.buffer [1; 2] 48000 2) 2%nat
  /\ forall fuel,
       AudioCapture.has_exited
         (AudioCapture.CaptureThread 0 Demo.lost_device fuel
            (Demo.capturing Demo.pcm16_stereo) (Demo.buffer [1; 2] 48000 2) 0%nat)
       = false
       /\ AudioCapture.thread_host
            (AudioCapture.CaptureThread 0 Demo.lost_device fuel
               (Demo.capturing Demo.pcm16_stereo) (Demo.buffer [1; 2] 48000 2) 0%nat)
          = Demo.buffer [1; 2] 48000 2.
Proof.
  destruct (retrieval_failure_retried_unreported 0 Demo.lost_device
              (Demo.capturing Demo.pcm16_stereo) (Demo.buffer [1; 2] 48000 2) 0%nat
              eq_refl eq_refl eq_refl ltac:(discriminate) eq_refl)
    as (Hback & _ & Hspin & _).
  split; [exact Hback|].
  apply Hspin. intros w'. repeat split. discriminate.
Defined.

(** The failure of the poll that opens a cycle is the one fault that does
    end the thread; it is not reported either. *)
Example outer_poll_failure_exits
    {Host World : Type} (indefinite : Z) (session : AudioCapture.Session World)
    (c : AudioCapture.AudioCapture Host) (h : Host) (w : World) :
  AudioCapture.m_captureClient c = true ->
  AudioCapture.read_isCapturing session w = true ->
  AudioCapture.FAILED (fst (fst (AudioCapture.GetNextPacketSize session w))) = true ->
  AudioCapture.CaptureThread indefinite session 1 c h w
  = AudioCapture.Exited c h (snd (AudioCapture.GetNextPacketSize session w)).
Proof.
  intros Hclient Hrun Hfail. unfold AudioCapture.CaptureThread.
  cbn [AudioCapture.run AudioCapture.step]. rewrite Hrun, Hclient. cbn [negb].
  destruct (AudioCapture.GetNextPacketSize session w) as [[hr len] w1].
  simpl in Hfail |- *. now rewrite Hfail.
Qed.

(* ===================================================================== *)
(** * The extensible format tag *)
(* ===================================================================== *)

Lemma convert_float_map indefinite d n :
  0 <= n ->
  AudioCapture.convert_float indefinite d n
  = Some (map (AudioCapture.float_sample indefinite d) (seq 0 (Z.to_nat n))).
Proof.
  intros Hn. unfold AudioCapture.convert_float, AudioCapture.resize.
  destruct (Z.ltb_spec n 0); [lia|]. simpl. f_equal.
  apply fill_loop_map. unfold resize0. apply length_replicate.
Qed.

(** A little-endian word, byte by byte. *)
Lemma le_combine_cons (b : byte) (bs : list byte) :
  le_combine (b :: bs) = byte.unsigned b + 256 * le_combine bs.
Proof.
  change (le_combine (b :: bs))
    with (Z.lor (byte.unsigned b) (Z.shiftl (le_combine bs) 8)).
  pose proof (byte.unsigned_range b) as Hb. change (2 ^ 8) with 256 in Hb.
  rewrite Z.shiftl_mul_pow2 by lia. change (2 ^ 8) with 256.
  rewrite <- Z.lxor_lor, <- Z.add_nocarry_lxor; try lia.
  - apply Z.bits_inj'. intros n Hn. rewrite Z.land_spec, Z.bits_0.
    destruct (Z_lt_le_dec n 8).
    + replace (le_combine bs * 256) with (le_combine bs * 2 ^ 8) by reflexivity.
      rewrite (Z.mul_pow2_bits_low _ 8 n) by lia. apply andb_false_r.
    + replace (byte.unsigned b) with (byte.unsigned b mod 2 ^ 8)
        by (apply Z.mod_small; exact (byte.unsigned_range b)).
      rewrite Z.mod_pow2_bits_high by lia. reflexivity.
  - apply Z.bits_inj'. intros n Hn. rewrite Z.land_spec, Z.bits_0.
    destruct (Z_lt_le_dec n 8).
    + replace (le_combine bs * 256) with (le_combine bs * 2 ^ 8) by reflexivity.
      rewrite (Z.mul_pow2_bits_low _ 8 n) by lia. apply andb_false_r.
    + replace (byte.unsigned b) with (byte.unsigned b mod 2 ^ 8)
        by (apply Z.mod_small; exact (byte.unsigned_range b)).
      rewrite Z.mod_pow2_bits_high by lia. reflexivity.
Qed.

(** [*(float* )p] decodes the four bytes at [p] as the standard lays a
    32-bit float out. *)
Lemma of_bits_binary32 (b0 b1 b2 b3 : byte) :
  F32.of_bits (le_combine [b0; b1; b2; b3]) = Spec.binary32 b0 b1 b2 b3.
Proof.
  rewrite !le_combine_cons, le_combine_nil.
  unfold F32.of_bits, Spec.binary32.
  pose proof (byte.unsigned_range b0) as H0.
  pose proof (byte.unsigned_range b1) as H1.
  pose proof (byte.unsigned_range b2) as H2.
  pose proof (byte.unsigned_range b3) as H3.
  change (2 ^ 8) with 256 in *.
  set (x0 := byte.unsigned b0) in *. set (x1 := byte.unsigned b1) in *.
  set (x2 := byte.unsigned b2) in *. set (x3 := byte.unsigned b3) in *.
  set (w := x0 + 256 * (x1 + 256 * (x2 + 256 * (x3 + 256 * 0)))).
  assert (Hs : Z.testbit w 31 = (128 <=? x3)).
  { rewrite Z.testbit_odd, Z.shiftr_div_pow2 by lia.
    change (2 ^ 31) with 2147483648.
    assert (Hq : w / 2147483648 = x3 / 128) by (subst w; Z.div_mod_to_equations; lia).
    rewrite Hq. destruct (Z.leb_spec 128 x3).
    - replace (x3 / 128) with 1 by (Z.div_mod_to_equations; lia). reflexivity.
    - replace (x3 / 128) with 0 by (Z.div_mod_to_equations; lia). reflexivity. }
  assert (He : Z.land (Z.shiftr w 23) 255 = x3 mod 128 * 2 + x2 / 128).
  { change 255 with (Z.ones 8). rewrite Z.land_ones, Z.shiftr_div_pow2 by lia.
    change (2 ^ 23) with 8388608. change (2 ^ 8) with 256.
    subst w. Z.div_mod_to_equations. lia. }
  assert (Hf : Z.land w 8388607 = x2 mod 128 * 65536 + x1 * 256 + x0).
  { change 8388607 with (Z.ones 23). rewrite Z.land_ones by lia.
    change (2 ^ 23) with 8388608. subst w. Z.div_mod_to_equations. lia. }
  rewrite Hs, He, Hf.
  set (e := x3 mod 128 * 2 + x2 / 128).
  set (f := x2 mod 128 * 65536 + x1 * 256 + x0) in *.
  assert (Hfr : 0 <= f) by (subst f; Z.div_mod_to_equations; lia).
  destruct (e =? 0).
  - destruct f as [|m|m]; [reflexivity|reflexivity|lia].
  - destruct (e =? 255); [reflexivity|].
    replace (8388608 + f) with (f + 8388608) by lia.
    destruct (f + 8388608) as [|m|m] eqn:Hm; [lia|reflexivity|lia].
Qed.



(* ===================================================================== *)
(** * Export: the WAV container, byte by byte *)
(* ===================================================================== *)

Lemma bytes_at_skip (pre rest : list byte) off n :
  (length pre <= off)%nat ->
  bytes_at off n (pre ++ rest) = bytes_at (off - length pre) n rest.
Proof.
  intros Hle. unfold bytes_at. rewrite drop_app.
  now rewrite (drop_ge pre off) by exact Hle.
Qed.

Lemma bytes_at_here (field rest : list byte) n :
  length field = n -> bytes_at 0 n (field ++ rest) = field.
Proof.
  intros Hlen. unfold bytes_at. rewrite drop_0. subst n.
  now rewrite take_app_length.
Qed.

Lemma uint_at_write_int n x rest :
  uint_at 0 n (WasapiLoopback.write_int n x ++ rest) = x mod 2 ^ (Z.of_nat n * 8).
Proof.
  unfold uint_at, WasapiLoopback.write_int.
  rewrite bytes_at_here by apply length_le_split.
  apply le_combine_split.
Qed.

Lemma length_write_int n x : length (WasapiLoopback.write_int n x) = n.
Proof. apply length_le_split. Qed.

Lemma length_flat_write_int (l : list Z) :
  length (flat_map (WasapiLoopback.write_int 2) l) = (2 * length l)%nat.
Proof.
  induction l as [|x l IH]; [reflexivity|].
  cbn [flat_map]. rewrite length_app, length_write_int, IH. simpl. lia.
Qed.

(** Sample [i] occupies bytes [2i] and [2i+1] of the data. *)
Lemma sample_bytes (l : list Z) : forall i x,
  l !! i = Some x ->
  bytes_at (2 * i) 2 (flat_map (WasapiLoopback.write_int 2) l)
  = WasapiLoopback.write_int 2 x.
Proof.
  induction l as [|y l IH]; intros [|i] x Hx; try discriminate.
  - simpl in Hx. inversion Hx; subst. cbn [flat_map].
    now apply bytes_at_here.
  - simpl in Hx. cbn [flat_map].
    rewrite bytes_at_skip by (rewrite length_write_int; lia).
    rewrite length_write_int.
    replace (2 * S i - 2)%nat with (2 * i)%nat by lia. now apply IH.
Qed.

Lemma wav_header_length resampled rate :
  length (WasapiLoopback.wav_header resampled rate) = 44%nat.
Proof. reflexivity. Qed.

Lemma wav_data_unwrapped resampled :
  2 * Z.of_nat (length resampled) < 4294967296 ->
  WasapiLoopback.wav_data resampled
  = flat_map (WasapiLoopback.write_int 2) resampled.
Proof.
  intros Hfit. unfold WasapiLoopback.wav_data, WasapiLoopback.dataSize.
  rewrite to_uint32_id by lia.
  apply take_ge. rewrite length_flat_write_int. lia.
Qed.

(** Step over the fields that precede the one looked at. *)
Ltac skip_field :=
  match goal with
  | |- context [bytes_at ?off ?n (?pre ++ ?rest)] =>
      let k := eval lazy in (length pre) in
      let off' := eval lazy in (off - k)%nat in
      rewrite (bytes_at_skip pre rest off n) by (lazy; lia);
      change (off - length pre)%nat with off'
  end.

Ltac skip_fields := repeat skip_field.

Ltac read_uint :=
  unfold uint_at at 1; skip_fields;
  match goal with
  | |- le_combine (bytes_at 0 ?n (WasapiLoopback.write_int ?n ?x ++ ?rest)) = ?v =>
      change (uint_at 0 n (WasapiLoopback.write_int n x ++ rest) = v);
      rewrite uint_at_write_int
  end.

Ltac read_tag :=
  skip_fields; apply bytes_at_here; reflexivity.

(** The layout of the bytes [SaveToWav] writes. *)
Lemma wav_file_layout (resampled : list Z) (rate : Z) :
  0 <= rate < 2147483648 ->
  36 + 2 * Z.of_nat (length resampled) < 4294967296 ->
  Spec.canonical_wav resampled rate (WasapiLoopback.wav_file resampled rate).
Proof.
  intros Hrate Hfit. unfold Spec.canonical_wav.
  change (@list_byte_of_string) with WasapiLoopback.write_tag.
  change (@le_split) with WasapiLoopback.write_int.
  assert (Hdata : WasapiLoopback.dataSize resampled
                  = 2 * Z.of_nat (length resampled)).
  { unfold WasapiLoopback.dataSize. rewrite to_uint32_id; lia. }
  assert (Hu16 : forall z, 0 <= z < 65536 -> Int.to_uint16 z = z).
  { intros z Hz. unfold Int.to_uint16, Int.to_unsigned. now apply Z.mod_small. }
  unfold WasapiLoopback.wav_file.
  split.
  { rewrite length_app, wav_header_length, wav_data_unwrapped by lia.
    now rewrite length_flat_write_int. }
  assert (Hsamples : forall i x, resampled !! i = Some x ->
            bytes_at (44 + 2 * i) 2
              (WasapiLoopback.wav_header resampled rate
               ++ WasapiLoopback.wav_data resampled)
            = WasapiLoopback.write_int 2 x).
  { intros i x Hx.
    rewrite bytes_at_skip by (rewrite wav_header_length; lia).
    rewrite wav_header_length.
    replace (44 + 2 * i - 44)%nat with (2 * i)%nat by lia.
    rewrite wav_data_unwrapped by lia. now apply sample_bytes. }
  assert (Hdrop : drop 44 (WasapiLoopback.wav_header resampled rate
                           ++ WasapiLoopback.wav_data resampled)
                  = flat_map (WasapiLoopback.write_int 2) resampled).
  { rewrite drop_app_length' by (symmetry; apply wav_header_length).
    apply wav_data_unwrapped. lia. }
  revert Hsamples Hdrop.
  unfold WasapiLoopback.wav_header. rewrite Hdata.
  intros Hsamples Hdrop.
  rewrite !(Hu16 1), (Hu16 16), (Hu16 (1 * 2)) by lia.
  rewrite (to_uint32_id rate), (to_uint32_id 16), (to_uint32_id (rate * 1 * 2)),
    (to_uint32_id (36 + _)) by lia.
  rewrite <- !app_assoc.
  split. { read_tag. }
  split. { read_uint. apply Z.mod_small. simpl. lia. }
  split. { read_tag. }
  split. { read_tag. }
  split. { read_uint. reflexivity. }
  split. { read_uint. reflexivity. }
  split. { read_uint. reflexivity. }
  split. { read_uint. apply Z.mod_small. simpl. lia. }
  split. { read_uint. rewrite Z.mod_small by (simpl; lia). lia. }
  split. { read_uint. reflexivity. }
  split. { read_uint. reflexivity. }
  split. { read_tag. }
  split. { read_uint. apply Z.mod_small. simpl. lia. }
  split; assumption.
Qed.

(** C6.  A successful export of the [n] resampled samples at target rate
    [r] writes a file made of a 44-byte header and the raw little-endian
    16-bit samples, in which bytes 4-7 hold [36 + 2n], the fmt sub-chunk
    has size 16, audioFormat 1, numChannels 1, sampleRate [r], byteRate
    [2r], blockAlign 2 and bitsPerSample 16, and the data size field holds
    [2n] (the sizes being such that the 32-bit fields can hold them). *)
Theorem exported_wav_is_canonical
    (filePath : string) (rest : list WasapiLoopback.js_value)
    (fs fs' : WasapiLoopback.FileSystem) (l l' : WasapiLoopback.WasapiLoopback)
    (rate : Z) (resampled : list Z) :
  rate = match rest with WasapiLoopback.JsNumber v :: _ => v | _ => 16000 end ->
  WasapiLoopback.SaveToWav (WasapiLoopback.JsString filePath :: rest) fs l
    = Some (WasapiLoopback.Boolean true, l', fs') ->
  WasapiLoopback.resample
    (WasapiLoopback.m_capturedSampleRate (WasapiLoopback.m_accumulation l)) rate
    (WasapiLoopback.monoSamples
       (WasapiLoopback.m_capturedChannels (WasapiLoopback.m_accumulation l))
       (WasapiLoopback.m_audioBuffer (WasapiLoopback.m_accumulation l)))
    = Some resampled ->
  0 <= rate < 2147483648 ->
  36 + 2 * Z.of_nat (length resampled) < 4294967296 ->
  exists file,
    WasapiLoopback.files fs' !! filePath = Some file
    /\ file = WasapiLoopback.wav_header resampled rate
              ++ flat_map (WasapiLoopback.write_int 2) resampled
    /\ length (WasapiLoopback.wav_header resampled rate) = 44%nat
    /\ Spec.canonical_wav resampled rate file.
Proof.
  intros Hrate Hsave Hres Hr Hfit.
  exists (WasapiLoopback.wav_file resampled rate).
  unfold WasapiLoopback.SaveToWav in Hsave. rewrite <- Hrate in Hsave.
  destruct (bool_decide _); [discriminate|].
  rewrite Hres in Hsave. simpl in Hsave.
  destruct (WasapiLoopback.opens fs filePath); simpl in Hsave; [|discriminate].
  inversion Hsave; subst l' fs'. clear Hsave.
  split; [apply lookup_insert_eq|].
  split; [unfold WasapiLoopback.wav_file; f_equal; apply wav_data_unwrapped; lia|].
  split; [reflexivity|].
  now apply wav_file_layout.
Qed.

Lemma exported_wav_is_canonical_witness :
  exists file,
    WasapiLoopback.files
      (WasapiLoopback.write_file "out.wav"
         (WasapiLoopback.wav_file [1; 4] 16000) Demo.writable) !! "out.wav"
    = Some file
    /\ file = WasapiLoopback.wav_header [1; 4] 16000
              ++ flat_map (WasapiLoopback.write_int 2) [1; 4]
    /\ length (WasapiLoopback.wav_header [1; 4] 16000) = 44%nat
    /\ Spec.canonical_wav [1; 4] 16000 file.
Proof.
  apply (exported_wav_is_canonical "out.wav" [] Demo.writable _
           (Demo.loopback [1; 2; 3; 4; 5; 6])
           {| WasapiLoopback.m_capture := Demo.capturing Demo.pcm16_stereo;
              WasapiLoopback.m_accumulation := Demo.buffer [] 48000 1 |}
           16000 [1; 4]).
  - reflexivity.
  - vm_compute. reflexivity.
  - vm_compute. reflexivity.
  - lia.
  - simpl. lia.
Defined.

(** The specification's example: one second at 16000 Hz. *)
Example wav_header_one_second :
  let file := WasapiLoopback.wav_file (replicate (Z.to_nat 16000) 0) 16000 in
  uint_at 4 4 file = 36 + 32000 /\ uint_at 22 2 file = 1
  /\ uint_at 24 4 file = 16000 /\ uint_at 34 2 file = 16.
Proof. vm_compute. repeat split. Qed.

(* ===================================================================== *)
(** * Export: resampling at different rates *)
(* ===================================================================== *)

Lemma resample_mapM (src tgt : Z) (mono : list Z) :
  src <> tgt ->
  WasapiLoopback.resample src tgt mono
  = n ← WasapiLoopback.newSize (WasapiLoopback.ratio src tgt) mono;
    mapM (WasapiLoopback.resample_at (WasapiLoopback.ratio src tgt) mono) (seq 0 n).
Proof.
  intros Hne. unfold WasapiLoopback.resample.
  destruct (Z.eqb_spec src tgt) as [|_]; [contradiction|]. simpl.
  destruct (WasapiLoopback.newSize _ mono) as [n|]; simpl; [|reflexivity].
  apply fill_loop_opt_mapM. unfold resize0. apply length_replicate.
Qed.

(** [mapM] over the indices [0 .. n-1], read index by index. *)
Lemma mapM_seq_Some {A} (g : nat -> option A) (n : nat) (out : list A) :
  mapM g (seq 0 n) = Some out
  <-> length out = n /\ forall i, (i < n)%nat -> out !! i = g i.
Proof.
  rewrite mapM_Some, Forall2_same_length_lookup, length_seq. split.
  - intros [Hlen H]. split; [now symmetry|]. intros i Hi.
    destruct (lookup_lt_is_Some_2 out i) as [y Hy]; [lia|].
    rewrite Hy. symmetry. apply (H i i y); [|exact Hy].
    now apply lookup_seq_lt.
  - intros [Hlen H]. split; [now symmetry|]. intros i x y Hx Hy.
    apply lookup_seq in Hx as [-> Hi]. simpl. now rewrite <- (H i Hi).
Qed.

(** C4, as stated, fails: over the reals [floor(480 / (48000 / 44100))] is
    441, but the code divides in double precision, where
    [480 / (48000.0 / 44100)] falls just below 441, and produces 440
    samples. *)
Lemma resample_length_not_real :
  length <$> WasapiLoopback.resample 48000 44100 (replicate 480 0) = Some 440%nat
  /\ Spec.resample_length 480 48000 44100 = 441
  /\ length <$> WasapiLoopback.resample 48000 44100 (replicate 480 0)
     <> Some (Z.to_nat (Spec.resample_length 480 48000 44100)).
Proof.
  assert (Hcode : length <$> WasapiLoopback.resample 48000 44100 (replicate 480 0)
                  = Some 440%nat) by (vm_compute; reflexivity).
  assert (Hreal : Spec.resample_length 480 48000 44100 = 441)
    by (vm_compute; reflexivity).
  split; [exact Hcode|]. split; [exact Hreal|].
  rewrite Hcode, Hreal. intros Heq. inversion Heq.
Qed.

(** C4, amended.  With [ratio], the quotient [inputLength / ratio], the
    positions [i * ratio], [frac] and the blend all computed in IEEE double
    precision (round to nearest even after every operation), resampling at
    a different rate returns [out] exactly when the length conversion is
    defined, [out] has [trunc(inputLength / ratio)] samples, and for every
    index [i], with [idx = trunc(i * ratio)] and [frac = i * ratio - idx],
    sample [i] is the blend of [input[idx]] and [input[idx+1]] truncated to
    16 bits, or [input[idx]] itself when [idx+1] is out of bounds. *)
Theorem resample_linear_interpolation
    (src tgt : Z) (mono out : list Z) :
  src <> tgt ->
  let ratio := F64.div (F64.of_Z src) (F64.of_Z tgt) in
  WasapiLoopback.resample src tgt mono = Some out
  <-> exists n,
        SF_to_size_t (F64.div (F64.of_Z (Z.of_nat (length mono))) ratio) = Some n
        /\ length out = n
        /\ forall i, (i < n)%nat ->
             exists idx,
               SF_to_size_t (F64.mul (F64.of_Z (Z.of_nat i)) ratio) = Some idx
               /\ let frac := F64.sub (F64.mul (F64.of_Z (Z.of_nat i)) ratio)
                                      (F64.of_Z (Z.of_nat idx)) in
                  out !! i
                  = if (idx + 1 <? length mono)%nat then
                      a ← mono !! idx; b ← mono !! (idx + 1)%nat;
                      SF_to_int16 (Spec.blend a b frac)
                    else mono !! idx.
Proof.
  intros Hne ratio. rewrite resample_mapM by exact Hne.
  fold (WasapiLoopback.ratio src tgt) in ratio.
  unfold WasapiLoopback.newSize. fold ratio.
  destruct (SF_to_size_t (F64.div (F64.of_Z (Z.of_nat (length mono))) ratio))
    as [n|]; simpl.
  - rewrite mapM_seq_Some. split.
    + intros [Hlen H]. exists n. repeat split; [exact Hlen|].
      intros i Hi. specialize (H i Hi). unfold WasapiLoopback.resample_at in H.
      destruct (SF_to_size_t (F64.mul (F64.of_Z (Z.of_nat i)) ratio)) as [idx|].
      * exists idx. split; [reflexivity|exact H].
      * simpl in H. destruct (lookup_lt_is_Some_2 out i) as [y Hy]; [lia|congruence].
    + intros (n' & Hn & Hlen & H).
      assert (n' = n) as -> by congruence. split; [exact Hlen|].
      intros i Hi. destruct (H i Hi) as (idx & Hidx & Hout).
      unfold WasapiLoopback.resample_at. rewrite Hidx. exact Hout.
  - split; [discriminate|]. intros (n & Hn & _). discriminate.
Qed.

Lemma resample_linear_interpolation_witness :
  WasapiLoopback.resample 48000 16000 [10; 20; 30; 40; 50; 60; 70; 80]
  = Some [10; 40].
Proof.
  apply (resample_linear_interpolation 48000 16000
           [10; 20; 30; 40; 50; 60; 70; 80] [10; 40]); [lia|].
  exists 2%nat. split; [vm_compute; reflexivity|]. split; [reflexivity|].
  intros [|[|i]] Hi; [exists 0%nat|exists 3%nat|lia];
    (split; vm_compute; reflexivity).
Defined.

(* ===================================================================== *)
(** * The sample normalizer: single-precision rounding *)
(* ===================================================================== *)

Lemma digits2_pos_size m : digits2_pos m = Pos.size m.
Proof. induction m; simpl; congruence. Qed.

Lemma digits2_pos_bounds m :
  2 ^ (Z.pos (digits2_pos m) - 1) <= Z.pos m < 2 ^ Z.pos (digits2_pos m).
Proof.
  rewrite digits2_pos_size. split.
  - pose proof (Pos.size_le m) as H.
    assert (H' : 2 ^ Z.pos (Pos.size m) <= 2 * Z.pos m).
    { change 2 with (Z.pos 2) at 1. rewrite <- Pos2Z.inj_pow.
      change (2 * Z.pos m) with (Z.pos (m~0)). now apply Pos2Z.pos_le_pos. }
    replace (Z.pos (Pos.size m)) with (Z.pos (Pos.size m) - 1 + 1) in H' by lia.
    rewrite Z.pow_add_r in H' by lia. lia.
  - pose proof (Pos.size_gt m) as H.
    change 2 with (Z.pos 2). rewrite <- Pos2Z.inj_pow. now apply Pos2Z.pos_lt_pos.
Qed.

Lemma iter_pos_nat {A} (f : A -> A) (p : positive) : forall x,
  SpecFloat.iter_pos f p x = Nat.iter (Pos.to_nat p) f x.
Proof.
  induction p as [p IH|p IH|]; intros x; cbn [SpecFloat.iter_pos].
  - rewrite !IH. rewrite Pos2Nat.inj_xI.
    rewrite <- Nat.iter_succ_r, <- Nat.iter_add. f_equal. lia.
  - rewrite !IH. rewrite Pos2Nat.inj_xO, <- Nat.iter_add. f_equal. lia.
  - reflexivity.
Qed.

Lemma shr_1_nonneg m r s : 0 <= m ->
  shr_1 (Build_shr_record m r s)
  = Build_shr_record (m / 2) (Z.odd m) (r || s).
Proof.
  intros Hm. destruct m as [|p|p]; [reflexivity| |lia].
  destruct p; simpl.
  - f_equal. rewrite Pos2Z.inj_xI. rewrite Z.add_comm, Z.mul_comm, Z.div_add by lia. reflexivity.
  - f_equal. rewrite Pos2Z.inj_xO. rewrite Z.mul_comm, Z.div_mul by lia. reflexivity.
  - reflexivity.
Qed.

Lemma shr_iter_nonneg (M : Z) : 0 <= M -> forall k : nat,
  exists r s,
    Nat.iter k shr_1 (Build_shr_record M false false)
    = Build_shr_record (M / 2 ^ Z.of_nat k) r s
    /\ (M mod 2 ^ Z.of_nat k = 0 -> r = false /\ s = false).
Proof.
  intros HM. induction k as [|k (r & s & Heq & Hex)].
  - exists false, false. simpl. rewrite Z.div_1_r. auto.
  - exists (Z.odd (M / 2 ^ Z.of_nat k)), (r || s).
    rewrite Nat.iter_succ, Heq.
    assert (Hpow : 2 ^ Z.of_nat (S k) = 2 ^ Z.of_nat k * 2).
    { rewrite Nat2Z.inj_succ, Z.pow_succ_r by lia. lia. }
    assert (Hpos : 0 < 2 ^ Z.of_nat k) by (apply Z.pow_pos_nonneg; lia).
    rewrite shr_1_nonneg by (apply Z.div_pos; lia).
    rewrite Hpow, Z.div_div by lia. split; [reflexivity|].
    intros Hmod.
    assert (Hdiv : M = 2 ^ Z.of_nat k * 2 * (M / (2 ^ Z.of_nat k * 2))).
    { pose proof (Z.div_mod M (2 ^ Z.of_nat k * 2)). lia. }
    assert (Hk : M mod 2 ^ Z.of_nat k = 0).
    { rewrite Hdiv. rewrite <- Z.mul_assoc, Z.mul_comm. apply Z.mod_mul. lia. }
    destruct (Hex Hk) as [-> ->]. split; [|reflexivity].
    rewrite Hdiv at 1. rewrite <- Z.mul_assoc, Z.mul_comm, Z.div_mul by lia.
    rewrite Z.odd_mul. reflexivity.
Qed.

(** What [shr_fexp] does to a nonnegative mantissa with an exact location. *)
Lemma shr_fexp_exact prec emax (M E : Z) : 0 <= M ->
  let n := Z.max 0 (fexp prec emax (Zdigits2 M + E) - E) in
  exists mrs,
    shr_fexp prec emax M E loc_Exact = (mrs, E + n)
    /\ shr_m mrs = M / 2 ^ n
    /\ (M mod 2 ^ n = 0 -> loc_of_shr_record mrs = loc_Exact).
Proof.
  intros HM n. unfold shr_fexp, shr. simpl shr_record_of_loc.
  subst n. destruct (fexp prec emax (Zdigits2 M + E) - E) as [|p|p] eqn:Hn.
  - exists (Build_shr_record M false false). simpl.
    rewrite Z.add_0_r, Z.div_1_r. auto.
  - rewrite iter_pos_nat.
    destruct (shr_iter_nonneg M HM (Pos.to_nat p)) as (r & s & Heq & Hex).
    rewrite positive_nat_Z in Heq, Hex.
    exists (Build_shr_record (M / 2 ^ Z.pos p) r s).
    rewrite Heq. rewrite Z.max_r by lia. repeat split.
    intros Hmod. destruct (Hex Hmod) as [-> ->]. reflexivity.
  - exists (Build_shr_record M false false). simpl.
    rewrite Z.add_0_r, Z.div_1_r. auto.
Qed.

Lemma round_nearest_even_bounds m l :
  m <= round_nearest_even m l <= m + 1
  /\ (l = loc_Exact -> round_nearest_even m l = m).
Proof.
  unfold round_nearest_even. destruct l as [|[| |]]; try destruct (Z.even m);
    split; try lia; try reflexivity; intros; discriminate.
Qed.

Lemma Zdigits2_le (m k : Z) : 0 <= m -> 0 <= k -> m < 2 ^ k -> Zdigits2 m <= k.
Proof.
  intros Hm Hk Hlt. destruct m as [|p|p]; simpl; [lia| |lia].
  pose proof (digits2_pos_bounds p) as [Hlo _].
  destruct (Z_le_gt_dec (Z.pos (digits2_pos p)) k) as [|Hgt]; [assumption|].
  assert (2 ^ k <= 2 ^ (Z.pos (digits2_pos p) - 1)) by (apply Z.pow_le_mono_r; lia).
  lia.
Qed.

Lemma fexp32_le k : k <= 15 -> fexp 24 128 k <= -9.
Proof. unfold fexp, emin. lia. Qed.

(** A product of magnitude at most 32767 rounds (to single precision) to a
    float whose truncation is at most 32767 in magnitude. *)
Lemma round32_bounded (sx : bool) (M E : Z) :
  0 <= M -> E <= 0 -> M <= 32767 * 2 ^ (- E) ->
  exists v, SF_to_int16 (binary_round_aux 24 128 sx M E loc_Exact) = Some v
            /\ -32767 <= v <= 32767.
Proof.
  intros HM HE Hbound.
  assert (Hpow : forall a b, 0 <= a -> 0 <= b -> 2 ^ (a + b) = 2 ^ a * 2 ^ b)
    by (intros; apply Z.pow_add_r; lia).
  assert (Hpos : forall a, 0 <= a -> 0 < 2 ^ a)
    by (intros; apply Z.pow_pos_nonneg; lia).
  (* magnitudes below 2^15 have an exponent function below -9 *)
  assert (Hdig : forall m e, 0 <= m -> e <= 0 -> m <= 32767 * 2 ^ (- e) ->
                   fexp 24 128 (Zdigits2 m + e) <= -9).
  { intros m e Hm He Hb. apply fexp32_le.
    assert (Zdigits2 m <= 15 - e); [|lia].
    apply Zdigits2_le; [lia|lia|].
    replace (15 - e) with (15 + - e) by lia. rewrite Hpow by lia.
    pose proof (Hpos (- e)). change (2 ^ 15) with 32768. nia. }
  (* first shift *)
  destruct (shr_fexp_exact 24 128 M E HM) as (mrs1 & H1 & Hm1 & Hex1).
  set (n1 := Z.max 0 (fexp 24 128 (Zdigits2 M + E) - E)) in *.
  set (e1 := E + n1) in *.
  pose proof (Hdig M E HM HE Hbound) as Hf1.
  assert (He1 : e1 <= 0) by (subst e1 n1; lia).
  assert (Hn1 : 0 <= n1) by (subst n1; lia).
  set (B := 32767 * 2 ^ (- e1)).
  assert (HMB : M <= B * 2 ^ n1).
  { subst B. rewrite <- Z.mul_assoc, <- Hpow by lia.
    now replace (- e1 + n1) with (- E) by (subst e1; lia). }
  pose proof (Hpos n1 Hn1) as Hp1.
  assert (Hm1B : shr_m mrs1 <= B).
  { rewrite Hm1. apply Z.div_le_upper_bound; [lia|].
    now rewrite Z.mul_comm. }
  assert (Hm1nn : 0 <= shr_m mrs1) by (rewrite Hm1; apply Z.div_pos; lia).
  (* rounding *)
  set (m2 := round_nearest_even (shr_m mrs1) (loc_of_shr_record mrs1)).
  destruct (round_nearest_even_bounds (shr_m mrs1) (loc_of_shr_record mrs1))
    as [[Hlo Hhi] Hexact]. fold m2 in Hlo, Hhi, Hexact.
  assert (Hm2B : m2 <= B).
  { destruct (Z_lt_le_dec (shr_m mrs1) B) as [|Hge]; [lia|].
    assert (HeqB : shr_m mrs1 = B) by lia.
    assert (HMeq : M = B * 2 ^ n1).
    { rewrite Hm1 in HeqB. pose proof (Z.div_mod M (2 ^ n1)).
      pose proof (Z.mod_pos_bound M (2 ^ n1)). nia. }
    rewrite Hexact; [lia|]. apply Hex1. rewrite HMeq. apply Z.mod_mul. lia. }
  assert (Hm2nn : 0 <= m2) by lia.
  (* second shift *)
  destruct (shr_fexp_exact 24 128 m2 e1 Hm2nn) as (mrs3 & H3 & Hm3 & _).
  set (n2 := Z.max 0 (fexp 24 128 (Zdigits2 m2 + e1) - e1)) in *.
  set (e3 := e1 + n2) in *.
  pose proof (Hdig m2 e1 Hm2nn He1 Hm2B) as Hf2.
  assert (He3 : e3 <= 0) by (subst e3 n2; lia).
  assert (Hn2 : 0 <= n2) by (subst n2; lia).
  pose proof (Hpos n2 Hn2) as Hp2. pose proof (Hpos (- e3) ltac:(lia)) as Hp3.
  assert (HB3 : B = 32767 * 2 ^ (- e3) * 2 ^ n2).
  { subst B. rewrite <- Z.mul_assoc, <- Hpow by lia.
    now replace (- e3 + n2) with (- e1) by (subst e3; lia). }
  assert (Hm3B : shr_m mrs3 <= 32767 * 2 ^ (- e3)).
  { rewrite Hm3. apply Z.div_le_upper_bound; [lia|].
    replace (2 ^ n2 * (32767 * 2 ^ (- e3))) with B by (rewrite HB3; ring).
    exact Hm2B. }
  assert (Hm3nn : 0 <= shr_m mrs3) by (rewrite Hm3; apply Z.div_pos; lia).
  (* the result *)
  unfold binary_round_aux. rewrite H1. fold m2. rewrite H3.
  destruct (shr_m mrs3) as [|m|m] eqn:Hs3; [| |lia].
  - exists 0. split; [reflexivity|lia].
  - destruct (Z.leb_spec e3 (128 - 24)) as [_|]; [|lia].
    assert (Htr : 0 <= Z.shiftl (Z.pos m) e3 <= 32767).
    { assert (Hsh : Z.shiftl (Z.pos m) e3 = Z.pos m / 2 ^ (- e3)).
      { rewrite <- Z.shiftl_div_pow2 by lia. f_equal; lia. }
      rewrite Hsh. split.
      - apply Z.div_pos; lia.
      - apply Z.div_le_upper_bound; [lia|].
        rewrite Z.mul_comm. exact Hm3B. }
    exists (cond_Zopp sx (Z.shiftl (Z.pos m) e3)).
    unfold SF_to_int16, SFtrunc.
    assert (Hr : -32767 <= cond_Zopp sx (Z.shiftl (Z.pos m) e3) <= 32767)
      by (destruct sx; simpl; lia).
    split; [|exact Hr].
    destruct (Int.is_int16b _) eqn:Hb; [reflexivity|].
    exfalso. apply not_true_iff_false in Hb. apply Hb.
    apply is_int16b_spec. unfold Int.is_int16. lia.
Qed.

(** A valid single-precision float that is neither above [1.0f] nor below
    [-1.0f] has magnitude at most one. *)
Lemma unit_range_magnitude (s : bool) (m : positive) (e : Z) :
  F32.valid (S754_finite s m e) = true ->
  F32.ltb F32.one (S754_finite s m e) = false ->
  F32.ltb (S754_finite s m e) F32.minus_one = false ->
  e <= -23 /\ Z.pos m <= 2 ^ (- e).
Proof.
  unfold F32.valid, valid_binary, bounded, canonical_mantissa.
  intros Hvalid Hhi Hlo.
  apply andb_true_iff in Hvalid as [Hcanon _]. apply Z.eqb_eq in Hcanon.
  assert (Hdigits : Z.pos (digits2_pos m) <= 24).
  { unfold fexp, emin, F32.prec, F32.emax in Hcanon. lia. }
  assert (Hm24 : Z.pos m < 2 ^ 24).
  { pose proof (digits2_pos_bounds m) as [_ Hlt].
    eapply Z.lt_le_trans; [exact Hlt|]. apply Z.pow_le_mono_r; lia. }
  assert (Hcmp : e < -23 \/ (e = -23 /\ Z.pos m <= 8388608)).
  { unfold F32.ltb, SFltb, F32.one, F32.minus_one in Hhi, Hlo.
    destruct s.
    - clear Hhi. cbn [SFcompare] in Hlo.
      destruct (Z.compare_spec e (-23)) as [->| |]; [|lia|discriminate].
      right. split; [reflexivity|].
      rewrite Pos.compare_cont_spec in Hlo.
      rewrite Pos2Z.inj_compare in Hlo.
      destruct (Z.compare_spec (Z.pos m) (Z.pos 8388608)) as [Heq|Hlt|Hgt];
        [lia|lia|discriminate].
    - clear Hlo. cbn [SFcompare] in Hhi.
      destruct (Z.compare_spec (-23) e) as [<-| |]; [|discriminate|lia].
      right. split; [reflexivity|].
      rewrite Pos.compare_cont_spec in Hhi.
      rewrite Pos2Z.inj_compare in Hhi.
      destruct (Z.compare_spec (Z.pos 8388608) (Z.pos m)) as [Heq|Hlt|Hgt];
        [lia|discriminate|lia]. }
  destruct Hcmp as [Hlt|[-> Hle]].
  - split; [lia|]. apply Z.lt_le_incl. eapply Z.lt_le_trans; [exact Hm24|].
    apply Z.pow_le_mono_r; lia.
  - split; [lia|]. exact Hle.
Qed.

Lemma float_to_int16_in_range (s : bool) (m : positive) (e : Z) :
  e <= -23 -> Z.pos m <= 2 ^ (- e) ->
  exists v, SF_to_int16 (F32.mul (S754_finite s m e) F32.c32767) = Some v
            /\ -32767 <= v <= 32767.
Proof.
  intros He Hm. unfold F32.mul, F32.c32767, SFmul.
  apply round32_bounded; [lia|lia|].
  rewrite Pos2Z.inj_mul.
  replace (- (e + -9)) with (- e + 9) by lia.
  rewrite Z.pow_add_r by lia. change (2 ^ 9) with 512.
  change (Z.pos 16776704) with (32767 * 512).
  assert (0 < 2 ^ (- e)) by (apply Z.pow_pos_nonneg; lia). nia.
Qed.

(** The conversion of any canonical float other than a NaN. *)
Lemma float_to_int16_clamped (x : spec_float) :
  F32.valid x = true -> SF_is_nan x = false ->
  exists v,
    AudioCapture.float_to_int16 x = Some v
    /\ -32767 <= v <= 32767
    /\ (F32.ltb F32.one x = true -> v = 32767)
    /\ (F32.ltb x F32.minus_one = true -> v = -32767)
    /\ (F32.ltb F32.one x = false -> F32.ltb x F32.minus_one = false ->
        SFtrunc (F32.mul x F32.c32767) = Some v).
Proof.
  intros Hvalid Hnan. unfold AudioCapture.float_to_int16, AudioCapture.clamp.
  destruct (F32.ltb F32.one x) eqn:Hhi.
  { (* above one: the second test sees 1.0f *)
    exists 32767. change (F32.ltb F32.one F32.minus_one) with false. cbv iota.
    split; [reflexivity|]. split; [lia|]. split; [reflexivity|].
    split; [|discriminate].
    intros Hlo. exfalso. destruct x as [[]|[]| |[] m e]; try discriminate. }
  destruct (F32.ltb x F32.minus_one) eqn:Hlo.
  { exists (-32767). split; [reflexivity|]. split; [lia|].
    split; [discriminate|]. split; [reflexivity|discriminate]. }
  destruct x as [s0|s0| |s m e]; try discriminate.
  - exists 0. destruct s0; repeat split; try discriminate; lia.
  - destruct s0; discriminate.
  - destruct (unit_range_magnitude s m e Hvalid Hhi Hlo) as [He Hm].
    destruct (float_to_int16_in_range s m e He Hm) as (v & Hv & Hrange).
    exists v. split; [exact Hv|]. split; [exact Hrange|].
    split; [discriminate|]. split; [discriminate|].
    intros _ _. unfold SF_to_int16 in Hv.
    destruct (SFtrunc _) as [z|]; [|discriminate].
    destruct (Int.is_int16b z); congruence.
Qed.

Lemma digits2_pos_exact (m : positive) (k : Z) :
  2 ^ (k - 1) <= Z.pos m < 2 ^ k -> 1 <= k -> Z.pos (digits2_pos m) = k.
Proof.
  intros [Hlo Hhi] Hk. pose proof (digits2_pos_bounds m) as [Hlo' Hhi'].
  set (d := Z.pos (digits2_pos m)) in *.
  assert (Hd : 1 <= d) by (subst d; lia).
  destruct (Z.lt_trichotomy d k) as [Hlt|[Heq|Hgt]]; [|exact Heq|].
  - assert (2 ^ d <= 2 ^ (k - 1)) by (apply Z.pow_le_mono_r; lia). lia.
  - assert (2 ^ k <= 2 ^ (d - 1)) by (apply Z.pow_le_mono_r; lia). lia.
Qed.

(** Every 32-bit pattern decodes to a canonical single-precision value. *)
Lemma of_bits_valid (w : Z) : F32.valid (F32.of_bits w) = true.
Proof.
  unfold F32.of_bits.
  set (e := Z.land (Z.shiftr w 23) 255). set (f := Z.land w 8388607).
  assert (Hf : 0 <= f < 8388608).
  { subst f. change 8388607 with (Z.ones 23). rewrite Z.land_ones by lia.
    apply Z.mod_pos_bound. reflexivity. }
  assert (He : 0 <= e < 256).
  { subst e. change 255 with (Z.ones 8). rewrite Z.land_ones by lia.
    apply Z.mod_pos_bound. reflexivity. }
  destruct (Z.eqb_spec e 0) as [He0|He0].
  - destruct f as [|m|m] eqn:Hfm; [reflexivity| |lia].
    unfold F32.valid, valid_binary, bounded, canonical_mantissa.
    apply andb_true_iff. split; [|reflexivity].
    apply Z.eqb_eq. unfold fexp, emin, F32.prec, F32.emax.
    assert (Z.pos (digits2_pos m) <= 23); [|lia].
    change (Z.pos (digits2_pos m)) with (Zdigits2 (Z.pos m)).
    apply Zdigits2_le; [lia|lia|]. change (2 ^ 23) with 8388608. lia.
  - destruct (Z.eqb_spec e 255) as [He255|He255].
    + destruct (f =? 0); reflexivity.
    + destruct (f + 8388608) as [|m|m] eqn:Hfm; [reflexivity| |reflexivity].
      unfold F32.valid, valid_binary, bounded, canonical_mantissa.
      assert (Hd : Z.pos (digits2_pos m) = 24).
      { apply digits2_pos_exact; [|lia].
        change (2 ^ (24 - 1)) with 8388608. change (2 ^ 24) with 16777216. lia. }
      apply andb_true_iff. split.
      * apply Z.eqb_eq. rewrite Hd. unfold fexp, emin, F32.prec, F32.emax. lia.
      * apply Z.leb_le. unfold F32.prec, F32.emax. lia.
Qed.

(** C2, as stated, fails on its own example: [-2.0] is clamped to [-1.0],
    scaled to [-32767.0] and converted to [-32767], not [-32768]. *)
Lemma normalizer_minus_two :
  F32.of_bits 3221225472 = F32.of_Z (-2)
  /\ AudioCapture.float_to_int16 (F32.of_Z (-2)) = Some (-32767)
  /\ AudioCapture.float_to_int16 (F32.of_Z (-2)) <> Some (-32768).
Proof. split; [reflexivity|]. split; [reflexivity|discriminate]. Qed.

(** C2, amended.  For every 32-bit pattern [w] that is not a NaN, the
    sample [x] it encodes is converted to an [int16] [v] between [-32767]
    and [32767]: [32767] when [x > 1.0], [-32767] when [x < -1.0], and
    otherwise the product [x * 32767.0f], rounded to single precision,
    truncated toward zero.  In particular [1.5] gives [32767] and [-2.0]
    gives [-32767]. *)
Theorem normalizer_clamps_and_scales (w : Z) :
  let x := F32.of_bits w in
  SF_is_nan x = false ->
  (exists v,
     AudioCapture.float_to_int16 x = Some v
     /\ -32767 <= v <= 32767
     /\ (F32.ltb F32.one x = true -> v = 32767)
     /\ (F32.ltb x F32.minus_one = true -> v = -32767)
     /\ (F32.ltb F32.one x = false -> F32.ltb x F32.minus_one = false ->
         SFtrunc (F32.mul x F32.c32767) = Some v))
  /\ AudioCapture.float_to_int16 (F32.of_bits 1069547520) = Some 32767
  /\ AudioCapture.float_to_int16 (F32.of_bits 3221225472) = Some (-32767).
Proof.
  intros x Hnan. split; [|split; reflexivity].
  apply float_to_int16_clamped; [apply of_bits_valid|exact Hnan].
Qed.

(** [0.75f] is converted to [24575]: the product is [24575.25]. *)
Lemma normalizer_clamps_and_scales_witness :
  exists v,
    AudioCapture.float_to_int16 (F32.of_bits 1061158912) = Some v
    /\ -32767 <= v <= 32767
    /\ (F32.ltb F32.one (F32.of_bits 1061158912) = true -> v = 32767)
    /\ (F32.ltb (F32.of_bits 1061158912) F32.minus_one = true -> v = -32767)
    /\ (F32.ltb F32.one (F32.of_bits 1061158912) = false ->
        F32.ltb (F32.of_bits 1061158912) F32.minus_one = false ->
        SFtrunc (F32.mul (F32.of_bits 1061158912) F32.c32767) = Some v).
Proof.
  apply (normalizer_clamps_and_scales 1061158912). reflexivity.
Defined.

Example normalizer_three_quarters :
  AudioCapture.float_to_int16 (F32.of_bits 1061158912) = Some 24575.
Proof. reflexivity. Qed.

(* ===================================================================== *)
(** * Further properties: starting, stopping, initializing *)
(* ===================================================================== *)

Section StartStop.
Context {Host : Type}.
Implicit Types (c : AudioCapture.AudioCapture Host)
  (callback : AudioCapture.AudioDataCallback Host) (hr : AudioCapture.HRESULT).

(** X1.  [AudioCapture::Start] returns [true] exactly when the object was
    not capturing, its audio client exists and the client's [Start]
    succeeds; then the object is capturing with the given callback and a
    running thread, and the last-error text is the old one.  In every
    case the object is capturing afterwards iff it was before or the call
    succeeded. *)
Theorem Start_succeeds_iff callback hr c :
  (fst (AudioCapture.Start callback hr c) = true
   <-> AudioCapture.m_isCapturing c = false
       /\ AudioCapture.m_audioClient c = true
       /\ AudioCapture.FAILED hr = false)
  /\ AudioCapture.IsCapturing (snd (AudioCapture.Start callback hr c))
     = AudioCapture.IsCapturing c || fst (AudioCapture.Start callback hr c)
  /\ (fst (AudioCapture.Start callback hr c) = true ->
      AudioCapture.m_callback (snd (AudioCapture.Start callback hr c)) = Some callback
      /\ AudioCapture.m_captureThread (snd (AudioCapture.Start callback hr c)) = true
      /\ AudioCapture.GetLastError (snd (AudioCapture.Start callback hr c))
         = AudioCapture.GetLastError c).
Proof.
  unfold AudioCapture.Start, AudioCapture.IsCapturing, AudioCapture.GetLastError.
  destruct (AudioCapture.m_isCapturing c) eqn:Hcap; simpl.
  { split; [split; [discriminate|intros (H & _); discriminate]|].
    split; [exact Hcap|discriminate]. }
  destruct (AudioCapture.m_audioClient c) eqn:Hcl; simpl.
  2:{ split; [split; [discriminate|intros (_ & H & _); discriminate]|].
      split; [exact Hcap|discriminate]. }
  destruct (AudioCapture.FAILED hr) eqn:Hhr; simpl.
  - split; [split; [discriminate|intros (_ & _ & H); discriminate]|].
    split; [reflexivity|discriminate].
  - repeat split.
Qed.

(** X2.  A [Start] that fails says why, and leaves the capturing flag and
    the thread as they were: "Already capturing" when the object was
    capturing, else "Audio client not initialized" when there is no audio
    client, else "Failed to start audio client".  Only in the last case
    has the callback been replaced. *)
Theorem Start_failure_reports callback hr c :
  fst (AudioCapture.Start callback hr c) = false ->
  let c' := snd (AudioCapture.Start callback hr c) in
  AudioCapture.GetLastError c'
  = (if AudioCapture.m_isCapturing c then "Already capturing"
     else if AudioCapture.m_audioClient c then "Failed to start audio client"
     else "Audio client not initialized")
  /\ AudioCapture.IsCapturing c' = AudioCapture.IsCapturing c
  /\ AudioCapture.m_captureThread c' = AudioCapture.m_captureThread c
  /\ AudioCapture.m_callback c'
     = (if negb (AudioCapture.m_isCapturing c) && AudioCapture.m_audioClient c
        then Some callback else AudioCapture.m_callback c).
Proof.
  unfold AudioCapture.Start, AudioCapture.IsCapturing, AudioCapture.GetLastError.
  destruct (AudioCapture.m_isCapturing c) eqn:Hcap; simpl; [intros _; auto|].
  destruct (AudioCapture.m_audioClient c) eqn:Hcl; simpl; [|intros _; auto].
  destruct (AudioCapture.FAILED hr); simpl; [intros _; auto|discriminate].
Qed.

(** X3.  After [Stop] the object is not capturing and has no joinable
    thread left from the run it stopped; its callback, audio client and
    last-error text are kept, a second [Stop] does nothing more, and a new
    [Start] succeeds whenever the audio client exists and starts. *)
Theorem Stop_then_restart callback hr c :
  AudioCapture.IsCapturing (Lifecycle.Stop c) = false
  /\ (AudioCapture.m_isCapturing c = true ->
      AudioCapture.m_captureThread (Lifecycle.Stop c) = false)
  /\ (AudioCapture.m_isCapturing c = false -> Lifecycle.Stop c = c)
  /\ Lifecycle.Stop (Lifecycle.Stop c) = Lifecycle.Stop c
  /\ AudioCapture.GetLastError (Lifecycle.Stop c) = AudioCapture.GetLastError c
  /\ AudioCapture.m_callback (Lifecycle.Stop c) = AudioCapture.m_callback c
  /\ (fst (AudioCapture.Start callback hr (Lifecycle.Stop c)) = true
      <-> AudioCapture.m_audioClient c = true /\ AudioCapture.FAILED hr = false).
Proof.
  unfold Lifecycle.Stop, AudioCapture.IsCapturing, AudioCapture.GetLastError,
    AudioCapture.Start.
  destruct (AudioCapture.m_isCapturing c) eqn:Hcap; simpl.
  - repeat split; try discriminate.
    + destruct (AudioCapture.m_audioClient c); simpl;
        [|discriminate]. destruct (AudioCapture.FAILED hr); [discriminate|reflexivity].
    + destruct (AudioCapture.m_audioClient c); simpl; [|discriminate].
      destruct (AudioCapture.FAILED hr); [discriminate|reflexivity].
    + intros [-> ->]. reflexivity.
  - rewrite Hcap. simpl. repeat split; try assumption; try discriminate.
    + destruct (AudioCapture.m_audioClient c); simpl;
        [|discriminate]. destruct (AudioCapture.FAILED hr); [discriminate|reflexivity].
    + destruct (AudioCapture.m_audioClient c); simpl; [|discriminate].
      destruct (AudioCapture.FAILED hr); [discriminate|reflexivity].
    + intros [-> ->]. reflexivity.
Qed.

End StartStop.

Lemma Start_failure_reports_witness :
  AudioCapture.GetLastError
    (snd (AudioCapture.Start WasapiLoopback.accumulate AudioCapture.S_OK
            (fst (Lifecycle.fresh Demo.pcm16_stereo))))
  = "Audio client not initialized".
Proof.
  apply (Start_failure_reports WasapiLoopback.accumulate AudioCapture.S_OK
           (fst (Lifecycle.fresh Demo.pcm16_stereo))).
  reflexivity.
Defined.

Section Initialization.
Context {Host : Type}.
Implicit Types (o : Lifecycle.Object Host) (e : Lifecycle.Endpoint).

(** Run through the calls of [InitializeWASAPI] one by one. *)
Ltac by_calls e :=
  unfold Lifecycle.Initialize, Lifecycle.InitializeWASAPI;
  destruct (AudioCapture.FAILED (Lifecycle.hr_CoCreateInstance e)) eqn:H1;
  [|destruct (AudioCapture.FAILED (Lifecycle.hr_GetDefaultAudioEndpoint e)) eqn:H2;
    [|destruct (AudioCapture.FAILED (Lifecycle.hr_Activate e)) eqn:H3;
      [|destruct (AudioCapture.FAILED (Lifecycle.hr_GetMixFormat e)) eqn:H4;
        [|destruct (AudioCapture.FAILED (Lifecycle.hr_Initialize e)) eqn:H5;
          [|destruct (AudioCapture.FAILED (Lifecycle.hr_GetBufferSize e)) eqn:H6;
            [|destruct (AudioCapture.FAILED (Lifecycle.hr_GetService e)) eqn:H7]]]]]];
  simpl.

(** X4.  [Initialize] returns [true] exactly when all seven calls to the
    audio subsystem succeed.  The object then has its audio client and
    capture client, the mix format with its sample rate and channel count,
    and the device's buffer size; it is capturing or not as before, and
    its last-error text is the old one. *)
Theorem Initialize_succeeds_iff e o :
  (fst (Lifecycle.Initialize e o) = true
   <-> AudioCapture.FAILED (Lifecycle.hr_CoCreateInstance e) = false
       /\ AudioCapture.FAILED (Lifecycle.hr_GetDefaultAudioEndpoint e) = false
       /\ AudioCapture.FAILED (Lifecycle.hr_Activate e) = false
       /\ AudioCapture.FAILED (Lifecycle.hr_GetMixFormat e) = false
       /\ AudioCapture.FAILED (Lifecycle.hr_Initialize e) = false
       /\ AudioCapture.FAILED (Lifecycle.hr_GetBufferSize e) = false
       /\ AudioCapture.FAILED (Lifecycle.hr_GetService e) = false)
  /\ (fst (Lifecycle.Initialize e o) = true ->
      let c' := fst (snd (Lifecycle.Initialize e o)) in
      let i' := snd (snd (Lifecycle.Initialize e o)) in
      AudioCapture.m_audioClient c' = true
      /\ AudioCapture.m_captureClient c' = true
      /\ AudioCapture.m_waveFormat c' = Lifecycle.mixFormat e
      /\ AudioCapture.m_sampleRate c'
         = Int.to_int32 (AudioCapture.nSamplesPerSec (Lifecycle.mixFormat e))
      /\ AudioCapture.m_channels c' = AudioCapture.nChannels (Lifecycle.mixFormat e)
      /\ Lifecycle.m_bufferFrameCount i' = Lifecycle.bufferSize e
      /\ AudioCapture.IsCapturing c' = AudioCapture.IsCapturing (fst o)
      /\ AudioCapture.m_callback c' = AudioCapture.m_callback (fst o)
      /\ AudioCapture.GetLastError c' = AudioCapture.GetLastError (fst o)).
Proof.
  destruct o as [c i]. by_calls e;
    (split; [split; [try discriminate; intros _; repeat split; assumption
                    |try reflexivity; intros (?&?&?&?&?&?&?); congruence]
            |try discriminate; intros _; repeat split]).
Qed.

(** X5.  When [Initialize] fails, the last-error text names the first call
    that failed (with the result code for the client's own [Initialize]),
    and the members that later calls would have set are as they were. *)
Theorem Initialize_failure_reports e o :
  fst (Lifecycle.Initialize e o) = false ->
  let c := fst o in
  let c' := fst (snd (Lifecycle.Initialize e o)) in
  AudioCapture.GetLastError c'
  = (if AudioCapture.FAILED (Lifecycle.hr_CoCreateInstance e)
     then "Failed to create device enumerator"
     else if AudioCapture.FAILED (Lifecycle.hr_GetDefaultAudioEndpoint e)
     then "Failed to get default audio endpoint"
     else if AudioCapture.FAILED (Lifecycle.hr_Activate e)
     then "Failed to activate audio client"
     else if AudioCapture.FAILED (Lifecycle.hr_GetMixFormat e)
     then "Failed to get mix format"
     else if AudioCapture.FAILED (Lifecycle.hr_Initialize e)
     then String.append "Failed to initialize audio client for loopback. Error: "
            (Lifecycle.to_string (Lifecycle.hr_Initialize e))
     else if AudioCapture.FAILED (Lifecycle.hr_GetBufferSize e)
     then "Failed to get buffer size"
     else "Failed to get capture client")
  /\ (AudioCapture.FAILED (Lifecycle.hr_CoCreateInstance e)
      || AudioCapture.FAILED (Lifecycle.hr_GetDefaultAudioEndpoint e) = true ->
      AudioCapture.m_audioClient c' = AudioCapture.m_audioClient c)
  /\ (AudioCapture.FAILED (Lifecycle.hr_CoCreateInstance e)
      || AudioCapture.FAILED (Lifecycle.hr_GetDefaultAudioEndpoint e)
      || AudioCapture.FAILED (Lifecycle.hr_Activate e)
      || AudioCapture.FAILED (Lifecycle.hr_GetMixFormat e) = true ->
      AudioCapture.m_waveFormat c' = AudioCapture.m_waveFormat c
      /\ AudioCapture.m_sampleRate c' = AudioCapture.m_sampleRate c
      /\ AudioCapture.m_channels c' = AudioCapture.m_channels c)
  /\ (AudioCapture.m_captureClient c = false ->
      AudioCapture.m_captureClient c' = false)
  /\ AudioCapture.IsCapturing c' = AudioCapture.IsCapturing c.
Proof.
  destruct o as [c i]. by_calls e; intros Hfail; try discriminate;
    repeat split; try discriminate; auto.
Qed.

(** X6.  [Start] looks at the audio client only.  After an [Initialize]
    that got as far as activating the audio client and then failed, on an
    object that never had a capture client, a [Start] whose client call
    succeeds returns [true]: the object is capturing and its thread is
    running although there is no capture client. *)
Theorem Start_after_failed_Initialize e o
    (callback : AudioCapture.AudioDataCallback Host) (hr : AudioCapture.HRESULT) :
  fst (Lifecycle.Initialize e o) = false ->
  AudioCapture.FAILED (Lifecycle.hr_CoCreateInstance e) = false ->
  AudioCapture.FAILED (Lifecycle.hr_GetDefaultAudioEndpoint e) = false ->
  AudioCapture.FAILED (Lifecycle.hr_Activate e) = false ->
  AudioCapture.m_isCapturing (fst o) = false ->
  AudioCapture.m_captureClient (fst o) = false ->
  AudioCapture.FAILED hr = false ->
  let started := AudioCapture.Start callback hr (fst (snd (Lifecycle.Initialize e o))) in
  fst started = true
  /\ AudioCapture.IsCapturing (snd started) = true
  /\ AudioCapture.m_captureThread (snd started) = true
  /\ AudioCapture.m_captureClient (snd started) = false.
Proof.
  destruct o as [c i]. simpl fst.
  intros Hfail Hc1 Hc2 Hc3 Hcap Hcl Hhr.
  unfold AudioCapture.Start, AudioCapture.IsCapturing.
  revert Hfail. by_calls e; intros Hfail; try discriminate;
    rewrite ?Hcap, ?Hhr; simpl; rewrite ?Hhr; simpl; auto.
Qed.

(** X7.  [Cleanup] releases every interface and the format: a [Start] on
    an object that is not capturing then fails with "Audio client not
    initialized".  The sample rate, channel count and last-error text
    survive it, and a second [Cleanup] changes nothing. *)
Theorem Cleanup_releases o
    (callback : AudioCapture.AudioDataCallback Host) (hr : AudioCapture.HRESULT) :
  let c' := fst (Lifecycle.Cleanup o) in
  let i' := snd (Lifecycle.Cleanup o) in
  AudioCapture.m_audioClient c' = false
  /\ AudioCapture.m_captureClient c' = false
  /\ Lifecycle.m_deviceEnumerator i' = false
  /\ Lifecycle.m_device i' = false
  /\ Lifecycle.m_waveFormat_allocated i' = false
  /\ AudioCapture.m_sampleRate c' = AudioCapture.m_sampleRate (fst o)
  /\ AudioCapture.m_channels c' = AudioCapture.m_channels (fst o)
  /\ AudioCapture.GetLastError c' = AudioCapture.GetLastError (fst o)
  /\ Lifecycle.Cleanup (Lifecycle.Cleanup o) = Lifecycle.Cleanup o
  /\ (AudioCapture.m_isCapturing (fst o) = false ->
      fst (AudioCapture.Start callback hr c') = false
      /\ AudioCapture.GetLastError (snd (AudioCapture.Start callback hr c'))
         = "Audio client not initialized").
Proof.
  destruct o as [c i]. simpl. repeat split.
  - unfold AudioCapture.Start. simpl. now rewrite H.
  - unfold AudioCapture.Start. simpl. now rewrite H.
Qed.

End Initialization.

Lemma Initialize_failure_reports_witness :
  AudioCapture.GetLastError
    (fst (snd (Lifecycle.Initialize (Lifecycle.rejects_format Demo.pcm16_stereo)
                 (Lifecycle.fresh (Host := WasapiLoopback.Accumulation)
                    Demo.pcm16_stereo))))
  = "Failed to initialize audio client for loopback. Error: -2004287480".
Proof.
  apply (Initialize_failure_reports (Lifecycle.rejects_format Demo.pcm16_stereo)
           (Lifecycle.fresh Demo.pcm16_stereo)).
  reflexivity.
Defined.

Lemma Start_after_failed_Initialize_witness :
  fst (AudioCapture.Start WasapiLoopback.accumulate AudioCapture.S_OK
         (fst (snd (Lifecycle.Initialize
                      (Lifecycle.rejects_format Demo.pcm16_stereo)
                      (Lifecycle.fresh Demo.pcm16_stereo))))) = true.
Proof.
  apply (Start_after_failed_Initialize
           (Lifecycle.rejects_format Demo.pcm16_stereo)
           (Lifecycle.fresh Demo.pcm16_stereo)
           WasapiLoopback.accumulate AudioCapture.S_OK); reflexivity.
Defined.

(* ===================================================================== *)
(** * Further properties: the capture thread *)
(* ===================================================================== *)

Section ThreadFacts.
Context {Host World : Type}.
Variable indefinite : Z.
Variable session : AudioCapture.Session World.
Implicit Types (c : AudioCapture.AudioCapture Host) (h : Host) (w : World).

(** With a packet always pending and no call failing, a thread that has
    entered its inner loop never leaves it. *)
Lemma drain_busy
    (Hsize : forall w,
       AudioCapture.FAILED (fst (fst (AudioCapture.GetNextPacketSize session w))) = false
       /\ snd (fst (AudioCapture.GetNextPacketSize session w)) <> 0)
    (Hbuffer : forall w,
       AudioCapture.FAILED (fst (fst (AudioCapture.GetBuffer session w))) = false)
    (Hrelease : forall n w,
       AudioCapture.FAILED (fst (AudioCapture.ReleaseBuffer session n w)) = false) :
  forall fuel (t : AudioCapture.thread_state Host World),
    match t with
    | AudioCapture.Draining _ len _ _ => len <> 0
    | AudioCapture.Terminated _ _ _ | AudioCapture.Undefined _ _ _ => True
    | _ => False
    end ->
    AudioCapture.has_exited (AudioCapture.run indefinite session fuel t) = false.
Proof.
  intros fuel t Ht.
  set (P := fun t : AudioCapture.thread_state Host World =>
              match t with
              | AudioCapture.Draining _ len _ _ => len <> 0
              | AudioCapture.Terminated _ _ _ | AudioCapture.Undefined _ _ _ => True
              | _ => False
              end).
  assert (HP : P (AudioCapture.run indefinite session fuel t)).
  { apply run_invariant; [|exact Ht]. clear t Ht.
    intros t Ht. by_turn indefinite session t; simpl in Ht; try contradiction;
      try exact I.
    - apply Z.eqb_eq in Hlen. contradiction.
    - pose proof (Hbuffer tw) as Hb. rewrite Hget in Hb. simpl in Hb. congruence.
    - pose proof (Hrelease (AudioCapture.numFramesAvailable p) w1) as Hr.
      rewrite Hrel in Hr. simpl in Hr. congruence.
    - pose proof (Hsize w2) as [Hs _]. rewrite Hpoll in Hs. simpl in Hs. congruence.
    - pose proof (Hsize w2) as [_ Hne]. rewrite Hpoll in Hne. exact Hne. }
  destruct (AudioCapture.run indefinite session fuel t); simpl in HP;
    try contradiction; reflexivity.
Qed.

(** A thread that hands nothing to its callback leaves the host data
    alone. *)
Lemma CaptureThread_inert c
    (Hinert : forall p h, AudioCapture.process_packet indefinite c p h = Some h) :
  forall fuel h w,
    AudioCapture.thread_host
      (AudioCapture.CaptureThread indefinite session fuel c h w) = h.
Proof.
  intros fuel h w. unfold AudioCapture.CaptureThread. rewrite run_host. simpl.
  apply foldl_inert, Forall_forall. intros p _ h' Hp.
  rewrite Hinert in Hp. congruence.
Qed.

End ThreadFacts.

(** X8.  The inner loop does not look at [m_isCapturing].  With a session
    that always has a packet pending and never fails, a thread that has
    seen the flag set once has not returned after any number of turns,
    whatever the flag reads from then on: [Stop] would wait forever. *)
Theorem stop_unseen_while_draining {Host World : Type} (indefinite : Z)
    (session : AudioCapture.Session World)
    (c : AudioCapture.AudioCapture Host) (h : Host) (w : World) :
  (forall w,
     AudioCapture.FAILED (fst (fst (AudioCapture.GetNextPacketSize session w))) = false
     /\ snd (fst (AudioCapture.GetNextPacketSize session w)) <> 0) ->
  (forall w,
     AudioCapture.FAILED (fst (fst (AudioCapture.GetBuffer session w))) = false) ->
  (forall n w,
     AudioCapture.FAILED (fst (AudioCapture.ReleaseBuffer session n w)) = false) ->
  AudioCapture.read_isCapturing session w = true ->
  forall fuel,
    AudioCapture.has_exited
      (AudioCapture.CaptureThread indefinite session fuel c h w) = false.
Proof.
  intros Hsize Hbuffer Hrelease Hrun [|fuel]; [reflexivity|].
  unfold AudioCapture.CaptureThread. cbn [AudioCapture.run].
  apply (drain_busy indefinite session Hsize Hbuffer Hrelease).
  cbn [AudioCapture.step]. rewrite Hrun. cbn [negb].
  destruct (AudioCapture.m_captureClient c); cbn [negb]; [|exact I].
  pose proof (Hsize w) as [Hs Hne].
  destruct (AudioCapture.GetNextPacketSize session w) as [[hr len] w1].
  simpl in Hs, Hne. rewrite Hs. exact Hne.
Qed.

Lemma stop_unseen_while_draining_witness :
  AudioCapture.read_isCapturing Lifecycle.busy 1%nat = false
  /\ forall fuel,
       AudioCapture.has_exited
         (AudioCapture.CaptureThread 0 Lifecycle.busy fuel
            (Demo.capturing Demo.pcm16_stereo) (Demo.buffer [] 0 0) 0%nat) = false.
Proof.
  split; [reflexivity|].
  apply (stop_unseen_while_draining 0 Lifecycle.busy
           (Demo.capturing Demo.pcm16_stereo) (Demo.buffer [] 0 0) 0%nat).
  - intros w. split; [reflexivity|]. simpl. lia.
  - reflexivity.
  - reflexivity.
  - reflexivity.
Defined.

(** That thread is not idle: after four turns it has appended the packet
    three times. *)
Example busy_thread_appends :
  WasapiLoopback.m_audioBuffer
    (AudioCapture.thread_host
       (AudioCapture.CaptureThread 0 Lifecycle.busy 4
          (Demo.capturing Demo.pcm16_stereo) (Demo.buffer [] 0 0) 0%nat))
  = [7; 9; 7; 9; 7; 9].
Proof. reflexivity. Qed.

(** Every sample a packet converts to is a 16-bit value. *)
Lemma convert_int16 indefinite fmt channels p samples :
  AudioCapture.convert indefinite fmt channels p = Some samples ->
  Forall Int.is_int16 samples.
Proof.
  unfold AudioCapture.convert, AudioCapture.convert_pcm16.
  destruct (_ || _).
  - destruct (Z.ltb_spec (AudioCapture.numSamples
                            (AudioCapture.numFramesAvailable p) channels) 0) as [Hn|Hn].
    + unfold AudioCapture.convert_float, AudioCapture.resize.
      destruct (Z.ltb_spec (AudioCapture.numSamples
                              (AudioCapture.numFramesAvailable p) channels) 0);
        [discriminate|lia].
    + rewrite convert_float_map by exact Hn. intros [= <-].
      apply Forall_forall. intros x Hx.
      apply list_elem_of_In, in_map_iff in Hx as (i & <- & _).
      unfold AudioCapture.float_sample, AudioCapture.float_to_int16, SF_to_int16.
      destruct (SFtrunc _) as [z|]; simpl; [|apply to_int16_range].
      destruct (Int.is_int16b z) eqn:Hz; simpl; [|apply to_int16_range].
      now apply is_int16b_spec.
  - destruct (_ =? 16); [|intros [= <-]; constructor].
    destruct (_ <? 0); [discriminate|]. intros [= <-].
    apply Forall_forall. intros x Hx.
    apply list_elem_of_In, in_map_iff in Hx as (i & <- & _).
    apply to_int16_range.
Qed.

(** What the accumulating callback has made of a sequence of packets. *)
Lemma accumulate_packets indefinite
    (c : AudioCapture.AudioCapture WasapiLoopback.Accumulation) :
  AudioCapture.m_callback c = Some WasapiLoopback.accumulate ->
  forall ps a,
    WasapiLoopback.m_audioBuffer
      (foldl (fun h p => default h (AudioCapture.process_packet indefinite c p h)) a ps)
    = WasapiLoopback.m_audioBuffer a
      ++ concat (map (fun p => default [] (AudioCapture.convert indefinite
                                             (AudioCapture.m_waveFormat c)
                                             (AudioCapture.m_channels c) p))
                   (List.filter Lifecycle.audible ps)).
Proof.
  intros Hcb. induction ps as [|p ps IH]; intros a; simpl.
  - now rewrite app_nil_r.
  - rewrite IH. unfold AudioCapture.process_packet at 1. rewrite Hcb.
    unfold Lifecycle.audible at 2.
    destruct (0 <? AudioCapture.numFramesAvailable p); simpl; [|reflexivity].
    destruct (AudioCapture.convert indefinite (AudioCapture.m_waveFormat c)
                (AudioCapture.m_channels c) p) as [samples|] eqn:Hconv; simpl.
    + destruct (AudioCapture.silent p); simpl.
      { now rewrite andb_false_r. }
      rewrite andb_true_r, Hconv. simpl.
      destruct (bool_decide_reflect (samples = [])) as [->|_]; simpl.
      * reflexivity.
      * now rewrite app_assoc.
    + destruct (negb (AudioCapture.silent p)); simpl; [|reflexivity].
      now rewrite Hconv.
Qed.

(** X9.  The capture thread only ever appends.  When the callback is the
    accumulating one, the buffer after any number of turns is the buffer
    the thread started from followed by the conversions of the packets
    that [GetBuffer] has handed out so far in this run, in the order of
    their delivery, those with no frame or with the silent flag left out
    (a packet whose conversion throws contributes nothing and ends the
    run); nothing already accumulated is removed or changed. *)
Theorem capture_appends_delivered_packets {World : Type} (indefinite : Z)
    (session : AudioCapture.Session World)
    (c : AudioCapture.AudioCapture WasapiLoopback.Accumulation)
    (a : WasapiLoopback.Accumulation) (w : World) (fuel : nat) :
  AudioCapture.m_callback c = Some WasapiLoopback.accumulate ->
  WasapiLoopback.m_audioBuffer
    (AudioCapture.thread_host
       (AudioCapture.CaptureThread indefinite session fuel c a w))
  = WasapiLoopback.m_audioBuffer a
    ++ concat
         (map (fun p => default [] (AudioCapture.convert indefinite
                                      (AudioCapture.m_waveFormat c)
                                      (AudioCapture.m_channels c) p))
            (List.filter Lifecycle.audible
               (AudioCapture.deliveries indefinite session fuel
                  (AudioCapture.Polling c a w)))).
Proof.
  intros Hcb. unfold AudioCapture.CaptureThread. rewrite run_host. simpl.
  now apply accumulate_packets.
Qed.

Lemma capture_appends_delivered_packets_witness :
  WasapiLoopback.m_audioBuffer
    (AudioCapture.thread_host
       (AudioCapture.CaptureThread 0 Lifecycle.busy 3
          (Demo.capturing Demo.pcm16_stereo) (Demo.buffer [1; 2] 48000 2) 0%nat))
  = [1; 2]
    ++ concat
         (map (fun p => default [] (AudioCapture.convert 0 Demo.pcm16_stereo 2 p))
            (List.filter Lifecycle.audible
               (AudioCapture.deliveries 0 Lifecycle.busy 3
                  (AudioCapture.Polling (Demo.capturing Demo.pcm16_stereo)
                     (Demo.buffer [1; 2] 48000 2) 0%nat)))).
Proof.
  apply (capture_appends_delivered_packets 0 Lifecycle.busy
           (Demo.capturing Demo.pcm16_stereo) (Demo.buffer [1; 2] 48000 2) 0%nat 3).
  reflexivity.
Defined.

(** In that run two packets have been delivered after three turns, and
    the buffer holds both. *)
Example busy_thread_deliveries :
  AudioCapture.deliveries 0 Lifecycle.busy 3
    (AudioCapture.Polling (Demo.capturing Demo.pcm16_stereo)
       (Demo.buffer [1; 2] 48000 2) 0%nat)
  = [Demo.frame_7_9; Demo.frame_7_9]
  /\ WasapiLoopback.m_audioBuffer
       (AudioCapture.thread_host
          (AudioCapture.CaptureThread 0 Lifecycle.busy 3
             (Demo.capturing Demo.pcm16_stereo) (Demo.buffer [1; 2] 48000 2) 0%nat))
     = [1; 2; 7; 9; 7; 9].
Proof. split; reflexivity. Qed.

(** X11.  A stream that is neither float-tagged, extensible-tagged nor
    16 bits deep (24-bit or 32-bit integer PCM, say) is captured as
    nothing at all: every packet converts to no samples, no callback is
    made, and the thread ends with the host data it started with.  The
    same holds when no callback is registered. *)
Theorem unsupported_format_captures_nothing {Host World : Type} (indefinite : Z)
    (session : AudioCapture.Session World)
    (c : AudioCapture.AudioCapture Host) (h : Host) (w : World) (fuel : nat) :
  (AudioCapture.wFormatTag (AudioCapture.m_waveFormat c)
     <> AudioCapture.WAVE_FORMAT_IEEE_FLOAT
   /\ AudioCapture.wFormatTag (AudioCapture.m_waveFormat c)
     <> AudioCapture.WAVE_FORMAT_EXTENSIBLE
   /\ AudioCapture.wBitsPerSample (AudioCapture.m_waveFormat c) <> 16)
  \/ AudioCapture.m_callback c = None ->
  (forall p, AudioCapture.process_packet indefinite c p h = Some h)
  /\ AudioCapture.thread_host
       (AudioCapture.CaptureThread indefinite session fuel c h w) = h.
Proof.
  intros Hcase.
  assert (Hinert : forall p h0,
            AudioCapture.process_packet indefinite c p h0 = Some h0).
  { intros p h0. unfold AudioCapture.process_packet.
    destruct Hcase as [(Hf & He & Hb)|Hnone]; [|now rewrite Hnone].
    destruct (AudioCapture.m_callback c); [|reflexivity].
    destruct (0 <? _); [|reflexivity].
    unfold AudioCapture.convert.
    destruct (Z.eqb_spec (AudioCapture.wFormatTag (AudioCapture.m_waveFormat c))
                AudioCapture.WAVE_FORMAT_IEEE_FLOAT); [contradiction|].
    destruct (Z.eqb_spec (AudioCapture.wFormatTag (AudioCapture.m_waveFormat c))
                AudioCapture.WAVE_FORMAT_EXTENSIBLE); [contradiction|].
    destruct (Z.eqb_spec (AudioCapture.wBitsPerSample (AudioCapture.m_waveFormat c))
                16); [contradiction|].
    reflexivity. }
  split; [intros p; apply Hinert|].
  now apply CaptureThread_inert.
Qed.

Lemma unsupported_format_captures_nothing_witness :
  AudioCapture.thread_host
    (AudioCapture.CaptureThread 0 Demo.session 6
       (Demo.capturing
          {| AudioCapture.wFormatTag := AudioCapture.WAVE_FORMAT_PCM;
             AudioCapture.nChannels := 2; AudioCapture.nSamplesPerSec := 48000;
             AudioCapture.wBitsPerSample := 24;
             AudioCapture.SubFormat := AudioCapture.KSDATAFORMAT_SUBTYPE_PCM |})
       (Demo.buffer [1; 2] 48000 2) 0%nat)
  = Demo.buffer [1; 2] 48000 2.
Proof.
  apply (unsupported_format_captures_nothing 0 Demo.session).
  left. simpl. repeat split; discriminate.
Defined.

(* ===================================================================== *)
(** * Further properties: sample conversion *)
(* ===================================================================== *)

Lemma numSamples_exact frames channels :
  0 <= frames -> 0 <= channels -> frames * channels < 2147483648 ->
  frames < 4294967296 -> channels < 4294967296 ->
  AudioCapture.numSamples frames channels = frames * channels.
Proof.
  intros Hf Hc Hprod Hf32 Hc32. unfold AudioCapture.numSamples.
  rewrite (to_uint32_id frames), (to_uint32_id channels) by lia.
  rewrite to_uint32_id by nia.
  apply to_int32_id. unfold Int.is_int32. nia.
Qed.

(** X12.  For a float-tagged, extensible-tagged or 16-bit stream a packet
    of [frames] frames converts, without an exception, to exactly
    [frames * channels] samples (the product being below 2^31), each of
    them a 16-bit value. *)
Theorem convert_shape (indefinite : Z) (fmt : AudioCapture.WAVEFORMATEX)
    (channels : Z) (p : AudioCapture.packet) :
  AudioCapture.wFormatTag fmt = AudioCapture.WAVE_FORMAT_IEEE_FLOAT
  \/ AudioCapture.wFormatTag fmt = AudioCapture.WAVE_FORMAT_EXTENSIBLE
  \/ AudioCapture.wBitsPerSample fmt = 16 ->
  0 <= AudioCapture.numFramesAvailable p < 4294967296 ->
  0 <= channels < 65536 ->
  AudioCapture.numFramesAvailable p * channels < 2147483648 ->
  exists samples,
    AudioCapture.convert indefinite fmt channels p = Some samples
    /\ length samples = Z.to_nat (AudioCapture.numFramesAvailable p * channels)
    /\ Forall Int.is_int16 samples.
Proof.
  intros Hfmt Hframes Hch Hprod.
  assert (Hn : AudioCapture.numSamples (AudioCapture.numFramesAvailable p) channels
               = AudioCapture.numFramesAvailable p * channels)
    by (apply numSamples_exact; lia).
  assert (Hsome : exists samples,
            AudioCapture.convert indefinite fmt channels p = Some samples
            /\ length samples
               = Z.to_nat (AudioCapture.numFramesAvailable p * channels)).
  { unfold AudioCapture.convert. rewrite Hn.
    destruct (_ || _) eqn:Hfloat.
    - rewrite convert_float_map by nia. eexists. split; [reflexivity|].
      now rewrite length_map, length_seq.
    - apply orb_false_iff in Hfloat as [Hf He].
      apply Z.eqb_neq in Hf, He.
      destruct Hfmt as [Hfmt|[Hfmt|Hfmt]]; try contradiction.
      rewrite Hfmt. simpl. unfold AudioCapture.convert_pcm16.
      destruct (Z.ltb_spec (AudioCapture.numFramesAvailable p * channels) 0); [nia|].
      eexists. split; [reflexivity|]. now rewrite length_map, length_seq. }
  destruct Hsome as (samples & Hconv & Hlen).
  exists samples. split; [exact Hconv|]. split; [exact Hlen|].
  exact (convert_int16 _ _ _ _ _ Hconv).
Qed.

Lemma convert_shape_witness :
  exists samples,
    AudioCapture.convert 0 Demo.pcm16_stereo 2 Demo.frame_7_9 = Some samples
    /\ length samples = Z.to_nat (1 * 2)
    /\ Forall Int.is_int16 samples.
Proof.
  apply (convert_shape 0 Demo.pcm16_stereo 2 Demo.frame_7_9).
  - right. right. reflexivity.
  - simpl. lia.
  - lia.
  - simpl. lia.
Defined.

Lemma int16_le_round_trip x :
  Int.is_int16 x -> Int.to_int16 (le_combine (le_split 2 x)) = x.
Proof.
  intros Hx. rewrite le_combine_split. change (Z.of_nat 2 * 8) with 16.
  unfold Int.to_int16, Int.to_signed, Int.is_int16 in *.
  change (2 ^ (16 - 1)) with 32768. change (2 ^ 16) with 65536.
  destruct (Z_lt_le_dec x 0).
  - replace (x mod 65536) with (x + 65536).
    + replace (x + 65536 + 32768) with (x + 32768 + 1 * 65536) by lia.
      rewrite Z.mod_add by lia. rewrite Z.mod_small by lia. lia.
    + symmetry. replace x with (x + 65536 + (-1) * 65536) at 1 by lia.
      rewrite Z.mod_add by lia. apply Z.mod_small. lia.
  - rewrite (Z.mod_small x) by lia. rewrite Z.mod_small by lia. lia.
Qed.

(** The two bytes at [2i] of the little-endian image of [samples]. *)
Lemma sample_bytes_nth (samples : list Z) i x :
  samples !! i = Some x ->
  [nth (2 * i) (flat_map (WasapiLoopback.write_int 2) samples) Byte.x00;
   nth (2 * i + 1) (flat_map (WasapiLoopback.write_int 2) samples) Byte.x00]
  = le_split 2 x.
Proof.
  intros Hx. pose proof (sample_bytes samples i x Hx) as Hb.
  set (l := flat_map (WasapiLoopback.write_int 2) samples) in *.
  unfold bytes_at in Hb.
  change (WasapiLoopback.write_int 2 x) with (le_split 2 x) in Hb.
  assert (Hlen : length (le_split 2 x) = 2%nat) by apply length_le_split.
  destruct (le_split 2 x) as [|b0 [|b1 [|? ?]]]; try discriminate.
  assert (H0 : drop (2 * i) l !! 0%nat = Some b0).
  { rewrite <- (lookup_take_lt _ 2) by lia. now rewrite Hb. }
  assert (H1 : drop (2 * i) l !! 1%nat = Some b1).
  { rewrite <- (lookup_take_lt _ 2) by lia. now rewrite Hb. }
  rewrite lookup_drop in H0, H1.
  replace (2 * i + 0)%nat with (2 * i)%nat in H0 by lia.
  f_equal; [|f_equal].
  - now apply nth_lookup_Some with (d := Byte.x00) in H0.
  - now apply nth_lookup_Some with (d := Byte.x00) in H1.
Qed.

(** X13.  The 16-bit branch copies verbatim: a packet whose memory holds
    the little-endian image of 16-bit samples (as [SaveToWav] writes them
    to a file) converts back to exactly those samples. *)
Theorem pcm16_round_trip (indefinite : Z) (fmt : AudioCapture.WAVEFORMATEX)
    (channels frames flags : Z) (samples : list Z) :
  Forall Int.is_int16 samples ->
  AudioCapture.wFormatTag fmt <> AudioCapture.WAVE_FORMAT_IEEE_FLOAT ->
  AudioCapture.wFormatTag fmt <> AudioCapture.WAVE_FORMAT_EXTENSIBLE ->
  AudioCapture.wBitsPerSample fmt = 16 ->
  AudioCapture.numSamples frames channels = Z.of_nat (length samples) ->
  AudioCapture.convert indefinite fmt channels
    {| AudioCapture.numFramesAvailable := frames;
       AudioCapture.data :=
         fun i => nth i (flat_map (WasapiLoopback.write_int 2) samples) Byte.x00;
       AudioCapture.flags := flags |}
  = Some samples.
Proof.
  intros Hall Hf He Hbits Hn. unfold AudioCapture.convert.
  apply Z.eqb_neq in Hf, He. rewrite Hf, He, Hbits. simpl.
  rewrite Hn. unfold AudioCapture.convert_pcm16.
  destruct (Z.ltb_spec (Z.of_nat (length samples)) 0) as [|_]; [lia|].
  rewrite Nat2Z.id. f_equal.
  apply list_eq. intros i. rewrite list_lookup_fmap.
  destruct (samples !! i) as [x|] eqn:Hx.
  - rewrite lookup_seq_lt by (apply lookup_lt_Some in Hx; lia). simpl.
    f_equal. unfold AudioCapture.pcmData.
    rewrite (sample_bytes_nth samples i x Hx).
    apply int16_le_round_trip.
    exact (proj1 (Forall_lookup _ _) Hall i x Hx).
  - rewrite lookup_seq_ge by (apply lookup_ge_None in Hx; lia). reflexivity.
Qed.

Lemma pcm16_round_trip_witness :
  AudioCapture.convert 0 Demo.pcm16_stereo 2
    {| AudioCapture.numFramesAvailable := 2;
       AudioCapture.data :=
         fun i => nth i (flat_map (WasapiLoopback.write_int 2)
                           [100; -50; 32767; -32768]) Byte.x00;
       AudioCapture.flags := 0 |}
  = Some [100; -50; 32767; -32768].
Proof.
  apply (pcm16_round_trip 0 Demo.pcm16_stereo 2 2 0 [100; -50; 32767; -32768]).
  - repeat constructor; unfold Int.is_int16; lia.
  - discriminate.
  - discriminate.
  - reflexivity.
  - reflexivity.
Defined.

Lemma SFcompare_opp a b : SFcompare (SFopp a) (SFopp b) = SFcompare b a.
Proof.
  destruct a as [sa|sa| |sa ma ea], b as [sb|sb| |sb mb eb];
    try reflexivity; try (destruct sa; reflexivity); try (destruct sb; reflexivity);
    try (destruct sa, sb; reflexivity).
  destruct sa, sb; simpl; try reflexivity.
  - rewrite (Z.compare_antisym ea eb).
    destruct (ea ?= eb); simpl; try reflexivity.
    pose proof (Pos.compare_cont_antisym mb ma Eq) as H. simpl in H. congruence.
  - rewrite (Z.compare_antisym eb ea).
    destruct (eb ?= ea); simpl; try reflexivity.
    pose proof (Pos.compare_cont_antisym ma mb Eq) as H. simpl in H. congruence.
Qed.

Lemma binary_round_aux_opp prec emax s m e l :
  binary_round_aux prec emax (negb s) m e l
  = SFopp (binary_round_aux prec emax s m e l).
Proof.
  unfold binary_round_aux.
  destruct (shr_fexp prec emax m e l) as [mrs e'].
  destruct (shr_fexp prec emax _ e' loc_Exact) as [mrs' e''].
  destruct (shr_m mrs'); try reflexivity.
  destruct (e'' <=? emax - prec); reflexivity.
Qed.

Lemma F32_mul_opp x :
  F32.mul (SFopp x) F32.c32767 = SFopp (F32.mul x F32.c32767).
Proof.
  unfold F32.mul, F32.c32767.
  destruct x as [s|s| |s m e]; simpl; try reflexivity.
  - now rewrite !xorb_false_r.
  - now rewrite !xorb_false_r.
  - rewrite !xorb_false_r. apply binary_round_aux_opp.
Qed.

Lemma SFtrunc_opp y : SFtrunc (SFopp y) = Z.opp <$> SFtrunc y.
Proof.
  destruct y as [s|s| |s m e]; simpl; try reflexivity.
  f_equal. destruct s; simpl; lia.
Qed.

Lemma above_one_not_below x :
  F32.ltb F32.one x = true -> F32.ltb x F32.minus_one = false.
Proof. destruct x as [[]|[]| |[] m e]; try discriminate; reflexivity. Qed.

Lemma clamp_opp x : AudioCapture.clamp (SFopp x) = SFopp (AudioCapture.clamp x).
Proof.
  assert (Hhi : F32.ltb F32.one (SFopp x) = F32.ltb x F32.minus_one).
  { unfold F32.ltb, SFltb. change F32.one with (SFopp F32.minus_one).
    now rewrite SFcompare_opp. }
  assert (Hlo : F32.ltb (SFopp x) F32.minus_one = F32.ltb F32.one x).
  { unfold F32.ltb, SFltb. change F32.minus_one with (SFopp F32.one).
    now rewrite SFcompare_opp. }
  unfold AudioCapture.clamp. rewrite Hhi.
  destruct (F32.ltb F32.one x) eqn:Ha.
  - rewrite (above_one_not_below x Ha). cbv beta iota zeta.
    rewrite Hlo. change (F32.ltb F32.one F32.minus_one) with false.
    cbv beta iota zeta. reflexivity.
  - destruct (F32.ltb x F32.minus_one) eqn:Hb; cbv beta iota zeta.
    + reflexivity.
    + now rewrite Hlo.
Qed.

Lemma valid_opp x : F32.valid (SFopp x) = F32.valid x.
Proof. now destruct x. Qed.

(** X14.  The float conversion is odd: for every canonical float other
    than a NaN, negating the input negates the output; positive and
    negative full scale are treated alike. *)
Theorem normalizer_is_odd (x : spec_float) :
  F32.valid x = true -> SF_is_nan x = false ->
  AudioCapture.float_to_int16 (SFopp x) = Z.opp <$> AudioCapture.float_to_int16 x.
Proof.
  intros Hvalid Hnan.
  destruct (float_to_int16_clamped x Hvalid Hnan) as (v & Hv & Hrange & _).
  rewrite Hv. simpl.
  unfold AudioCapture.float_to_int16 in *.
  rewrite clamp_opp, F32_mul_opp.
  unfold SF_to_int16 in *. rewrite SFtrunc_opp.
  destruct (SFtrunc _) as [z|]; [|discriminate]. simpl.
  destruct (Int.is_int16b z); [|discriminate].
  assert (z = v) as -> by congruence.
  destruct (Int.is_int16b (- v)) eqn:Hb; [reflexivity|].
  exfalso. apply not_true_iff_false in Hb. apply Hb.
  apply is_int16b_spec. unfold Int.is_int16. lia.
Qed.

Lemma normalizer_is_odd_witness :
  AudioCapture.float_to_int16 (SFopp (F32.of_bits 1061158912))
  = Z.opp <$> AudioCapture.float_to_int16 (F32.of_bits 1061158912).
Proof.
  apply (normalizer_is_odd (F32.of_bits 1061158912)); reflexivity.
Defined.

(* ===================================================================== *)
(** * Further properties: the accumulation buffer and export *)
(* ===================================================================== *)

(** X15.  Without a string as first argument [SaveToWav] returns [null]
    with a pending [TypeError] and touches nothing: the buffer is still
    there and no file is written. *)
Theorem SaveToWav_without_path (info : list WasapiLoopback.js_value)
    (fs : WasapiLoopback.FileSystem) (l : WasapiLoopback.WasapiLoopback) :
  (forall filePath rest, info <> WasapiLoopback.JsString filePath :: rest) ->
  WasapiLoopback.SaveToWav info fs l
  = Some (WasapiLoopback.Null_TypeError "String expected for file path", l, fs).
Proof.
  intros Hno. unfold WasapiLoopback.SaveToWav.
  destruct info as [|[filePath| |] rest]; try reflexivity.
  now destruct (Hno filePath rest).
Qed.

Lemma SaveToWav_without_path_witness :
  WasapiLoopback.SaveToWav [WasapiLoopback.JsNumber 16000] Demo.writable
    (Demo.loopback [1; 2; 3])
  = Some (WasapiLoopback.Null_TypeError "String expected for file path",
          Demo.loopback [1; 2; 3], Demo.writable).
Proof.
  apply (SaveToWav_without_path [WasapiLoopback.JsNumber 16000] Demo.writable
           (Demo.loopback [1; 2; 3])).
  intros filePath rest. discriminate.
Defined.

Lemma SaveToWav_nothing_captured filePath rest fs l :
  WasapiLoopback.m_audioBuffer (WasapiLoopback.m_accumulation l) = [] ->
  WasapiLoopback.SaveToWav (WasapiLoopback.JsString filePath :: rest) fs l
  = Some (WasapiLoopback.Boolean false, l, fs).
Proof.
  intros Hempty. unfold WasapiLoopback.SaveToWav. rewrite Hempty.
  rewrite bool_decide_eq_true_2 by reflexivity.
  destruct l as [c [buf rate ch]]. simpl in Hempty. subst buf. reflexivity.
Qed.

(** X16.  With nothing accumulated, [SaveToWav] returns [false] before it
    opens anything: no file is created or changed, whatever the path and
    the target rate, even where the path could be opened. *)
Theorem SaveToWav_empty_buffer (filePath : string)
    (rest : list WasapiLoopback.js_value)
    (fs : WasapiLoopback.FileSystem) (l : WasapiLoopback.WasapiLoopback) :
  WasapiLoopback.m_audioBuffer (WasapiLoopback.m_accumulation l) = [] ->
  WasapiLoopback.SaveToWav (WasapiLoopback.JsString filePath :: rest) fs l
  = Some (WasapiLoopback.Boolean false, l, fs).
Proof.
  intros Hempty. unfold WasapiLoopback.SaveToWav. rewrite Hempty.
  rewrite bool_decide_eq_true_2 by reflexivity.
  destruct l as [c [buf rate ch]]. simpl in Hempty. subst buf. reflexivity.
Qed.

Lemma SaveToWav_empty_buffer_witness :
  WasapiLoopback.SaveToWav [WasapiLoopback.JsString "out.wav"] Demo.writable
    (Demo.loopback [])
  = Some (WasapiLoopback.Boolean false, Demo.loopback [], Demo.writable).
Proof.
  apply (SaveToWav_empty_buffer "out.wav" [] Demo.writable (Demo.loopback [])).
  reflexivity.
Defined.

(** X17.  A successful export returns [true], replaces the content of the
    destination path by the WAV image of the resampled samples, leaves
    every other file as it was, empties the live buffer and keeps the
    capture object and the recorded rate and channel count. *)
Theorem SaveToWav_success (filePath : string) (rest : list WasapiLoopback.js_value)
    (fs : WasapiLoopback.FileSystem) (l : WasapiLoopback.WasapiLoopback)
    (rate : Z) (resampled : list Z) :
  rate = match rest with WasapiLoopback.JsNumber v :: _ => v | _ => 16000 end ->
  WasapiLoopback.m_audioBuffer (WasapiLoopback.m_accumulation l) <> [] ->
  WasapiLoopback.resample
    (WasapiLoopback.m_capturedSampleRate (WasapiLoopback.m_accumulation l)) rate
    (WasapiLoopback.monoSamples
       (WasapiLoopback.m_capturedChannels (WasapiLoopback.m_accumulation l))
       (WasapiLoopback.m_audioBuffer (WasapiLoopback.m_accumulation l)))
    = Some resampled ->
  WasapiLoopback.opens fs filePath = true ->
  exists l' fs',
    WasapiLoopback.SaveToWav (WasapiLoopback.JsString filePath :: rest) fs l
    = Some (WasapiLoopback.Boolean true, l', fs')
    /\ WasapiLoopback.files fs' !! filePath
       = Some (WasapiLoopback.wav_file resampled rate)
    /\ (forall other, other <> filePath ->
          WasapiLoopback.files fs' !! other = WasapiLoopback.files fs !! other)
    /\ WasapiLoopback.opens fs' = WasapiLoopback.opens fs
    /\ WasapiLoopback.m_audioBuffer (WasapiLoopback.m_accumulation l') = []
    /\ WasapiLoopback.m_capture l' = WasapiLoopback.m_capture l
    /\ WasapiLoopback.m_capturedSampleRate (WasapiLoopback.m_accumulation l')
       = WasapiLoopback.m_capturedSampleRate (WasapiLoopback.m_accumulation l)
    /\ WasapiLoopback.m_capturedChannels (WasapiLoopback.m_accumulation l')
       = WasapiLoopback.m_capturedChannels (WasapiLoopback.m_accumulation l).
Proof.
  intros Hrate Hbuf Hres Hopen.
  eexists _, _. split.
  - unfold WasapiLoopback.SaveToWav. rewrite <- Hrate.
    rewrite bool_decide_eq_false_2 by exact Hbuf.
    rewrite Hres. simpl. rewrite Hopen. simpl. reflexivity.
  - simpl. split; [apply lookup_insert_eq|].
    split; [intros other Hne; now apply lookup_insert_ne|].
    repeat split.
Qed.

Lemma SaveToWav_success_witness :
  exists l' fs',
    WasapiLoopback.SaveToWav [WasapiLoopback.JsString "out.wav"] Demo.writable
      (Demo.loopback [1; 2; 3; 4; 5; 6])
    = Some (WasapiLoopback.Boolean true, l', fs')
    /\ WasapiLoopback.files fs' !! "out.wav"
       = Some (WasapiLoopback.wav_file [1; 4] 16000)
    /\ (forall other, other <> "out.wav" ->
          WasapiLoopback.files fs' !! other
          = WasapiLoopback.files Demo.writable !! other)
    /\ WasapiLoopback.opens fs' = WasapiLoopback.opens Demo.writable
    /\ WasapiLoopback.m_audioBuffer (WasapiLoopback.m_accumulation l') = []
    /\ WasapiLoopback.m_capture l'
       = WasapiLoopback.m_capture (Demo.loopback [1; 2; 3; 4; 5; 6])
    /\ WasapiLoopback.m_capturedSampleRate (WasapiLoopback.m_accumulation l') = 48000
    /\ WasapiLoopback.m_capturedChannels (WasapiLoopback.m_accumulation l') = 1.
Proof.
  apply (SaveToWav_success "out.wav" [] Demo.writable
           (Demo.loopback [1; 2; 3; 4; 5; 6]) 16000 [1; 4]).
  - reflexivity.
  - discriminate.
  - vm_compute. reflexivity.
  - reflexivity.
Defined.

(** X18.  Export is destructive whatever its outcome: right after any call
    that was given a path, a second call returns [false] and changes
    neither the object nor the files. *)
Theorem SaveToWav_twice (p1 p2 : string) (rest1 rest2 : list WasapiLoopback.js_value)
    (fs fs' : WasapiLoopback.FileSystem) (l l' : WasapiLoopback.WasapiLoopback)
    (r : WasapiLoopback.napi_value) :
  WasapiLoopback.SaveToWav (WasapiLoopback.JsString p1 :: rest1) fs l
    = Some (r, l', fs') ->
  WasapiLoopback.SaveToWav (WasapiLoopback.JsString p2 :: rest2) fs' l'
  = Some (WasapiLoopback.Boolean false, l', fs').
Proof.
  intros Hfirst. apply SaveToWav_nothing_captured.
  eapply SaveToWav_always_clears. exact Hfirst.
Qed.

Lemma SaveToWav_twice_witness :
  WasapiLoopback.SaveToWav [WasapiLoopback.JsString "again.wav"] Demo.read_only
    {| WasapiLoopback.m_capture := Demo.capturing Demo.pcm16_stereo;
       WasapiLoopback.m_accumulation := Demo.buffer [] 48000 1 |}
  = Some (WasapiLoopback.Boolean false,
          {| WasapiLoopback.m_capture := Demo.capturing Demo.pcm16_stereo;
             WasapiLoopback.m_accumulation := Demo.buffer [] 48000 1 |},
          Demo.read_only).
Proof.
  apply (SaveToWav_twice "out.wav" "again.wav" [] [] Demo.read_only Demo.read_only
           (Demo.loopback [1; 2; 3; 4; 5; 6]) _ (WasapiLoopback.Boolean false)).
  vm_compute. reflexivity.
Defined.

(** X19.  The callback appends and overwrites the tag: after any sequence
    of invocations the buffer is the old buffer followed by all the
    samples in order of arrival, and the recorded rate and channel count
    are those of the last invocation alone. *)
Theorem accumulate_all_appends (calls : list (list Z * Z * Z))
    (a : WasapiLoopback.Accumulation) :
  WasapiLoopback.m_audioBuffer (Loopback.accumulate_all calls a)
  = WasapiLoopback.m_audioBuffer a ++ concat (map (fun call => fst (fst call)) calls)
  /\ (forall earlier samples rate channels,
        calls = earlier ++ [(samples, rate, channels)] ->
        WasapiLoopback.m_capturedSampleRate (Loopback.accumulate_all calls a) = rate
        /\ WasapiLoopback.m_capturedChannels (Loopback.accumulate_all calls a)
           = channels).
Proof.
  unfold Loopback.accumulate_all. split.
  - revert a. induction calls as [|[[s r] ch] calls IH]; intros a; simpl.
    + now rewrite app_nil_r.
    + rewrite IH. simpl. now rewrite app_assoc.
  - intros earlier samples rate channels ->. rewrite foldl_app. simpl. auto.
Qed.

(** X20.  [WasapiLoopback::Start] empties the buffer whatever its outcome,
    and never touches the recorded rate and channel count.  It returns
    [true] exactly when the object was not capturing, has an audio client
    and the client starts; the capture then runs with the accumulating
    callback. *)
Theorem Start_clears_buffer (hr : AudioCapture.HRESULT)
    (l : WasapiLoopback.WasapiLoopback) :
  let started := WasapiLoopback.Start hr l in
  WasapiLoopback.m_audioBuffer (WasapiLoopback.m_accumulation (snd started)) = []
  /\ WasapiLoopback.m_capturedSampleRate (WasapiLoopback.m_accumulation (snd started))
     = WasapiLoopback.m_capturedSampleRate (WasapiLoopback.m_accumulation l)
  /\ WasapiLoopback.m_capturedChannels (WasapiLoopback.m_accumulation (snd started))
     = WasapiLoopback.m_capturedChannels (WasapiLoopback.m_accumulation l)
  /\ (fst started = true
      <-> Loopback.IsCapturing l = false
          /\ AudioCapture.m_audioClient (WasapiLoopback.m_capture l) = true
          /\ AudioCapture.FAILED hr = false)
  /\ (fst started = true ->
      Loopback.IsCapturing (snd started) = true
      /\ AudioCapture.m_callback (WasapiLoopback.m_capture (snd started))
         = Some WasapiLoopback.accumulate
      /\ Loopback.GetSampleRate (snd started) = Loopback.GetSampleRate l
      /\ Loopback.GetChannels (snd started) = Loopback.GetChannels l).
Proof.
  unfold WasapiLoopback.Start, AudioCapture.Start, Loopback.IsCapturing,
    Loopback.GetSampleRate, Loopback.GetChannels, AudioCapture.IsCapturing.
  destruct (AudioCapture.m_isCapturing (WasapiLoopback.m_capture l)) eqn:Hcap; simpl.
  { repeat split; try discriminate. intros (H & _). discriminate. }
  destruct (AudioCapture.m_audioClient (WasapiLoopback.m_capture l)) eqn:Hcl; simpl.
  2:{ repeat split; try discriminate. intros (_ & H & _). discriminate. }
  destruct (AudioCapture.FAILED hr) eqn:Hhr; simpl.
  - repeat split; try discriminate. intros (_ & _ & H). discriminate.
  - repeat split.
Qed.

Section Tags.
Variable indefinite : Z.
Variable c : AudioCapture.AudioCapture WasapiLoopback.Accumulation.
Hypothesis Hcallback : AudioCapture.m_callback c = Some WasapiLoopback.accumulate.

Lemma process_packet_tag p a :
  default a (AudioCapture.process_packet indefinite c p a) = a
  \/ (WasapiLoopback.m_capturedSampleRate
        (default a (AudioCapture.process_packet indefinite c p a))
      = AudioCapture.m_sampleRate c
      /\ WasapiLoopback.m_capturedChannels
           (default a (AudioCapture.process_packet indefinite c p a))
         = AudioCapture.m_channels c).
Proof.
  unfold AudioCapture.process_packet. rewrite Hcallback.
  destruct (0 <? _); [|now left].
  destruct (AudioCapture.convert _ _ _ _) as [samples|]; simpl; [|now left].
  destruct (negb _ && negb _); [right; split; reflexivity|now left].
Qed.

(** Once anything has been appended the tag is the capture object's. *)
Lemma process_packets_tag : forall ps a,
  foldl (fun h p => default h (AudioCapture.process_packet indefinite c p h)) a ps = a
  \/ (WasapiLoopback.m_capturedSampleRate
        (foldl (fun h p => default h (AudioCapture.process_packet indefinite c p h))
           a ps)
      = AudioCapture.m_sampleRate c
      /\ WasapiLoopback.m_capturedChannels
           (foldl (fun h p => default h (AudioCapture.process_packet indefinite c p h))
              a ps)
         = AudioCapture.m_channels c).
Proof.
  induction ps as [|p ps IH] using rev_ind; intros a; [now left|].
  rewrite foldl_app. simpl.
  destruct (process_packet_tag p
              (foldl (fun h p => default h
                                   (AudioCapture.process_packet indefinite c p h)) a ps))
    as [->|Htag]; [apply IH|now right].
Qed.

End Tags.

(** X21.  Whatever the capture thread has accumulated carries the capture
    object's own sample rate and channel count: after any number of
    turns, either the accumulated data is exactly what the thread started
    with, or the recorded rate and channel count are [m_sampleRate] and
    [m_channels]. *)
Theorem capture_tags_buffer {World : Type} (indefinite : Z)
    (session : AudioCapture.Session World)
    (c : AudioCapture.AudioCapture WasapiLoopback.Accumulation)
    (a : WasapiLoopback.Accumulation) (w : World) (fuel : nat) :
  AudioCapture.m_callback c = Some WasapiLoopback.accumulate ->
  let a' := AudioCapture.thread_host
              (AudioCapture.CaptureThread indefinite session fuel c a w) in
  a' = a
  \/ (WasapiLoopback.m_capturedSampleRate a' = AudioCapture.m_sampleRate c
      /\ WasapiLoopback.m_capturedChannels a' = AudioCapture.m_channels c).
Proof.
  intros Hcb a'. subst a'. unfold AudioCapture.CaptureThread.
  rewrite run_host. simpl. now apply process_packets_tag.
Qed.

Lemma capture_tags_buffer_witness :
  let a' := AudioCapture.thread_host
              (AudioCapture.CaptureThread 0 Lifecycle.busy 2
                 (Demo.capturing Demo.pcm16_stereo) (Demo.buffer [] 0 0) 0%nat) in
  a' = Demo.buffer [] 0 0
  \/ (WasapiLoopback.m_capturedSampleRate a' = 48000
      /\ WasapiLoopback.m_capturedChannels a' = 2).
Proof.
  apply (capture_tags_buffer 0 Lifecycle.busy (Demo.capturing Demo.pcm16_stereo)
           (Demo.buffer [] 0 0) 0%nat 2).
  reflexivity.
Defined.

(** In that run the first packet has been appended after two turns, and
    the buffer carries the capture's rate and channel count. *)
Example busy_thread_tags :
  AudioCapture.thread_host
    (AudioCapture.CaptureThread 0 Lifecycle.busy 2
       (Demo.capturing Demo.pcm16_stereo) (Demo.buffer [] 0 0) 0%nat)
  = Demo.buffer [7; 9] 48000 2.
Proof. reflexivity. Qed.

(* ===================================================================== *)
(** * Further properties: downmix, resampling and the container *)
(* ===================================================================== *)

Lemma spec_downmix_int16 samples :
  Forall Int.is_int16 samples -> Forall Int.is_int16 (Spec.downmix samples).
Proof.
  revert samples. refine (list_pair_ind _ _ _ _);
    [intros _; constructor|intros x _; constructor|].
  intros l r rest IH Hall.
  inversion Hall as [|? ? Hl Hall']; subst.
  inversion Hall' as [|? ? Hr Hrest]; subst.
  cbn [Spec.downmix]. constructor; [|now apply IH].
  unfold Int.is_int16 in *. apply quot2_bounds; lia.
Qed.

(** X22.  The downmix never leaves the 16-bit range, for any channel
    count; and a trailing sample without a partner is dropped: appending
    one sample to a stereo buffer of whole frames does not change the
    mono output. *)
Theorem monoSamples_int16 (channels : Z) (samples : list Z) :
  Forall Int.is_int16 samples ->
  Forall Int.is_int16 (WasapiLoopback.monoSamples channels samples)
  /\ (Nat.even (length samples) = true ->
      forall x, Int.is_int16 x ->
        WasapiLoopback.monoSamples 2 (samples ++ [x])
        = WasapiLoopback.monoSamples 2 samples).
Proof.
  intros Hall. split.
  - unfold WasapiLoopback.monoSamples. destruct (channels =? 2); [|exact Hall].
    rewrite downmix_refines by exact Hall. now apply spec_downmix_int16.
  - intros Heven x Hx. unfold WasapiLoopback.monoSamples. simpl.
    rewrite !downmix_refines;
      [|exact Hall|apply Forall_app; split; [exact Hall|now constructor]].
    clear Hall. revert samples Heven.
    refine (list_pair_ind _ _ _ _); [reflexivity|discriminate|].
    intros l r rest IH Heven. cbn [app Spec.downmix]. f_equal.
    apply IH. exact Heven.
Qed.

Lemma monoSamples_int16_witness :
  Forall Int.is_int16 (WasapiLoopback.monoSamples 2 [100; -50; 32767; 32767]).
Proof.
  apply (monoSamples_int16 2 [100; -50; 32767; 32767]).
  repeat constructor; unfold Int.is_int16; lia.
Defined.

(** X23.  A stereo buffer made by writing every mono sample to both
    channels downmixes back to exactly that mono signal. *)
Theorem downmix_of_duplicated_mono (mono : list Z) :
  Forall Int.is_int16 mono ->
  WasapiLoopback.monoSamples 2 (flat_map (fun x => [x; x]) mono) = mono.
Proof.
  intros Hall. unfold WasapiLoopback.monoSamples. simpl.
  rewrite downmix_refines.
  - clear Hall. induction mono as [|x mono IH]; [reflexivity|].
    cbn [flat_map app Spec.downmix]. rewrite IH. f_equal.
    replace (x + x) with (x * 2) by lia. apply Z.quot_mul. lia.
  - induction Hall as [|x mono Hx Hall IH]; [constructor|].
    cbn [flat_map app]. constructor; [exact Hx|constructor; [exact Hx|exact IH]].
Qed.

Lemma downmix_of_duplicated_mono_witness :
  WasapiLoopback.monoSamples 2 (flat_map (fun x => [x; x]) [5; -32768; 32767])
  = [5; -32768; 32767].
Proof.
  apply (downmix_of_duplicated_mono [5; -32768; 32767]).
  repeat constructor; unfold Int.is_int16; lia.
Defined.

Lemma SF_to_int16_range x v : SF_to_int16 x = Some v -> Int.is_int16 v.
Proof.
  unfold SF_to_int16. destruct (SFtrunc x) as [z|]; [|discriminate].
  destruct (Int.is_int16b z) eqn:Hz; [|discriminate].
  intros Heq. inversion Heq; subst. now apply is_int16b_spec.
Qed.

(** X24.  Resampling never leaves the 16-bit range: whenever it returns,
    every output sample is a 16-bit value (the inputs being so). *)
Theorem resample_int16 (src tgt : Z) (mono out : list Z) :
  Forall Int.is_int16 mono ->
  WasapiLoopback.resample src tgt mono = Some out ->
  Forall Int.is_int16 out.
Proof.
  intros Hall Hres.
  destruct (Z.eq_dec src tgt) as [->|Hne].
  { unfold WasapiLoopback.resample in Hres. rewrite Z.eqb_refl in Hres.
    now inversion Hres; subst. }
  rewrite resample_mapM in Hres by exact Hne.
  destruct (WasapiLoopback.newSize _ mono) as [n|]; [|discriminate].
  simpl in Hres. apply mapM_seq_Some in Hres as [Hlen Hat].
  apply Forall_lookup. intros i x Hx.
  assert (Hi : (i < n)%nat) by (apply lookup_lt_Some in Hx; lia).
  rewrite (Hat i Hi) in Hx. unfold WasapiLoopback.resample_at in Hx.
  destruct (SF_to_size_t _) as [idx|]; [|discriminate]. simpl in Hx.
  destruct (idx + 1 <? length mono)%nat.
  - destruct (mono !! idx) as [a|]; [|discriminate]. simpl in Hx.
    destruct (mono !! (idx + 1)%nat) as [b|]; [|discriminate]. simpl in Hx.
    now apply SF_to_int16_range in Hx.
  - exact (proj1 (Forall_lookup _ _) Hall idx x Hx).
Qed.

Lemma resample_int16_witness :
  Forall Int.is_int16 [10; 13; 16; 20; 23; 26; 30; 30; 30].
Proof.
  apply (resample_int16 16000 48000 [10; 20; 30] [10; 13; 16; 20; 23; 26; 30; 30; 30]).
  - repeat constructor; unfold Int.is_int16; lia.
  - vm_compute. reflexivity.
Defined.

Lemma write_int2_injective x y :
  Int.is_int16 x -> Int.is_int16 y ->
  WasapiLoopback.write_int 2 x = WasapiLoopback.write_int 2 y -> x = y.
Proof.
  intros Hx Hy Heq. unfold WasapiLoopback.write_int in Heq.
  rewrite <- (int16_le_round_trip x Hx), <- (int16_le_round_trip y Hy).
  now rewrite Heq.
Qed.

Lemma sample_image_injective : forall s s' : list Z,
  Forall Int.is_int16 s -> Forall Int.is_int16 s' ->
  flat_map (WasapiLoopback.write_int 2) s = flat_map (WasapiLoopback.write_int 2) s' ->
  s = s'.
Proof.
  induction s as [|x s IH]; intros [|y s'] Hs Hs' Heq; try reflexivity;
    try discriminate.
  inversion Hs; inversion Hs'; subst.
  cbn [flat_map] in Heq. unfold WasapiLoopback.write_int in Heq.
  cbn [le_split app] in Heq.
  injection Heq as Hb0 Hb1 Hrest.
  f_equal.
  - apply write_int2_injective; try assumption.
    unfold WasapiLoopback.write_int.
    change (le_split 2 x) with [byte.of_Z x; byte.of_Z (Z.shiftr x 8)].
    change (le_split 2 y) with [byte.of_Z y; byte.of_Z (Z.shiftr y 8)].
    congruence.
  - now apply IH.
Qed.

(** X25.  The file determines what was exported: two exports whose WAV
    images are equal had the same target rate and the same samples (the
    rates and sizes being such that the 32-bit header fields hold them). *)
Theorem wav_file_injective (s s' : list Z) (rate rate' : Z) :
  Forall Int.is_int16 s -> Forall Int.is_int16 s' ->
  0 <= rate < 2147483648 -> 0 <= rate' < 2147483648 ->
  36 + 2 * Z.of_nat (length s) < 4294967296 ->
  36 + 2 * Z.of_nat (length s') < 4294967296 ->
  WasapiLoopback.wav_file s rate = WasapiLoopback.wav_file s' rate' ->
  rate = rate' /\ s = s'.
Proof.
  intros Hs Hs' Hr Hr' Hfit Hfit' Heq.
  pose proof (wav_file_layout s rate Hr Hfit) as L.
  pose proof (wav_file_layout s' rate' Hr' Hfit') as L'.
  unfold Spec.canonical_wav in L, L'. rewrite <- Heq in L'.
  destruct L as (_ & _ & _ & _ & _ & _ & _ & _ & Hrate & _ & _ & _ & _ & _ & _ & Hdata).
  destruct L' as (_ & _ & _ & _ & _ & _ & _ & _ & Hrate' & _ & _ & _ & _ & _ & _ & Hdata').
  split; [congruence|].
  apply sample_image_injective; try assumption.
  change (@le_split) with WasapiLoopback.write_int in Hdata, Hdata'. congruence.
Qed.

Lemma wav_file_injective_witness :
  16000 = 16000 /\ [1; -2; 3] = [1; -2; 3].
Proof.
  apply (wav_file_injective [1; -2; 3] [1; -2; 3] 16000 16000);
    try (repeat constructor; unfold Int.is_int16; lia); try lia; try (simpl; lia).
Defined.

(* ===================================================================== *)
(** * Further properties: a degenerate target rate, and a whole run *)
(* ===================================================================== *)

(** [(double) z] is exact, and finite, for a positive integer below 2^53. *)
Lemma shl_align_exact (p : positive) :
  Z.pos p < 2 ^ 53 ->
  exists mz ez,
    shl_align p 0 (fexp 53 1024 (Z.pos (digits2_pos p) + 0)) = (mz, ez)
    /\ 2 ^ 52 <= Z.pos mz < 2 ^ 53 /\ -52 <= ez <= 0.
Proof.
  intros Hp. pose proof (digits2_pos_bounds p) as [Hlo Hhi].
  set (d := Z.pos (digits2_pos p)) in *.
  assert (Hd1 : 1 <= d) by (subst d; lia).
  assert (Hd : d <= 53).
  { destruct (Z_le_gt_dec d 53) as [|Hgt]; [assumption|].
    assert (2 ^ 53 <= 2 ^ (d - 1)) by (apply Z.pow_le_mono_r; lia). lia. }
  assert (Hf : fexp 53 1024 (d + 0) = d - 53) by (unfold fexp, emin; lia).
  rewrite Hf. unfold shl_align.
  destruct (d - 53 - 0) as [|k|k] eqn:Hk; [|lia|].
  - exists p, 0. split; [reflexivity|]. replace d with 53 in * by lia.
    change (53 - 1) with 52 in Hlo. lia.
  - exists (Pos.iter xO p k), (d - 53). split; [reflexivity|].
    change (Pos.iter xO p k) with (shift_pos k p).
    rewrite shift_pos_correct. change (Zpower_pos 2 k) with (2 ^ Z.pos k).
    assert (Hk' : Z.pos k = 53 - d) by lia. rewrite Hk'.
    assert (Hpow : 2 ^ (53 - d) * 2 ^ (d - 1) = 2 ^ 52).
    { rewrite <- Z.pow_add_r by lia. f_equal. lia. }
    assert (Hpow' : 2 ^ (53 - d) * 2 ^ d = 2 ^ 53).
    { rewrite <- Z.pow_add_r by lia. f_equal. lia. }
    assert (0 < 2 ^ (53 - d)) by (apply Z.pow_pos_nonneg; lia).
    split; [|lia]. split; nia.
Qed.

Lemma F64_of_Z_finite (z : Z) :
  0 < z < 2 ^ 53 -> exists m e, F64.of_Z z = S754_finite false m e.
Proof.
  intros Hz. destruct z as [|p|p]; try lia.
  unfold F64.of_Z, F64.prec, F64.emax, binary_normalize, binary_round.
  destruct (shl_align_exact p) as (mz & ez & -> & Hmz & Hez); [lia|].
  assert (Hdig : Zdigits2 (Z.pos mz) = 53).
  { simpl. apply digits2_pos_exact; [exact Hmz|lia]. }
  unfold binary_round_aux.
  destruct (shr_fexp_exact 53 1024 (Z.pos mz) ez) as (mrs & Hshr & Hm & Hloc); [lia|].
  rewrite Hdig in Hshr, Hm, Hloc.
  assert (Hn : Z.max 0 (fexp 53 1024 (53 + ez) - ez) = 0)
    by (unfold fexp, emin; lia).
  rewrite Hn in Hshr, Hm, Hloc. rewrite Z.add_0_r in Hshr.
  change (2 ^ 0) with 1 in Hm, Hloc. rewrite Z.div_1_r in Hm.
  rewrite Hshr, Hm, Hloc by apply Z.mod_1_r.
  cbn [round_nearest_even]. rewrite Hshr, Hm.
  exists mz, ez. destruct (Z.leb_spec ez (1024 - 53)); [reflexivity|lia].
Qed.

Lemma monoSamples_length channels samples :
  (length (WasapiLoopback.monoSamples channels samples) <= length samples)%nat.
Proof.
  unfold WasapiLoopback.monoSamples. destruct (channels =? 2); [|lia].
  rewrite downmix_unfold, length_map, length_seq.
  apply Nat.Div0.div_le_upper_bound. lia.
Qed.

Lemma resample_to_rate_zero (src : Z) (mono : list Z) :
  0 < src < 2 ^ 53 -> Z.of_nat (length mono) < 2 ^ 53 ->
  WasapiLoopback.resample src 0 mono = Some [].
Proof.
  intros Hsrc Hlen. unfold WasapiLoopback.resample.
  destruct (Z.eqb_spec src 0) as [|_]; [lia|]. cbn [negb].
  unfold WasapiLoopback.ratio, WasapiLoopback.newSize.
  destruct (F64_of_Z_finite src Hsrc) as (m & e & ->).
  change (F64.of_Z 0) with (S754_zero false).
  assert (Hsize : F64.div (F64.of_Z (Z.of_nat (length mono)))
                          (F64.div (S754_finite false m e) (S754_zero false))
                  = S754_zero false).
  { destruct (Z.eq_dec (Z.of_nat (length mono)) 0) as [->|Hne]; [reflexivity|].
    destruct (F64_of_Z_finite (Z.of_nat (length mono))) as (m' & e' & ->);
      [lia|reflexivity]. }
  rewrite Hsize. reflexivity.
Qed.

(** X26.  A target rate of [0] is not rejected.  In IEEE-754 arithmetic the
    ratio is an infinity and the new size is zero, so the export returns
    [true], discards the captured samples and leaves a 44-byte file that
    holds a header and no sample. *)
Theorem SaveToWav_target_rate_zero (filePath : string)
    (rest : list WasapiLoopback.js_value)
    (fs : WasapiLoopback.FileSystem) (l : WasapiLoopback.WasapiLoopback) :
  WasapiLoopback.m_audioBuffer (WasapiLoopback.m_accumulation l) <> [] ->
  0 < WasapiLoopback.m_capturedSampleRate (WasapiLoopback.m_accumulation l)
    < 2147483648 ->
  Z.of_nat (length (WasapiLoopback.m_audioBuffer (WasapiLoopback.m_accumulation l)))
    < 2 ^ 53 ->
  WasapiLoopback.opens fs filePath = true ->
  WasapiLoopback.SaveToWav
    (WasapiLoopback.JsString filePath :: WasapiLoopback.JsNumber 0 :: rest) fs l
  = Some (WasapiLoopback.Boolean true,
          {| WasapiLoopback.m_capture := WasapiLoopback.m_capture l;
             WasapiLoopback.m_accumulation :=
               WasapiLoopback.clear (WasapiLoopback.m_accumulation l) |},
          WasapiLoopback.write_file filePath (WasapiLoopback.wav_file [] 0) fs)
  /\ length (WasapiLoopback.wav_file [] 0) = 44%nat.
Proof.
  intros Hbuf Hsrc Hlen Hopen. split; [|reflexivity].
  unfold WasapiLoopback.SaveToWav.
  rewrite bool_decide_eq_false_2 by exact Hbuf.
  rewrite resample_to_rate_zero.
  - simpl. rewrite Hopen. reflexivity.
  - lia.
  - pose proof (monoSamples_length
                  (WasapiLoopback.m_capturedChannels (WasapiLoopback.m_accumulation l))
                  (WasapiLoopback.m_audioBuffer (WasapiLoopback.m_accumulation l))).
    lia.
Qed.

Lemma SaveToWav_target_rate_zero_witness :
  WasapiLoopback.SaveToWav
    [WasapiLoopback.JsString "out.wav"; WasapiLoopback.JsNumber 0] Demo.writable
    (Demo.loopback [1; 2; 3])
  = Some (WasapiLoopback.Boolean true,
          {| WasapiLoopback.m_capture := WasapiLoopback.m_capture (Demo.loopback [1; 2; 3]);
             WasapiLoopback.m_accumulation :=
               WasapiLoopback.clear (WasapiLoopback.m_accumulation (Demo.loopback [1; 2; 3])) |},
          WasapiLoopback.write_file "out.wav" (WasapiLoopback.wav_file [] 0) Demo.writable).
Proof.
  apply (SaveToWav_target_rate_zero "out.wav" [] Demo.writable (Demo.loopback [1; 2; 3])).
  - discriminate.
  - simpl. lia.
  - simpl. lia.
  - reflexivity.
Defined.

(** What a successful [Initialize] leaves in the members [Start] and the
    thread read. *)
Lemma Initialize_format {Host : Type} (e : Lifecycle.Endpoint)
    (o : Lifecycle.Object Host) :
  fst (Lifecycle.Initialize e o) = true ->
  AudioCapture.m_sampleRate (fst (snd (Lifecycle.Initialize e o)))
  = Int.to_int32 (AudioCapture.nSamplesPerSec (Lifecycle.mixFormat e))
  /\ AudioCapture.m_channels (fst (snd (Lifecycle.Initialize e o)))
     = AudioCapture.nChannels (Lifecycle.mixFormat e).
Proof.
  destruct o as [c i]. unfold Lifecycle.Initialize, Lifecycle.InitializeWASAPI.
  repeat match goal with
  | |- context [if AudioCapture.FAILED ?hr then _ else _] =>
      destruct (AudioCapture.FAILED hr); simpl; [discriminate|]
  end.
  intros _. split; reflexivity.
Qed.

(** A [Start] that succeeds changes neither the sample rate nor the
    channel count, and installs the callback. *)
Lemma Start_keeps_format {Host : Type} (callback : AudioCapture.AudioDataCallback Host)
    (hr : AudioCapture.HRESULT) (c : AudioCapture.AudioCapture Host) :
  fst (AudioCapture.Start callback hr c) = true ->
  AudioCapture.m_sampleRate (snd (AudioCapture.Start callback hr c))
  = AudioCapture.m_sampleRate c
  /\ AudioCapture.m_channels (snd (AudioCapture.Start callback hr c))
     = AudioCapture.m_channels c
  /\ AudioCapture.m_callback (snd (AudioCapture.Start callback hr c)) = Some callback
  /\ AudioCapture.m_isCapturing (snd (AudioCapture.Start callback hr c)) = true.
Proof.
  unfold AudioCapture.Start.
  destruct (AudioCapture.m_isCapturing c); simpl; [discriminate|].
  destruct (AudioCapture.m_audioClient c); simpl; [|discriminate].
  destruct (AudioCapture.FAILED hr); simpl; [discriminate|]. auto.
Qed.

(** X27.  A whole run.  After an [Initialize] and a [Start] that both
    succeed, a capture thread that has run to its end and a [Stop], an
    export at the rate [GetSampleRate] reports does no resampling: it
    returns [true] and the file holds every recorded sample as captured
    (their per-frame mean when the mix format has two channels), tagged
    with the mix format's sample rate. *)
Theorem record_then_export {World : Type} (indefinite : Z)
    (session : AudioCapture.Session World) (e : Lifecycle.Endpoint)
    (o : Lifecycle.Object WasapiLoopback.Accumulation)
    (a0 : WasapiLoopback.Accumulation) (hr : AudioCapture.HRESULT)
    (w : World) (fuel : nat) (filePath : string) (fs : WasapiLoopback.FileSystem) :
  let initialized := Lifecycle.Initialize e o in
  let started :=
    WasapiLoopback.Start hr
      {| WasapiLoopback.m_capture := fst (snd initialized);
         WasapiLoopback.m_accumulation := a0 |} in
  let thread :=
    AudioCapture.CaptureThread indefinite session fuel
      (WasapiLoopback.m_capture (snd started))
      (WasapiLoopback.m_accumulation (snd started)) w in
  let recorded := AudioCapture.thread_host thread in
  let stopped := Loopback.Stop (Loopback.captured recorded (snd started)) in
  fst initialized = true ->
  fst started = true ->
  AudioCapture.has_exited thread = true ->
  WasapiLoopback.m_audioBuffer recorded <> [] ->
  WasapiLoopback.opens fs filePath = true ->
  Loopback.IsCapturing stopped = false
  /\ Loopback.GetSampleRate stopped
     = Int.to_int32 (AudioCapture.nSamplesPerSec (Lifecycle.mixFormat e))
  /\ WasapiLoopback.SaveToWav
       [WasapiLoopback.JsString filePath;
        WasapiLoopback.JsNumber (Loopback.GetSampleRate stopped)] fs stopped
     = Some (WasapiLoopback.Boolean true,
             {| WasapiLoopback.m_capture := WasapiLoopback.m_capture stopped;
                WasapiLoopback.m_accumulation := WasapiLoopback.clear recorded |},
             WasapiLoopback.write_file filePath
               (WasapiLoopback.wav_file
                  (WasapiLoopback.monoSamples
                     (AudioCapture.nChannels (Lifecycle.mixFormat e))
                     (WasapiLoopback.m_audioBuffer recorded))
                  (Loopback.GetSampleRate stopped)) fs).
Proof.
  intros initialized started thread recorded stopped Hinit Hstart Hexit Hbuf Hopen.
  destruct (Initialize_format e o Hinit) as [Hrate Hch].
  fold initialized in Hrate, Hch.
  assert (Hs : fst (AudioCapture.Start WasapiLoopback.accumulate hr
                      (fst (snd initialized))) = true).
  { subst started. unfold WasapiLoopback.Start in Hstart. simpl in Hstart.
    destruct (AudioCapture.Start _ _ _). exact Hstart. }
  destruct (Start_keeps_format _ _ _ Hs) as (Hrate' & Hch' & Hcb & Hcap).
  assert (Hc : WasapiLoopback.m_capture (snd started)
               = snd (AudioCapture.Start WasapiLoopback.accumulate hr
                        (fst (snd initialized)))).
  { subst started. unfold WasapiLoopback.Start. simpl.
    destruct (AudioCapture.Start _ _ _). reflexivity. }
  assert (Ha : WasapiLoopback.m_accumulation (snd started) = WasapiLoopback.clear a0).
  { subst started. unfold WasapiLoopback.Start. simpl.
    destruct (AudioCapture.Start _ _ _). reflexivity. }
  set (c := WasapiLoopback.m_capture (snd started)) in *.
  rewrite <- Hc in Hrate', Hch', Hcb, Hcap.
  assert (Htag : WasapiLoopback.m_capturedSampleRate recorded = AudioCapture.m_sampleRate c
                 /\ WasapiLoopback.m_capturedChannels recorded = AudioCapture.m_channels c).
  { subst recorded thread. unfold AudioCapture.CaptureThread in Hbuf |- *.
    rewrite run_host in Hbuf |- *. simpl in Hbuf |- *.
    destruct (process_packets_tag indefinite c Hcb
                (AudioCapture.deliveries indefinite session fuel
                   (AudioCapture.Polling c
                      (WasapiLoopback.m_accumulation (snd started)) w))
                (WasapiLoopback.m_accumulation (snd started))) as [Hsame|Htag];
      [|exact Htag].
    rewrite Hsame, Ha in Hbuf. now destruct Hbuf. }
  destruct Htag as [Htr Htc].
  assert (Hstopped : WasapiLoopback.m_accumulation stopped = recorded
                     /\ AudioCapture.m_sampleRate (WasapiLoopback.m_capture stopped)
                        = AudioCapture.m_sampleRate c
                     /\ AudioCapture.m_isCapturing (WasapiLoopback.m_capture stopped)
                        = false).
  { subst stopped. unfold Loopback.Stop, Loopback.captured, Lifecycle.Stop. simpl.
    fold c. rewrite Hcap. simpl. auto. }
  destruct Hstopped as (Hsa & Hsr & Hsc).
  split; [exact Hsc|].
  unfold Loopback.GetSampleRate. rewrite Hsr, Hrate', Hrate.
  split; [reflexivity|].
  unfold WasapiLoopback.SaveToWav. rewrite Hsa.
  rewrite bool_decide_eq_false_2 by exact Hbuf.
  rewrite Htr, Htc, Hrate', Hch', Hrate, Hch.
  unfold WasapiLoopback.resample. rewrite Z.eqb_refl. simpl.
  rewrite Hopen. reflexivity.
Qed.

Lemma record_then_export_witness :
  let stopped :=
    Loopback.Stop
      (Loopback.captured (Demo.buffer [7; 9] 48000 2)
         (snd (WasapiLoopback.Start AudioCapture.S_OK
                 {| WasapiLoopback.m_capture :=
                      fst (snd (Lifecycle.Initialize
                                  (Lifecycle.healthy Demo.pcm16_stereo)
                                  (Lifecycle.fresh Demo.pcm16_stereo)));
                    WasapiLoopback.m_accumulation := Demo.buffer [1; 2] 0 0 |}))) in
  WasapiLoopback.SaveToWav
    [WasapiLoopback.JsString "out.wav"; WasapiLoopback.JsNumber 48000]
    Demo.writable stopped
  = Some (WasapiLoopback.Boolean true,
          {| WasapiLoopback.m_capture := WasapiLoopback.m_capture stopped;
             WasapiLoopback.m_accumulation := Demo.buffer [] 48000 2 |},
          WasapiLoopback.write_file "out.wav" (WasapiLoopback.wav_file [8] 48000)
            Demo.writable).
Proof.
  apply (record_then_export 0 Demo.session (Lifecycle.healthy Demo.pcm16_stereo)
           (Lifecycle.fresh Demo.pcm16_stereo) (Demo.buffer [1; 2] 0 0)
           AudioCapture.S_OK 0%nat 10 "out.wav" Demo.writable).
  - reflexivity.
  - reflexivity.
  - reflexivity.
  - discriminate.
  - reflexivity.
Defined.
